(** * mcp-xlsm-server: a shallow embedding of the request pipeline

    The development follows the Go packages of the server:
    - [Cache]        internal/cache/smart_cache.go
    - [Compression]  internal/compression/manager.go (with internal/token)
    - [Index]        internal/index/manager.go
    - [Cursor]       internal/cursor
    - [Tools]        internal/server (build_navigation_map, query_data)
    - [Server]       internal/server/server.go (dispatch, both transports)
    - [Analysis]     internal/server (chunk planning of analyze_file)
    - [SheetData]    internal/server (rows read by the scan path of query_data)
    - [Navigation]   internal/server (the index built by build_navigation_map)

    Conventions.  Go [int]/[int64] values are integers of [Z] and every
    arithmetic result is reduced with [wrap64].  [time.Time] and
    [time.Duration] are nanosecond counts in [Z]; each exported call reads the
    clock once and receives that reading as the argument [now].  A Go map that
    is ranged over is paired with the order in which the runtime happens to
    visit its keys; statements quantify over that order.  An error carries
    the fixed text of its message, followed by the text of the wrapped cause
    where the cause is an error of this program. *)

From Stdlib Require Import ZArith Lia List Bool QArith Lqa.
From Stdlib Require Import Floats.PrimFloat Floats.FloatOps Floats.SpecFloat.
From Stdlib Require Import Numbers.Cyclic.Int63.Uint63.
From stdpp Require Import gmap strings list pretty.

#[local] Open Scope Z_scope.

(** ** Machine integers and clock units *)

Definition wrap64 (z : Z) : Z := (z + 2 ^ 63) mod 2 ^ 64 - 2 ^ 63.

Definition Second : Z := 1000000000.
Definition Minute : Z := 60 * Second.

Lemma wrap64_small z : - 2 ^ 63 <= z < 2 ^ 63 -> wrap64 z = z.
Proof.
  intros H. unfold wrap64. rewrite Z.mod_small; lia.
Qed.

Lemma wrap64_range z : - 2 ^ 63 <= wrap64 z < 2 ^ 63.
Proof.
  unfold wrap64. pose proof (Z.mod_pos_bound (z + 2 ^ 63) (2 ^ 64)). lia.
Qed.

(** ** Smart cache (internal/cache/smart_cache.go) *)

Module Cache.

(** The size handed to [lru.NewWithEvict]. *)
Definition lruSize : nat := 1000.

(** models.HotEntry *)
Record HotEntry := mkHot {
  AccessCount : Z;
  LastAccess : Z;
  TTL : Z;
  Size : Z
}.

Record CacheStats := mkStats {
  Hits : Z;
  Misses : Z;
  Evictions : Z;
  HotPromotions : Z
}.

Section WithPayload.

(** [V] stands for any dynamic type other than a [CacheEntry] pointer. *)
Context {V : Type}.

(** What an [interface{}] slot of the cache can hold: the type assertion of
    [GetWithValidation] to a [CacheEntry] pointer succeeds exactly on
    [EntryRef]. *)
Inductive value :=
| Plain (v : V)
| EntryRef (e : CacheEntry)
with CacheEntry :=
| mkCacheEntry (Value : value) (entrySize CreatedAt ExpiresAt : Z) (Checksum : string).

Definition Value (e : CacheEntry) : value := let 'mkCacheEntry v _ _ _ _ := e in v.
Definition entrySize (e : CacheEntry) : Z := let 'mkCacheEntry _ s _ _ _ := e in s.
Definition ExpiresAt (e : CacheEntry) : Z := let 'mkCacheEntry _ _ _ x _ := e in x.
Definition Checksum (e : CacheEntry) : string := let 'mkCacheEntry _ _ _ _ c := e in c.

(** *** The LRU list of hashicorp/golang-lru: most recently used first.
    The eviction callback installed by [NewSmartCache] has an empty body, so
    dropping the oldest entry touches nothing but the list. *)

Definition lru_t := list (string * value).

Fixpoint lru_find (l : lru_t) (k : string) : option value :=
  match l with
  | [] => None
  | (k', v) :: l' => if String.eqb k' k then Some v else lru_find l' k
  end.

Definition lru_remove (l : lru_t) (k : string) : lru_t :=
  List.filter (fun p => negb (String.eqb (fst p) k)) l.

(** [Get] moves a found entry to the front. *)
Definition lru_get (l : lru_t) (k : string) : lru_t * option value :=
  match lru_find l k with
  | Some v => ((k, v) :: lru_remove l k, Some v)
  | None => (l, None)
  end.

(** [Add]: an existing key is refreshed in place at the front; a new key is
    pushed and, past the capacity, the oldest entry (the last) is dropped. *)
Definition lru_add (l : lru_t) (k : string) (v : value) : lru_t :=
  match lru_find l k with
  | Some _ => (k, v) :: lru_remove l k
  | None =>
      let l' := (k, v) :: l in
      if (lruSize <? length l')%nat then removelast l' else l'
  end.

Record SmartCache := mkCache {
  lru : lru_t;
  hotData : gmap string HotEntry;
  maxMemory : Z;
  currentMem : Z;
  stats : CacheStats
}.

Definition recordHit (s : CacheStats) : CacheStats :=
  mkStats (wrap64 (Hits s + 1)) (Misses s) (Evictions s) (HotPromotions s).
Definition recordMiss (s : CacheStats) : CacheStats :=
  mkStats (Hits s) (wrap64 (Misses s + 1)) (Evictions s) (HotPromotions s).
Definition recordEviction (s : CacheStats) : CacheStats :=
  mkStats (Hits s) (Misses s) (wrap64 (Evictions s + 1)) (HotPromotions s).
Definition recordHotPromotion (s : CacheStats) : CacheStats :=
  mkStats (Hits s) (Misses s) (Evictions s) (wrap64 (HotPromotions s + 1)).

Definition NewSmartCache (maxMemoryMB : Z) : SmartCache :=
  mkCache [] ∅ (wrap64 (wrap64 (maxMemoryMB * 1024) * 1024)) 0 (mkStats 0 0 0 0).

Definition updateHotData (c : SmartCache) (key : string) (isHit : bool) (now : Z)
  : SmartCache :=
  match hotData c !! key with
  | Some entry =>
      let n := wrap64 (AccessCount entry + 1) in
      if (3 <? n) && (TTL entry <? 10 * Minute)
      then mkCache (lru c) (<[key := mkHot n now (10 * Minute) (Size entry)]> (hotData c))
                   (maxMemory c) (currentMem c) (recordHotPromotion (stats c))
      else mkCache (lru c) (<[key := mkHot n now (TTL entry) (Size entry)]> (hotData c))
                   (maxMemory c) (currentMem c) (stats c)
  | None =>
      if isHit
      then mkCache (lru c) (<[key := mkHot 1 now (5 * Minute) 0]> (hotData c))
                   (maxMemory c) (currentMem c) (stats c)
      else c
  end.

Definition Get (c : SmartCache) (key : string) (now : Z) : SmartCache * option value :=
  match lru_get (lru c) key with
  | (l', Some v) =>
      let c1 := mkCache l' (hotData c) (maxMemory c) (currentMem c) (recordHit (stats c)) in
      (updateHotData c1 key true now, Some v)
  | (_, None) =>
      (mkCache (lru c) (hotData c) (maxMemory c) (currentMem c) (recordMiss (stats c)), None)
  end.

(** One [range c.hotData] loop of [evictColdData]: [keys] is the visiting
    order, [cold] the test of the pass, [freed] the running total. *)
Fixpoint evictPass (cold : HotEntry -> bool) (neededSpace : Z) (keys : list string)
    (c : SmartCache) (freed : Z) : SmartCache * Z :=
  match keys with
  | [] => (c, freed)
  | key :: rest =>
      if neededSpace <=? freed then (c, freed)
      else
        match hotData c !! key with
        | Some entry =>
            if cold entry
            then evictPass cold neededSpace rest
                   (mkCache (lru_remove (lru c) key) (delete key (hotData c)) (maxMemory c)
                            (wrap64 (currentMem c - Size entry)) (recordEviction (stats c)))
                   (wrap64 (freed + Size entry))
            else evictPass cold neededSpace rest c freed
        | None => evictPass cold neededSpace rest c freed
        end
  end.

Definition evictColdData (c : SmartCache) (neededSpace now : Z) (order1 order2 : list string)
  : SmartCache * bool :=
  let threshold := now - 5 * Minute in
  let '(c1, freed1) :=
    evictPass (fun e => (AccessCount e <? 2) && (LastAccess e <? threshold))
              neededSpace order1 c 0 in
  if freed1 <? neededSpace
  then
    let olderThreshold := now - 15 * Minute in
    let '(c2, freed2) :=
      evictPass (fun e => LastAccess e <? olderThreshold) neededSpace order2 c1 freed1 in
    (c2, neededSpace <=? freed2)
  else (c1, neededSpace <=? freed1).

(** The part of [Set] after the memory check. *)
Definition store (c : SmartCache) (key : string) (v : value) (size now : Z) : SmartCache :=
  let mem :=
    match lru_find (lru c) key, hotData c !! key with
    | Some _, Some oldEntry => wrap64 (currentMem c - Size oldEntry)
    | _, _ => currentMem c
    end in
  mkCache (lru_add (lru c) key v) (<[key := mkHot 1 now (5 * Minute) size]> (hotData c))
          (maxMemory c) (wrap64 (mem + size)) (stats c).

Definition Set_ (c : SmartCache) (key : string) (v : value) (size now : Z)
    (order1 order2 : list string) : SmartCache * bool :=
  if maxMemory c <? wrap64 (currentMem c + size)
  then
    match evictColdData c size now order1 order2 with
    | (c1, true) => (store c1 key v size now, true)
    | (c1, false) => (c1, false)
    end
  else (store c key v size now, true).

Definition Delete (c : SmartCache) (key : string) : SmartCache :=
  match hotData c !! key with
  | Some entry =>
      mkCache (lru_remove (lru c) key) (delete key (hotData c)) (maxMemory c)
              (wrap64 (currentMem c - Size entry)) (stats c)
  | None =>
      mkCache (lru_remove (lru c) key) (hotData c) (maxMemory c) (currentMem c) (stats c)
  end.

Definition Clear (c : SmartCache) : SmartCache :=
  mkCache [] ∅ (maxMemory c) 0 (stats c).

Definition GetMemoryUsage (c : SmartCache) : Z * Z := (currentMem c, maxMemory c).

(** The sweeper's [range c.hotData] loop. *)
Fixpoint cleanup (c : SmartCache) (now : Z) (keys : list string) : SmartCache :=
  match keys with
  | [] => c
  | key :: rest =>
      match hotData c !! key with
      | Some entry =>
          if TTL entry <? now - LastAccess entry
          then cleanup (mkCache (lru_remove (lru c) key) (delete key (hotData c)) (maxMemory c)
                                (wrap64 (currentMem c - Size entry)) (stats c)) now rest
          else cleanup c now rest
      | None => cleanup c now rest
      end
  end.

Definition SetWithMetadata (c : SmartCache) (key : string) (entry : CacheEntry) (now : Z)
    (order1 order2 : list string) : SmartCache * bool :=
  Set_ c key (EntryRef entry) (entrySize entry) now order1 order2.

Definition GetWithValidation (c : SmartCache) (key expectedChecksum : string) (now : Z)
  : SmartCache * option value :=
  match Get c key now with
  | (c1, None) => (c1, None)
  | (c1, Some (EntryRef entry)) =>
      if ExpiresAt entry <? now then (Delete c1 key, None)
      else if negb (String.eqb expectedChecksum "") &&
              negb (String.eqb (Checksum entry) expectedChecksum)
      then (Delete c1 key, None)
      else (c1, Some (Value entry))
  | (c1, Some v) => (c1, Some v)
  end.

(** *** Accounting views used by the statements *)

(** Sum of the recorded sizes of the entries the LRU still holds. *)
Definition liveBytes (c : SmartCache) : Z :=
  fold_right (fun p acc => match hotData c !! fst p with
                           | Some e => Size e + acc
                           | None => acc
                           end) 0 (lru c).

(** Sum of the sizes recorded in the hot table. *)
Definition hotBytes (c : SmartCache) : Z :=
  map_fold (fun _ e acc => Size e + acc) 0 (hotData c).

(** The operations a client or the sweeper can run on the cache. *)
Inductive op :=
| OpSet (key : string) (v : value) (size : Z) (order1 order2 : list string)
| OpGet (key : string)
| OpDelete (key : string)
| OpCleanup (keys : list string)
| OpClear.

Definition step (now : Z) (c : SmartCache) (o : op) : SmartCache :=
  match o with
  | OpSet key v size o1 o2 => fst (Set_ c key v size now o1 o2)
  | OpGet key => fst (Get c key now)
  | OpDelete key => Delete c key
  | OpCleanup keys => cleanup c now keys
  | OpClear => Clear c
  end.

Definition run (now : Z) (c : SmartCache) (ops : list op) : SmartCache :=
  fold_left (step now) ops c.

(** A trace: each operation with the clock reading at which it runs. *)
Definition runAt (c : SmartCache) (trace : list (Z * op)) : SmartCache :=
  fold_left (fun c e => step (fst e) c (snd e)) trace c.

End WithPayload.

Arguments value : clear implicits.
Arguments CacheEntry : clear implicits.
Arguments SmartCache : clear implicits.
Arguments op : clear implicits.
Arguments lru_t : clear implicits.

End Cache.

(** ** Properties of the smart cache *)

Module CacheFacts.
Import Cache.

Section Lru.
Context {V : Type}.
Implicit Types (l : lru_t V) (c : SmartCache V).

Lemma lru_find_add l k (v : value V) : lru_find (lru_add l k v) k = Some v.
Proof.
  unfold lru_add. destruct (lru_find l k) eqn:Hf.
  - simpl. now rewrite String.eqb_refl.
  - cbv zeta. destruct (lruSize <? length ((k, v) :: l))%nat eqn:Hlen.
    + destruct l as [|p l'].
      * apply Nat.ltb_lt in Hlen. unfold lruSize in Hlen. simpl in Hlen. lia.
      * change (removelast ((k, v) :: p :: l')) with ((k, v) :: removelast (p :: l')).
        simpl. now rewrite String.eqb_refl.
    + simpl. now rewrite String.eqb_refl.
Qed.

Lemma store_holds c key (v : value V) size now :
  lru_find (lru (store c key v size now)) key = Some v.
Proof. unfold store. simpl. apply lru_find_add. Qed.

Lemma Set_true_holds c key (v : value V) size now o1 o2 c' :
  Set_ c key v size now o1 o2 = (c', true) -> lru_find (lru c') key = Some v.
Proof.
  unfold Set_. destruct (maxMemory c <? wrap64 (currentMem c + size)).
  - destruct (evictColdData c size now o1 o2) as [c1 []]; intros H; inversion H; subst.
    apply store_holds.
  - intros H; inversion H; subst. apply store_holds.
Qed.

Lemma Get_found c key now (v : value V) :
  lru_find (lru c) key = Some v -> snd (Get c key now) = Some v.
Proof. intros H. unfold Get, lru_get. now rewrite H. Qed.

(** Whatever the LRU holds under [key] that is not a [CacheEntry] pointer comes
    back from [GetWithValidation] untouched. *)
Lemma GetWithValidation_plain c key expected now (v : V) :
  lru_find (lru c) key = Some (Plain v) ->
  snd (GetWithValidation c key expected now) = Some (Plain v).
Proof.
  intros H. unfold GetWithValidation, Get, lru_get. now rewrite H.
Qed.

End Lru.

(** C10. A value stored with plain [Set] (anything but a [CacheEntry]
    pointer) is returned as a hit by [GetWithValidation] for every expected
    checksum and at every later clock reading: neither the expiry test nor
    the checksum comparison is reached. *)
Theorem GetWithValidation_after_plain_Set :
  forall (V : Type) (c c' : SmartCache V) (key : string) (v : V) (size now : Z)
         (order1 order2 : list string) (expectedChecksum : string) (later : Z),
    Set_ c key (Plain v) size now order1 order2 = (c', true) ->
    snd (GetWithValidation c' key expectedChecksum later) = Some (Plain v).
Proof.
  intros V c c' key v size now o1 o2 expected later HSet.
  apply GetWithValidation_plain. eapply Set_true_holds; eassumption.
Qed.

Lemma GetWithValidation_after_plain_Set_witness :
  snd (GetWithValidation
         (fst (Set_ (NewSmartCache 100) "nav_abc" (Plain 7%Z) 64 0 [] []))
         "nav_abc" "some-other-checksum" (3600 * Second))
  = Some (Plain 7%Z).
Proof.
  apply (GetWithValidation_after_plain_Set Z (NewSmartCache 100) _ "nav_abc" 7 64 0 [] []).
  reflexivity.
Defined.

(** *** The LRU capacity and the memory counter *)

Definition key_of (n : nat) : string := "k" +:+ pretty (N.of_nat n).

(** [n] one-byte entries under the keys [k0 .. k(n-1)]. *)
Definition fill (n : nat) : list (op unit) :=
  List.map (fun i => OpSet (key_of i) (Plain tt) 1 [] []) (seq 0 n).

(** C1 (as the code behaves). A 100 MB cache receives 1001 one-byte entries
    under distinct keys and the first key is then set again.  The LRU has
    dropped [k0] silently on the 1001st insertion, so the counter reported by
    [GetMemoryUsage] is 1002 while the LRU holds 1000 one-byte entries and the
    hot table 1001. *)
Theorem memory_counter_drifts_past_lru_capacity :
  let c := run 0 (NewSmartCache 100) (fill 1001 ++ [OpSet (key_of 0) (Plain tt) 1 [] []]) in
  fst (GetMemoryUsage c) = 1002 /\
  length (lru c) = 1000%nat /\ liveBytes c = 1000 /\ hotBytes c = 1001.
Proof. vm_compute. repeat split; reflexivity. Qed.

(** *** The memory counter while the LRU stays within its capacity

    As long as every key comes from a set [K] of at most [lruSize] keys, the
    LRU never drops an entry on its own, the LRU and the hot table list the
    same keys, and the counter is the sum of the recorded sizes. *)

Section Accounting.
Context {V : Type}.
Implicit Types (l : lru_t V) (c : SmartCache V) (h : gmap string HotEntry) (ks : list string).

Definition keys l : list string := List.map fst l.

Definition sizeOf h (k : string) : Z :=
  match h !! k with Some e => Size e | None => 0 end.

Definition total (f : string -> Z) ks : Z := fold_right (fun k acc => f k + acc) 0 ks.

Definition differs (k : string) : string -> bool := fun k' => negb (String.eqb k' k).

Lemma liveBytes_total c : liveBytes c = total (sizeOf (hotData c)) (keys (lru c)).
Proof.
  unfold liveBytes, keys, sizeOf. induction (lru c) as [|p l IH]; simpl; [reflexivity |].
  rewrite IH. destruct (hotData c !! p.1); simpl; lia.
Qed.

Lemma total_ext f g ks :
  (forall k, In k ks -> f k = g k) -> total f ks = total g ks.
Proof.
  induction ks as [|k ks IH]; simpl; intros Hfg; [reflexivity |].
  rewrite IH by auto. rewrite Hfg by auto. reflexivity.
Qed.

Lemma total_nonneg f ks : (forall k, In k ks -> 0 <= f k) -> 0 <= total f ks.
Proof.
  induction ks as [|k ks IH]; simpl; intros Hf; [lia |].
  specialize (IH (fun k' Hk' => Hf k' (or_intror Hk'))). specialize (Hf k (or_introl eq_refl)).
  lia.
Qed.

Lemma differs_true k k' : differs k k' = true <-> k' <> k.
Proof. unfold differs. rewrite negb_true_iff. apply String.eqb_neq. Qed.

Lemma filter_differs_absent k ks : ~ In k ks -> List.filter (differs k) ks = ks.
Proof.
  induction ks as [|k' ks IH]; simpl; intros Hnot; [reflexivity |].
  destruct (differs k k') eqn:Hd.
  - rewrite IH by tauto. reflexivity.
  - exfalso. apply Hnot. left. unfold differs in Hd. apply negb_false_iff in Hd.
    now apply String.eqb_eq in Hd.
Qed.

Lemma total_without f k ks :
  List.NoDup ks -> In k ks -> total f (List.filter (differs k) ks) = total f ks - f k.
Proof.
  induction 1 as [|k' ks Hnot Hnd IH]; simpl; intros Hin; [contradiction |].
  destruct Hin as [-> | Hin].
  - assert (Hd : differs k k = false) by (unfold differs; now rewrite String.eqb_refl).
    rewrite Hd, filter_differs_absent by assumption. lia.
  - assert (Hd : differs k k' = true) by (apply differs_true; intros ->; contradiction).
    rewrite Hd. simpl. rewrite IH by assumption. lia.
Qed.

Lemma keys_remove l k : keys (lru_remove l k) = List.filter (differs k) (keys l).
Proof.
  unfold keys, lru_remove. induction l as [|[k' v] l IH]; simpl; [reflexivity |].
  unfold differs at 1. simpl. destruct (negb (String.eqb k' k)); simpl; now rewrite IH.
Qed.

Lemma lru_find_None l k : lru_find l k = None <-> ~ In k (keys l).
Proof.
  induction l as [|[k' v] l IH]; simpl; [tauto |].
  destruct (String.eqb k' k) eqn:Hk.
  - apply String.eqb_eq in Hk. split; [discriminate | tauto].
  - apply String.eqb_neq in Hk. rewrite IH. tauto.
Qed.

Lemma lru_find_Some l k v : lru_find l k = Some v -> In k (keys l).
Proof.
  intros Hf. destruct (in_dec String.string_dec k (keys l)) as [Hin | Hnot]; [assumption |].
  apply lru_find_None in Hnot. congruence.
Qed.

Lemma NoDup_filter_differs k ks : List.NoDup ks -> List.NoDup (List.filter (differs k) ks).
Proof. apply List.NoDup_filter. Qed.

Lemma In_filter_differs k k' ks : In k' (List.filter (differs k) ks) <-> In k' ks /\ k' <> k.
Proof. rewrite List.filter_In, differs_true. tauto. Qed.


Variable K : list string.
Hypothesis K_fits : (length K <= lruSize)%nat.

Definition Inv c : Prop :=
  List.NoDup (keys (lru c)) /\
  incl (keys (lru c)) K /\
  (forall k, In k (keys (lru c)) <-> is_Some (hotData c !! k)) /\
  (forall k, 0 <= sizeOf (hotData c) k) /\
  currentMem c = total (sizeOf (hotData c)) (keys (lru c)) /\
  0 <= maxMemory c < 2 ^ 62 /\
  currentMem c <= maxMemory c.

Lemma Inv_mem_nonneg c : Inv c -> 0 <= currentMem c.
Proof.
  intros (_ & _ & _ & Hpos & Hmem & _). rewrite Hmem. apply total_nonneg. auto.
Qed.

Lemma sizeOf_delete h key k :
  sizeOf (delete key h) k = if String.eqb k key then 0 else sizeOf h k.
Proof.
  unfold sizeOf. destruct (String.eqb k key) eqn:Hk.
  - apply String.eqb_eq in Hk. subst. now rewrite lookup_delete_eq.
  - apply String.eqb_neq in Hk. now rewrite lookup_delete_ne by congruence.
Qed.

Lemma sizeOf_insert h key e k :
  sizeOf (<[key := e]> h) k = if String.eqb k key then Size e else sizeOf h k.
Proof.
  unfold sizeOf. destruct (String.eqb k key) eqn:Hk.
  - apply String.eqb_eq in Hk. subst. now rewrite lookup_insert_eq.
  - apply String.eqb_neq in Hk. now rewrite lookup_insert_ne by congruence.
Qed.

Lemma total_without_ext f g key ks :
  (forall k, k <> key -> f k = g k) ->
  total f (List.filter (differs key) ks) = total g (List.filter (differs key) ks).
Proof.
  intros Hfg. apply total_ext. intros k Hk. apply In_filter_differs in Hk. apply Hfg. tauto.
Qed.

(** Dropping a key from both tables, as eviction, [Delete] and the sweeper do. *)
Lemma Inv_remove c key entry st :
  Inv c -> hotData c !! key = Some entry ->
  Inv (mkCache (lru_remove (lru c) key) (delete key (hotData c)) (maxMemory c)
               (wrap64 (currentMem c - Size entry)) st) /\
  wrap64 (currentMem c - Size entry) = currentMem c - Size entry /\
  0 <= Size entry.
Proof.
  intros (Hnd & Hincl & Hdom & Hpos & Hmem & Hmax & Hle) Hget.
  assert (Hin : In key (keys (lru c))) by (apply Hdom; eauto).
  assert (Hsize : sizeOf (hotData c) key = Size entry) by (unfold sizeOf; now rewrite Hget).
  assert (Hrest : total (sizeOf (hotData c)) (List.filter (differs key) (keys (lru c)))
                  = currentMem c - Size entry).
  { rewrite total_without by assumption. lia. }
  assert (Hrest0 : 0 <= total (sizeOf (hotData c)) (List.filter (differs key) (keys (lru c))))
    by (apply total_nonneg; auto).
  assert (Hs0 : 0 <= Size entry) by (rewrite <- Hsize; apply Hpos).
  assert (Hw : wrap64 (currentMem c - Size entry) = currentMem c - Size entry)
    by (apply wrap64_small; lia).
  split; [| split; assumption].
  unfold Inv. cbn [lru hotData maxMemory currentMem]. rewrite keys_remove, Hw.
  split; [now apply NoDup_filter_differs |].
  split; [intros k Hk; apply In_filter_differs in Hk; apply Hincl; tauto |].
  split.
  { intros k. rewrite In_filter_differs, Hdom.
    destruct (String.string_dec k key) as [-> | Hne].
    - rewrite lookup_delete_eq. split; [tauto | intros [? ?]; discriminate].
    - rewrite lookup_delete_ne by congruence. tauto. }
  split.
  { intros k. rewrite sizeOf_delete. destruct (String.eqb k key); [lia | apply Hpos]. }
  split; [| lia].
  rewrite <- Hrest. apply total_without_ext. intros k Hk. rewrite sizeOf_delete.
  apply String.eqb_neq in Hk. now rewrite Hk.
Qed.

(** [lru.Remove] of a key the hot table does not list. *)
Lemma Inv_remove_absent c key st :
  Inv c -> hotData c !! key = None ->
  Inv (mkCache (lru_remove (lru c) key) (hotData c) (maxMemory c) (currentMem c) st).
Proof.
  intros (Hnd & Hincl & Hdom & Hpos & Hmem & Hmax & Hle) Hget.
  assert (Hnot : ~ In key (keys (lru c))).
  { intros Hin. apply Hdom in Hin. rewrite Hget in Hin. destruct Hin; discriminate. }
  unfold Inv. cbn [lru hotData maxMemory currentMem].
  rewrite keys_remove, filter_differs_absent by assumption. tauto.
Qed.

(** A hit: the entry moves to the front and its record keeps its size. *)
Lemma Inv_touch c key v entry e' st :
  Inv c -> lru_find (lru c) key = Some v -> hotData c !! key = Some entry ->
  Size e' = Size entry ->
  Inv (mkCache ((key, v) :: lru_remove (lru c) key) (<[key := e']> (hotData c))
               (maxMemory c) (currentMem c) st).
Proof.
  intros (Hnd & Hincl & Hdom & Hpos & Hmem & Hmax & Hle) Hfind Hget Hsame.
  assert (Hin : In key (keys (lru c))) by (eapply lru_find_Some; eassumption).
  assert (Hsize : sizeOf (hotData c) key = Size entry) by (unfold sizeOf; now rewrite Hget).
  assert (Hsizes : forall k, sizeOf (<[key := e']> (hotData c)) k = sizeOf (hotData c) k).
  { intros k. rewrite sizeOf_insert. destruct (String.eqb k key) eqn:Hk; [| reflexivity].
    apply String.eqb_eq in Hk. subst k. congruence. }
  unfold Inv. cbn [lru hotData maxMemory currentMem keys List.map fst].
  fold (keys (lru_remove (lru c) key)). rewrite keys_remove.
  split.
  { constructor; [| now apply NoDup_filter_differs].
    rewrite In_filter_differs. tauto. }
  split.
  { intros k [<- | Hk]; [now apply Hincl |]. apply In_filter_differs in Hk. apply Hincl. tauto. }
  split.
  { intros k. simpl. rewrite In_filter_differs, Hdom.
    destruct (String.string_dec k key) as [-> | Hne].
    - rewrite lookup_insert_eq. split; [eauto | tauto].
    - rewrite lookup_insert_ne by congruence. split; [intros [? | ?]; [congruence | tauto] |].
      intros Hk. right. tauto. }
  split; [intros k; rewrite Hsizes; apply Hpos |].
  split; [| tauto].
  simpl. rewrite Hsizes, (total_ext _ (sizeOf (hotData c))) by (intros; apply Hsizes).
  rewrite total_without by assumption. lia.
Qed.

Lemma Inv_stats c st :
  Inv c -> Inv (mkCache (lru c) (hotData c) (maxMemory c) (currentMem c) st).
Proof. exact (fun H => H). Qed.

Lemma Inv_Get c key now : Inv c -> Inv (fst (Get c key now)).
Proof.
  intros HI. unfold Get, lru_get. destruct (lru_find (lru c) key) as [v|] eqn:Hfind; simpl.
  - assert (Hin : In key (keys (lru c))) by (eapply lru_find_Some; eassumption).
    destruct HI as (Hnd & Hincl & Hdom & Hrest).
    destruct (proj1 (Hdom key) Hin) as [entry Hget].
    unfold updateHotData. cbn [hotData lru maxMemory currentMem stats]. rewrite Hget.
    destruct (_ && _); eapply Inv_touch; try eassumption; try reflexivity;
      unfold Inv; tauto.
  - exact HI.
Qed.

Lemma Inv_Delete c key : Inv c -> Inv (Delete c key).
Proof.
  intros HI. unfold Delete. destruct (hotData c !! key) as [entry|] eqn:Hget.
  - now apply Inv_remove.
  - now apply Inv_remove_absent.
Qed.

Lemma Inv_cleanup now ks : forall c, Inv c -> Inv (cleanup c now ks).
Proof.
  induction ks as [|key rest IH]; intros c HI; simpl; [assumption |].
  destruct (hotData c !! key) as [entry|] eqn:Hget; [| now apply IH].
  destruct (TTL entry <? now - LastAccess entry); [| now apply IH].
  apply IH. now apply Inv_remove.
Qed.

Lemma Inv_Clear c : Inv c -> Inv (Clear c).
Proof.
  intros (_ & _ & _ & _ & _ & Hmax & _). unfold Inv, Clear. simpl.
  split; [constructor |]. split; [intros k [] |].
  split; [intros k; rewrite lookup_empty; split; [intros [] | intros [? ?]; discriminate] |].
  split; [intros k; unfold sizeOf; rewrite lookup_empty; lia |].
  split; [reflexivity | lia].
Qed.

(** One pass of [evictColdData] keeps the books: what leaves the counter
    enters [freed]. *)
Lemma Inv_evictPass cold needed ks : forall c freed,
  Inv c -> 0 <= freed -> currentMem c + freed < 2 ^ 62 ->
  let r := evictPass cold needed ks c freed in
  Inv (fst r) /\ freed <= snd r /\
  currentMem (fst r) + snd r = currentMem c + freed /\
  maxMemory (fst r) = maxMemory c.
Proof.
  induction ks as [|key rest IH]; intros c freed HI Hf Hsum; simpl.
  - split; [exact HI | lia].
  - destruct (needed <=? freed); [simpl; split; [exact HI | lia] |].
    destruct (hotData c !! key) as [entry|] eqn:Hget; [| now apply IH].
    destruct (cold entry); [| now apply IH].
    destruct (Inv_remove c key entry (recordEviction (stats c)) HI Hget) as (HI' & Hw & Hs).
    pose proof (Inv_mem_nonneg _ HI') as Hm'. cbn [currentMem] in Hm'.
    assert (Hfw : wrap64 (freed + Size entry) = freed + Size entry)
      by (apply wrap64_small; lia).
    rewrite Hfw.
    destruct (IH _ (freed + Size entry) HI') as (H1 & H2 & H3 & H4);
      [lia | cbn [currentMem]; lia |].
    cbn [currentMem maxMemory] in H3, H4.
    split; [exact H1 |]. split; [lia |]. split; [lia | exact H4].
Qed.

Lemma Inv_evictColdData c needed now o1 o2 :
  Inv c -> 0 <= needed ->
  let r := evictColdData c needed now o1 o2 in
  Inv (fst r) /\ (snd r = true -> currentMem (fst r) + needed <= maxMemory (fst r)).
Proof.
  intros HI Hn. unfold evictColdData. cbv zeta.
  pose proof HI as (_ & _ & _ & _ & _ & Hmax & Hle).
  pose proof (Inv_mem_nonneg _ HI) as Hm.
  destruct (evictPass _ needed o1 c 0) as [c1 freed1] eqn:H1.
  pose proof (Inv_evictPass (fun e => (AccessCount e <? 2) && (LastAccess e <? now - 5 * Minute))
                needed o1 c 0 HI) as P1.
  rewrite H1 in P1. simpl in P1. destruct P1 as (HI1 & Hf1 & Hs1 & Hm1); [lia | lia |].
  destruct (freed1 <? needed) eqn:Hlt.
  - destruct (evictPass _ needed o2 c1 freed1) as [c2 freed2] eqn:H2.
    pose proof (Inv_evictPass (fun e => LastAccess e <? now - 15 * Minute)
                  needed o2 c1 freed1 HI1) as P2.
    rewrite H2 in P2. simpl in P2. destruct P2 as (HI2 & Hf2 & Hs2 & Hm2); [lia | lia |].
    simpl. split; [assumption |]. intros Hok. apply Z.leb_le in Hok. lia.
  - simpl. split; [assumption |]. intros Hok. apply Z.leb_le in Hok. lia.
Qed.

Lemma Inv_store c key (v : value V) size now :
  Inv c -> In key K -> 0 <= size -> currentMem c + size <= maxMemory c ->
  Inv (store c key v size now).
Proof.
  intros (Hnd & Hincl & Hdom & Hpos & Hmem & Hmax & Hle) HK Hsize Hroom.
  pose proof (total_nonneg (sizeOf (hotData c)) (keys (lru c)) (fun k _ => Hpos k)) as Hm.
  rewrite <- Hmem in Hm.
  set (e' := mkHot 1 now (5 * Minute) size).
  assert (Hsizes : forall k, k <> key -> sizeOf (<[key := e']> (hotData c)) k
                                         = sizeOf (hotData c) k).
  { intros k Hk. rewrite sizeOf_insert. apply String.eqb_neq in Hk. now rewrite Hk. }
  assert (Hnew : sizeOf (<[key := e']> (hotData c)) key = size).
  { rewrite sizeOf_insert, String.eqb_refl. reflexivity. }
  assert (Hpos' : forall k, 0 <= sizeOf (<[key := e']> (hotData c)) k).
  { intros k. destruct (String.string_dec k key) as [-> | Hne];
      [rewrite Hnew; lia | rewrite Hsizes by assumption; apply Hpos]. }
  unfold store, lru_add. fold e'.
  destruct (lru_find (lru c) key) as [old|] eqn:Hfind.
  - assert (Hin : In key (keys (lru c))) by (eapply lru_find_Some; eassumption).
    destruct (proj1 (Hdom key) Hin) as [entry Hget]. rewrite Hget.
    assert (Hold : sizeOf (hotData c) key = Size entry) by (unfold sizeOf; now rewrite Hget).
    assert (Hrest : total (sizeOf (hotData c)) (List.filter (differs key) (keys (lru c)))
                    = currentMem c - Size entry).
    { rewrite total_without by assumption. lia. }
    assert (Hrest0 : 0 <= total (sizeOf (hotData c))
                            (List.filter (differs key) (keys (lru c))))
      by (apply total_nonneg; auto).
    assert (Hs0 : 0 <= Size entry) by (rewrite <- Hold; apply Hpos).
    rewrite (wrap64_small (currentMem c - Size entry)) by lia.
    rewrite wrap64_small by lia.
    unfold Inv. cbn [lru hotData maxMemory currentMem keys List.map fst].
    fold (keys (lru_remove (lru c) key)). rewrite keys_remove.
    split.
    { constructor; [| now apply NoDup_filter_differs]. rewrite In_filter_differs. tauto. }
    split.
    { intros k [<- | Hk]; [assumption |]. apply In_filter_differs in Hk. apply Hincl. tauto. }
    split.
    { intros k. simpl. rewrite In_filter_differs, Hdom.
      destruct (String.string_dec k key) as [-> | Hne].
      - rewrite lookup_insert_eq. split; [eauto | tauto].
      - rewrite lookup_insert_ne by congruence. split; [intros [? | ?]; [congruence | tauto] |].
        intros Hk. right. tauto. }
    split; [exact Hpos' |].
    split; [| lia].
    simpl. rewrite Hnew.
    rewrite (total_without_ext _ (sizeOf (hotData c))) by assumption. lia.
  - assert (Hnot : ~ In key (keys (lru c))) by (now apply lru_find_None).
    rewrite wrap64_small by lia.
    assert (Hnd' : List.NoDup (key :: keys (lru c))) by (now constructor).
    assert (Hincl' : incl (key :: keys (lru c)) K).
    { intros k [<- | Hk]; [assumption | now apply Hincl]. }
    assert (Hlen : (lruSize <? length ((key, v) :: lru c))%nat = false).
    { apply Nat.ltb_ge. pose proof (List.NoDup_incl_length Hnd' Hincl') as Hl.
      unfold keys in Hl. simpl in Hl. rewrite length_map in Hl. simpl. lia. }
    cbv zeta. rewrite Hlen.
    unfold Inv. cbn [lru hotData maxMemory currentMem keys List.map fst].
    fold (keys (lru c)).
    split; [assumption |]. split; [assumption |].
    split.
    { intros k. simpl. rewrite Hdom.
      destruct (String.string_dec k key) as [-> | Hne].
      - rewrite lookup_insert_eq. split; [eauto | tauto].
      - rewrite lookup_insert_ne by congruence. split; [intros [? | ?]; [congruence | tauto] |].
        tauto. }
    split; [exact Hpos' |].
    split; [| lia].
    simpl. rewrite Hnew.
    rewrite (total_ext _ (sizeOf (hotData c))); [lia |].
    intros k Hk. apply Hsizes. intros ->. contradiction.
Qed.

Lemma Inv_Set c key (v : value V) size now o1 o2 :
  Inv c -> In key K -> 0 <= size <= 2 ^ 62 ->
  Inv (fst (Set_ c key v size now o1 o2)).
Proof.
  intros HI HK Hsize. unfold Set_.
  pose proof HI as (_ & _ & _ & _ & _ & Hmax & Hle).
  pose proof (Inv_mem_nonneg _ HI) as Hm.
  rewrite wrap64_small by lia.
  destruct (maxMemory c <? currentMem c + size) eqn:Hfull.
  - pose proof (Inv_evictColdData c size now o1 o2 HI (proj1 Hsize)) as P. cbv zeta in P.
    destruct (evictColdData c size now o1 o2) as [c1 ok]. simpl in P.
    destruct P as [HI1 Hroom]. destruct ok; simpl; [| assumption].
    apply Inv_store; [assumption | assumption | lia | now apply Hroom].
  - simpl. apply Z.ltb_ge in Hfull. apply Inv_store; [assumption | assumption | lia | lia].
Qed.

(** The operations covered: a [Set] takes its key from [K] and a size between
    0 and [2^62]. *)
Definition opFits (o : op V) : Prop :=
  match o with
  | OpSet key _ size _ _ => In key K /\ 0 <= size <= 2 ^ 62
  | _ => True
  end.

Lemma Inv_step now c o : Inv c -> opFits o -> Inv (step now c o).
Proof.
  intros HI Ho. destruct o as [key v size o1 o2 | key | key | ks |]; simpl.
  - destruct Ho. now apply Inv_Set.
  - now apply Inv_Get.
  - now apply Inv_Delete.
  - now apply Inv_cleanup.
  - now apply Inv_Clear.
Qed.

Lemma Inv_runAt trace : forall c,
  Inv c -> Forall (fun e => opFits (snd e)) trace -> Inv (runAt c trace).
Proof.
  induction trace as [|[now o] trace IH]; intros c HI Hall; simpl; [assumption |].
  inversion Hall; subst. apply IH; [| assumption]. now apply Inv_step.
Qed.

Lemma Inv_New maxMemoryMB :
  0 <= maxMemoryMB < 2 ^ 42 -> Inv (NewSmartCache maxMemoryMB).
Proof.
  intros Hmb. unfold Inv, NewSmartCache. simpl.
  rewrite (wrap64_small (maxMemoryMB * 1024)) by lia. rewrite wrap64_small by lia.
  split; [constructor |]. split; [intros k [] |].
  split; [intros k; rewrite lookup_empty; split; [intros [] | intros [? ?]; discriminate] |].
  split; [intros k; unfold sizeOf; rewrite lookup_empty; lia |].
  split; [reflexivity | lia].
Qed.

End Accounting.

(** X1.  Within the LRU capacity the books balance: after any trace whose [Set]
    operations draw their keys from at most [lruSize] keys, with sizes between
    0 and [2^62], on a cache of less than [2^42] MB, [GetMemoryUsage] reports
    the sum of the sizes of the live entries, and that sum is at most the
    limit. *)
Theorem memory_counter_exact_within_lru_capacity :
  forall (V : Type) (K : list string) (maxMemoryMB : Z) (trace : list (Z * op V)),
    (length K <= lruSize)%nat ->
    0 <= maxMemoryMB < 2 ^ 42 ->
    Forall (fun e => opFits K (snd e)) trace ->
    let c := runAt (NewSmartCache maxMemoryMB) trace in
    fst (GetMemoryUsage c) = liveBytes c /\
    liveBytes c <= snd (GetMemoryUsage c).
Proof.
  intros V K mb trace HK Hmb Hall c.
  assert (HI : Inv K c) by (apply Inv_runAt; [assumption | now apply Inv_New | assumption]).
  destruct HI as (_ & _ & _ & _ & Hmem & _ & Hle).
  unfold GetMemoryUsage. simpl. rewrite liveBytes_total. lia.
Qed.

Definition sampleTrace : list (Z * op unit) :=
  [(0, OpSet "a" (Plain tt) 10 [] []);
   (1 * Second, OpGet "a");
   (2 * Second, OpSet "b" (Plain tt) 1048570 ["a"; "b"] ["b"; "a"]);
   (3 * Second, OpSet "a" (Plain tt) 7 ["b"; "a"] ["a"; "b"]);
   (1000 * Second, OpCleanup ["b"; "a"]);
   (1001 * Second, OpSet "b" (Plain tt) 5 [] []);
   (1002 * Second, OpDelete "a")].

Lemma memory_counter_exact_within_lru_capacity_witness :
  let c := runAt (NewSmartCache 1) sampleTrace in
  fst (GetMemoryUsage c) = liveBytes c /\ liveBytes c <= snd (GetMemoryUsage c).
Proof.
  apply (memory_counter_exact_within_lru_capacity unit ["a"; "b"] 1 sampleTrace).
  - unfold lruSize. simpl. lia.
  - lia.
  - unfold sampleTrace. repeat constructor; simpl; auto; lia.
Defined.

(** *** Lookups, refusals and the sweeper *)

Section Lookups.
Context {V : Type}.
Implicit Types (l : lru_t V) (c : SmartCache V).

Lemma lru_find_remove_eq l k : lru_find (lru_remove l k) k = None.
Proof.
  unfold lru_remove. induction l as [|[k' v] l IH]; simpl; [reflexivity |].
  destruct (String.eqb k' k) eqn:Hk; simpl; [assumption |]. now rewrite Hk.
Qed.

Lemma lru_find_remove_ne l k k' : k' <> k -> lru_find (lru_remove l k) k' = lru_find l k'.
Proof.
  intros Hne. unfold lru_remove. induction l as [|[k0 v] l IH]; simpl; [reflexivity |].
  destruct (String.eqb k0 k) eqn:Hk; simpl.
  - apply String.eqb_eq in Hk. subst k0.
    destruct (String.eqb k k') eqn:Hk'; [apply String.eqb_eq in Hk'; congruence | assumption].
  - destruct (String.eqb k0 k'); [reflexivity | assumption].
Qed.

Lemma lru_Delete c key : lru (Delete c key) = lru_remove (lru c) key.
Proof. unfold Delete. now destruct (hotData c !! key). Qed.

Lemma lru_updateHotData c key isHit now : lru (updateHotData c key isHit now) = lru c.
Proof.
  unfold updateHotData. destruct (hotData c !! key); [destruct (_ && _) | destruct isHit];
    reflexivity.
Qed.

Lemma Get_miss c key now : lru_find (lru c) key = None -> snd (Get c key now) = None.
Proof. intros Hf. unfold Get, lru_get. now rewrite Hf. Qed.

Lemma lru_Get_same c key now :
  lru_find (lru (fst (Get c key now))) key = lru_find (lru c) key.
Proof.
  unfold Get, lru_get. destruct (lru_find (lru c) key) as [v|] eqn:Hf; simpl.
  - rewrite lru_updateHotData. simpl. now rewrite String.eqb_refl.
  - assumption.
Qed.

End Lookups.


(** X6.  After [Delete] the key misses, for [Get] and for
    [GetWithValidation], and every other key answers as before. *)
Theorem Delete_removes_exactly_its_key :
  forall (V : Type) (c : SmartCache V) (key : string) (now : Z),
    snd (Get (Delete c key) key now) = None /\
    snd (GetWithValidation (Delete c key) key "" now) = None /\
    forall other : string,
      other <> key ->
      snd (Get (Delete c key) other now) = snd (Get c other now).
Proof.
  intros V c key now.
  assert (Hgone : lru_find (lru (Delete c key)) key = None)
    by (rewrite lru_Delete; apply lru_find_remove_eq).
  split; [now apply Get_miss |]. split.
  - unfold GetWithValidation, Get, lru_get. now rewrite Hgone.
  - intros other Hne. unfold Get, lru_get.
    rewrite lru_Delete, lru_find_remove_ne by assumption.
    now destruct (lru_find (lru c) other).
Qed.

Section Refusal.
Context {V : Type} (K : list string) (K_fits : (length K <= lruSize)%nat).
Implicit Types (c : SmartCache V).

Lemma evictPass_maxMemory cold needed ks : forall c freed,
  maxMemory (fst (evictPass cold needed ks c freed)) = maxMemory c.
Proof.
  induction ks as [|key rest IH]; intros c freed; simpl; [reflexivity |].
  destruct (needed <=? freed); [reflexivity |].
  destruct (hotData c !! key) as [entry|]; [| apply IH].
  destruct (cold entry); [| apply IH]. rewrite IH. reflexivity.
Qed.

Lemma evictColdData_maxMemory c needed now o1 o2 :
  maxMemory (fst (evictColdData c needed now o1 o2)) = maxMemory c.
Proof.
  unfold evictColdData. cbv zeta.
  destruct (evictPass _ needed o1 c 0) as [c1 freed1] eqn:H1.
  assert (M1 : maxMemory c1 = maxMemory c).
  { change c1 with (fst (c1, freed1)). rewrite <- H1. apply evictPass_maxMemory. }
  destruct (freed1 <? needed); [| assumption].
  destruct (evictPass _ needed o2 c1 freed1) as [c2 freed2] eqn:H2.
  simpl. rewrite <- M1. change c2 with (fst (c2, freed2)). rewrite <- H2.
  apply evictPass_maxMemory.
Qed.

Lemma Set_refused c key (v : value V) size now o1 o2 :
  Inv K c -> maxMemory c < size <= 2 ^ 62 ->
  snd (Set_ c key v size now o1 o2) = false /\ Inv K (fst (Set_ c key v size now o1 o2)).
Proof.
  intros HI Hsize. unfold Set_.
  pose proof HI as (_ & _ & _ & _ & _ & Hmax & Hle).
  pose proof (Inv_mem_nonneg _ _ HI) as Hm.
  rewrite wrap64_small by lia.
  assert (Hfull : (maxMemory c <? currentMem c + size) = true) by (apply Z.ltb_lt; lia).
  rewrite Hfull.
  pose proof (Inv_evictColdData K K_fits c size now o1 o2 HI) as P. cbv zeta in P.
  pose proof (evictColdData_maxMemory c size now o1 o2) as HM.
  destruct (evictColdData c size now o1 o2) as [c1 ok]. simpl in P, HM.
  destruct P as [HI1 Hroom]; [lia |].
  destruct ok; simpl; [| split; [reflexivity | assumption]].
  exfalso. specialize (Hroom eq_refl). pose proof (Inv_mem_nonneg _ _ HI1). lia.
Qed.

End Refusal.

(** X7.  An entry larger than the whole limit is refused: [Set] returns
    false, and the books still balance on the cache it leaves (which may have
    lost cold entries to the attempt). *)
Theorem Set_refuses_oversized_entry :
  forall (V : Type) (K : list string) (maxMemoryMB : Z) (trace : list (Z * op V))
         (key : string) (v : value V) (size now : Z) (order1 order2 : list string),
    (length K <= lruSize)%nat ->
    0 <= maxMemoryMB < 2 ^ 42 ->
    Forall (fun e => opFits K (snd e)) trace ->
    let c := runAt (NewSmartCache maxMemoryMB) trace in
    snd (GetMemoryUsage c) < size <= 2 ^ 62 ->
    let r := Set_ c key v size now order1 order2 in
    snd r = false /\
    fst (GetMemoryUsage (fst r)) = liveBytes (fst r) /\
    liveBytes (fst r) <= snd (GetMemoryUsage (fst r)).
Proof.
  intros V K mb trace key v size now o1 o2 HK Hmb Hall c Hsize r.
  assert (HI : Inv K c) by (apply Inv_runAt; [assumption | now apply Inv_New | assumption]).
  destruct (Set_refused K HK c key v size now o1 o2 HI Hsize) as [Hno HI'].
  split; [exact Hno |].
  destruct HI' as (_ & _ & _ & _ & Hmem & _ & Hle).
  unfold GetMemoryUsage. simpl. rewrite liveBytes_total. fold r in Hmem, Hle. lia.
Qed.

(** X8.  An entry stored with [SetWithMetadata] is validated on the way out:
    past its expiry, or under a non-empty expected checksum that differs from
    its own, the call misses and the entry is deleted; otherwise the call
    returns the value inside the entry and the entry stays. *)
Theorem GetWithValidation_after_SetWithMetadata :
  forall (V : Type) (c c' : SmartCache V) (key : string) (entry : CacheEntry V)
         (now : Z) (order1 order2 : list string) (expectedChecksum : string) (later : Z),
    SetWithMetadata c key entry now order1 order2 = (c', true) ->
    let r := GetWithValidation c' key expectedChecksum later in
    (ExpiresAt entry < later ->
       snd r = None /\ lru_find (lru (fst r)) key = None) /\
    (later <= ExpiresAt entry -> expectedChecksum <> "" ->
     Checksum entry <> expectedChecksum ->
       snd r = None /\ lru_find (lru (fst r)) key = None) /\
    (later <= ExpiresAt entry ->
     expectedChecksum = "" \/ Checksum entry = expectedChecksum ->
       snd r = Some (Value entry) /\ lru_find (lru (fst r)) key = Some (EntryRef entry)).
Proof.
  intros V c c' key entry now o1 o2 expected later HSet r.
  assert (Hheld : lru_find (lru c') key = Some (EntryRef entry))
    by (eapply Set_true_holds; exact HSet).
  assert (Hdeleted : forall c1 : SmartCache V, lru_find (lru (Delete c1 key)) key = None)
    by (intros c1; rewrite lru_Delete; apply lru_find_remove_eq).
  pose proof (lru_Get_same c' key later) as Hsame. rewrite Hheld in Hsame.
  subst r. unfold GetWithValidation.
  destruct (Get c' key later) as [c1 got] eqn:HGet.
  assert (Hgot : got = Some (EntryRef entry)).
  { pose proof (Get_found c' key later _ Hheld) as Hf. now rewrite HGet in Hf. }
  subst got. simpl in Hsame.
  repeat split.
  - destruct (ExpiresAt entry <? later) eqn:Hexp; [reflexivity | apply Z.ltb_ge in Hexp; lia].
  - destruct (ExpiresAt entry <? later) eqn:Hexp; [apply Hdeleted | apply Z.ltb_ge in Hexp; lia].
  - apply Z.ltb_ge in H. rewrite H.
    apply String.eqb_neq in H0, H1. now rewrite H0, H1.
  - apply Z.ltb_ge in H. rewrite H.
    apply String.eqb_neq in H0, H1. rewrite H0, H1. apply Hdeleted.
  - apply Z.ltb_ge in H. rewrite H. destruct H0 as [-> | <-].
    + reflexivity.
    + rewrite String.eqb_refl, andb_false_r. reflexivity.
  - apply Z.ltb_ge in H. rewrite H. destruct H0 as [-> | <-].
    + exact Hsame.
    + rewrite String.eqb_refl, andb_false_r. exact Hsame.
Qed.

Section Sweep.
Context {V : Type}.
Implicit Types (c : SmartCache V).

(** The sweeper's test. *)
Definition expired (now : Z) (e : HotEntry) : bool := TTL e <? now - LastAccess e.

Lemma cleanup_hotData now keys : forall c k e,
  hotData (cleanup c now keys) !! k = Some e <->
  hotData c !! k = Some e /\ (In k keys -> expired now e = false).
Proof.
  induction keys as [|key rest IH]; intros c k e; simpl.
  - tauto.
  - destruct (hotData c !! key) as [entry|] eqn:Hget.
    + fold (expired now entry). destruct (expired now entry) eqn:Hexp.
      * rewrite IH. cbn [hotData].
        destruct (String.string_dec k key) as [-> | Hne].
        -- rewrite lookup_delete_eq, Hget. split; [intros [? _]; discriminate |].
           intros [Heq Hkeep]. inversion Heq; subst e.
           rewrite Hkeep in Hexp by now left. discriminate.
        -- rewrite lookup_delete_ne by congruence. split; intros [? Hk]; (split; [assumption |]).
           ++ intros [? | ?]; [congruence | auto].
           ++ auto.
      * rewrite IH. split; intros [Hk Hkeep]; (split; [assumption |]).
        -- intros [<- | ?]; [| auto]. rewrite Hget in Hk. now inversion Hk; subst.
        -- auto.
    + rewrite IH. split; intros [Hk Hkeep]; (split; [assumption |]).
      * intros [<- | ?]; [| auto]. rewrite Hget in Hk. discriminate.
      * auto.
Qed.

Lemma cleanup_lru_gone now keys : forall c k,
  lru_find (lru c) k = None -> lru_find (lru (cleanup c now keys)) k = None.
Proof.
  induction keys as [|key rest IH]; intros c k Hnone; simpl; [assumption |].
  destruct (hotData c !! key) as [entry|]; [| now apply IH].
  destruct (TTL entry <? now - LastAccess entry); [| now apply IH].
  apply IH. cbn [lru].
  destruct (String.string_dec k key) as [-> | Hne];
    [apply lru_find_remove_eq | now rewrite lru_find_remove_ne].
Qed.

Lemma cleanup_lru_removed now keys : forall c k e,
  hotData c !! k = Some e -> In k keys -> expired now e = true ->
  lru_find (lru (cleanup c now keys)) k = None.
Proof.
  induction keys as [|key rest IH]; intros c k e Hk Hin Hexp; simpl; [contradiction |].
  destruct (String.string_dec k key) as [-> | Hne].
  - rewrite Hk. unfold expired in Hexp. rewrite Hexp.
    apply cleanup_lru_gone. cbn [lru]. apply lru_find_remove_eq.
  - destruct Hin as [? | Hin]; [congruence |].
    destruct (hotData c !! key) as [entry|] eqn:Hget; [| eapply IH; eassumption].
    destruct (TTL entry <? now - LastAccess entry); [| eapply IH; eassumption].
    eapply IH; [| eassumption | eassumption]. cbn [hotData].
    rewrite lookup_delete_ne by congruence. assumption.
Qed.

Lemma cleanup_lru_kept now keys : forall c k,
  (forall e, hotData c !! k = Some e -> expired now e = false) ->
  lru_find (lru (cleanup c now keys)) k = lru_find (lru c) k.
Proof.
  induction keys as [|key rest IH]; intros c k Hkeep; simpl; [reflexivity |].
  destruct (hotData c !! key) as [entry|] eqn:Hget; [| now apply IH].
  fold (expired now entry). destruct (expired now entry) eqn:Hexp; [| now apply IH].
  assert (Hne : k <> key).
  { intros ->. rewrite (Hkeep entry Hget) in Hexp. discriminate. }
  rewrite IH; cbn [lru hotData].
  - now apply lru_find_remove_ne.
  - intros e. rewrite lookup_delete_ne by congruence. apply Hkeep.
Qed.

End Sweep.

(** X9.  The sweeper removes a visited entry exactly when more than its TTL
    has passed since its last access: such a key is gone from the hot table
    and misses; any other visited key keeps its record and answers as
    before. *)
Theorem cleanup_removes_exactly_the_expired :
  forall (V : Type) (c : SmartCache V) (now : Z) (keys : list string) (k : string)
         (e : HotEntry),
    hotData c !! k = Some e -> In k keys ->
    (TTL e < now - LastAccess e ->
       hotData (cleanup c now keys) !! k = None /\
       snd (Get (cleanup c now keys) k now) = None) /\
    (now - LastAccess e <= TTL e ->
       hotData (cleanup c now keys) !! k = Some e /\
       snd (Get (cleanup c now keys) k now) = snd (Get c k now)).
Proof.
  intros V c now keys k e Hk Hin. split.
  - intros Hold. assert (Hexp : expired now e = true) by (apply Z.ltb_lt; exact Hold).
    split.
    + destruct (hotData (cleanup c now keys) !! k) as [e'|] eqn:Hafter; [| reflexivity].
      apply cleanup_hotData in Hafter. destruct Hafter as [Heq Hkeep].
      rewrite Hk in Heq. inversion Heq; subst e'. rewrite Hkeep in Hexp by assumption.
      discriminate.
    + apply Get_miss. eapply cleanup_lru_removed; eassumption.
  - intros Hfresh. assert (Hexp : expired now e = false) by (apply Z.ltb_ge; exact Hfresh).
    split.
    + apply cleanup_hotData. split; [assumption | intros _; assumption].
    + unfold Get, lru_get. rewrite cleanup_lru_kept.
      * now destruct (lru_find (lru c) k).
      * intros e' He'. rewrite Hk in He'. now inversion He'; subst.
Qed.

Definition sampleEntry : CacheEntry Z :=
  mkCacheEntry (Plain 42) 64 0 (3600 * Second) "9f86d081".


Lemma Set_refuses_oversized_entry_witness :
  let r := Set_ (runAt (NewSmartCache 1) sampleTrace) "a" (Plain tt) 2000000
                (2000 * Second) ["a"; "b"] ["a"; "b"] in
  snd r = false /\
  fst (GetMemoryUsage (fst r)) = liveBytes (fst r) /\
  liveBytes (fst r) <= snd (GetMemoryUsage (fst r)).
Proof.
  apply (Set_refuses_oversized_entry unit ["a"; "b"] 1 sampleTrace).
  - unfold lruSize. simpl. lia.
  - lia.
  - unfold sampleTrace. repeat constructor; simpl; auto; lia.
  - vm_compute. split; [reflexivity | discriminate].
Defined.

Lemma GetWithValidation_after_SetWithMetadata_witness :
  let c' := fst (SetWithMetadata (NewSmartCache 100) "nav_abc" sampleEntry 0 [] []) in
  snd (GetWithValidation c' "nav_abc" "9f86d081" (60 * Second)) = Some (Plain 42) /\
  snd (GetWithValidation c' "nav_abc" "0000" (60 * Second)) = None /\
  snd (GetWithValidation c' "nav_abc" "9f86d081" (3601 * Second)) = None.
Proof.
  pose proof (fun expected later =>
    GetWithValidation_after_SetWithMetadata Z (NewSmartCache 100) _ "nav_abc" sampleEntry
      0 [] [] expected later eq_refl) as Hspec.
  cbv zeta in Hspec. cbv zeta. split; [| split].
  - destruct (Hspec "9f86d081" (60 * Second)) as (_ & _ & Hhit).
    apply Hhit; [vm_compute; discriminate | now right].
  - destruct (Hspec "0000" (60 * Second)) as (_ & Hstale & _).
    apply Hstale; [vm_compute; discriminate | discriminate | discriminate].
  - destruct (Hspec "9f86d081" (3601 * Second)) as (Hold & _).
    apply Hold. reflexivity.
Defined.

(** A cache whose entry [a] was last read 6 minutes ago and whose entry [b]
    was read 4 minutes ago. *)
Definition agedCache : SmartCache unit :=
  runAt (NewSmartCache 1)
        [(0, OpSet "a" (Plain tt) 10 [] []); (120 * Second, OpSet "b" (Plain tt) 20 [] [])].

Lemma cleanup_removes_exactly_the_expired_witness :
  hotData (cleanup agedCache (360 * Second + 1) ["a"; "b"]) !! "a" = None /\
  snd (Get (cleanup agedCache (360 * Second + 1) ["a"; "b"]) "b" (360 * Second + 1))
  = snd (Get agedCache "b" (360 * Second + 1)).
Proof.
  split.
  - apply (cleanup_removes_exactly_the_expired unit agedCache (360 * Second + 1) ["a"; "b"]
             "a" (mkHot 1 0 (5 * Minute) 10)); [reflexivity | now left | reflexivity].
  - apply (cleanup_removes_exactly_the_expired unit agedCache (360 * Second + 1) ["a"; "b"]
             "b" (mkHot 1 (120 * Second) (5 * Minute) 20));
      [reflexivity | right; now left | vm_compute; discriminate].
Defined.

End CacheFacts.

(** ** Values of dynamic type, float64 conversions, outcomes *)

(** What the response pipeline sees behind an [interface{}]: the three
    dynamic types the truncation switches on, and three scalar types that
    take its [default] branch.  A Go map is kept as the list of its entries
    in the order a [range] visits them (keys are distinct); nil and empty
    slices are not told apart. *)
#[warnings="-register-all"]
Inductive data :=
| DNil
| DBool (b : bool)
| DInt (n : Z)
| DString (s : string)
| DSlice (items : list data)
| DMap (fields : list (string * data)).

Definition gomap := list (string * data).

Fixpoint mapGet (r : gomap) (k : string) : option data :=
  match r with
  | [] => None
  | (k', v') :: r' => if String.eqb k' k then Some v' else mapGet r' k
  end.

(** [r[k] = v] *)
Fixpoint mapSet (r : gomap) (k : string) (v : data) : gomap :=
  match r with
  | [] => [(k, v)]
  | (k', v') :: r' =>
      if String.eqb k' k then (k, v) :: r' else (k', v') :: mapSet r' k v
  end.

Definition len {A} (l : list A) : Z := Z.of_nat (length l).

(** [float64(n)] for an [int] (round to nearest even, as the hardware does). *)
Definition float64_of_int (z : Z) : float :=
  if 0 <=? z then PrimFloat.of_uint63 (Uint63.of_Z z)
  else if z =? - 2 ^ 63 then PrimFloat.opp (PrimFloat.ldshiftexp 1%float (63 + 2101)%uint63)
  else PrimFloat.opp (PrimFloat.of_uint63 (Uint63.of_Z (- z))).

(** [int(f)]: the fraction is discarded; what does not fit an [int64] (and
    NaN) gives the amd64 "integer indefinite" value. *)
Definition int_of_float64 (f : float) : Z :=
  match FloatOps.Prim2SF f with
  | SpecFloat.S754_zero _ => 0
  | SpecFloat.S754_finite s m e =>
      let mag := if 0 <=? e then Z.pos m * 2 ^ e else Z.pos m / 2 ^ (- e) in
      let z := if s then - mag else mag in
      if (- 2 ^ 63 <=? z) && (z <? 2 ^ 63) then z else - 2 ^ 63
  | _ => - 2 ^ 63
  end.

(** A call either returns or panics. *)
Inductive outcome (A : Type) :=
| Done (a : A)
| Panic.
Arguments Done {A} a.
Arguments Panic {A}.

(** A Go [(T, error)] pair. *)
Inductive result (A : Type) :=
| Ok (a : A)
| Err (msg : string).
Arguments Ok {A} a.
Arguments Err {A} msg.

(** ** Token counter and compression manager
    (internal/token/counter.go, internal/compression/manager.go) *)

Module Compression.

(** The libraries the two packages call: [fmt.Sprintf] for the memo key,
    [encoding/json] followed by the BPE encoder for counting, and the three
    encoders of the response body.  [None] is a returned error. *)
Record Env := mkEnv {
  fmtKey : data -> string;           (* fmt.Sprintf("%T_%v", data, data) *)
  jsonTokens : data -> option Z;     (* len(Encode(json.Marshal(data))) *)
  textTokens : string -> Z;          (* len(Encode(text)) *)
  jsonMarshal : data -> option string;
  compressGzip : data -> option string;
  compressBrotli : data -> Z -> option string
}.

(** The counter's memo table ([sync.Map]), threaded through every call. *)
Definition Memo := gmap string Z.
Definition M (A : Type) : Type := Memo -> outcome (A * Memo).

Definition ret {A} (a : A) : M A := fun m => Done (a, m).
Definition bind {A B} (x : M A) (f : A -> M B) : M B :=
  fun m => match x m with
           | Done (a, m') => f a m'
           | Panic => Panic
           end.
Definition panic {A} : M A := fun _ => Panic.

Notation "x <- c1 ;; c2" := (bind c1 (fun x => c2))
  (at level 100, c1 at next level, right associativity).

(** What a call returned, the memo table dropped. *)
Definition answer {A} (o : outcome (A * Memo)) : option A :=
  match o with
  | Done (a, _) => Some a
  | Panic => None
  end.

Section WithEnv.
Context (E : Env).

Definition Count (d : data) : M (option Z) := fun m =>
  let key := fmtKey E d in
  match m !! key with
  | Some n => Done (Some n, m)
  | None =>
      match jsonTokens E d with
      | Some n => Done (Some n, <[key := n]> m)
      | None => Done (None, m)
      end
  end.

Definition CountString (text : string) : M Z := fun m =>
  match m !! text with
  | Some n => Done (n, m)
  | None => let n := textTokens E text in Done (n, <[text := n]> m)
  end.

(** [bytes.LastIndexByte(s, ' ')], -1 when there is none. *)
Fixpoint lastSpace (s : string) (i : Z) (found : Z) : Z :=
  match s with
  | EmptyString => found
  | String a s' => lastSpace s' (i + 1) (if Ascii.eqb a (Ascii.ascii_of_nat 32) then i else found)
  end.

Definition truncateString (s : string) (targetTokens : Z) : M string :=
  tokens <- CountString s ;;
  if tokens <=? targetTokens then ret s
  else
    let targetLength := wrap64 (targetTokens * 4) in
    if Z.of_nat (String.length s) <=? targetLength then ret s
    else if targetLength <? 0 then panic        (* data[:targetLength] out of range *)
    else
      let truncated := String.substring 0 (Z.to_nat targetLength) s in
      let sp := lastSpace truncated 0 (-1) in
      let truncated := if Z.quot targetLength 2 <? sp
                       then String.substring 0 (Z.to_nat sp) truncated
                       else truncated in
      ret (truncated +:+ "... [truncated]").

Definition priorityFields : list string := ["metadata"; "summary"; "index"; "pagination"].

(** First loop of [truncateMap]: [result] and [currentTokens] are threaded. *)
Fixpoint priorityLoop (data : gomap) (fields : list string) (targetTokens : Z)
    (result : gomap) (currentTokens : Z) : M (gomap * Z) :=
  match fields with
  | [] => ret (result, currentTokens)
  | field :: rest =>
      match mapGet data field with
      | Some value =>
          r <- Count value ;;
          match r with
          | Some fieldTokens =>
              if wrap64 (currentTokens + fieldTokens) <=? targetTokens
              then priorityLoop data rest targetTokens (mapSet result field value)
                     (wrap64 (currentTokens + fieldTokens))
              else priorityLoop data rest targetTokens result currentTokens
          | None => priorityLoop data rest targetTokens result currentTokens
          end
      | None => priorityLoop data rest targetTokens result currentTokens
      end
  end.

(** Second loop of [truncateMap], over the fields in [range] order; [rec] is
    [truncateData].  The field that overflows is truncated and ends the loop.
    (The source also adds that field's count to [currentTokens] right before
    [break]; the variable is not read again, so the total returned here is
    that of the fields copied whole.) *)
Fixpoint remainingLoop (rec : data -> Z -> M data) (fields : gomap) (targetTokens : Z)
    (result : gomap) (currentTokens : Z) : M (gomap * Z) :=
  match fields with
  | [] => ret (result, currentTokens)
  | (key, value) :: rest =>
      match mapGet result key with
      | Some _ => remainingLoop rec rest targetTokens result currentTokens
      | None =>
          r <- Count value ;;
          match r with
          | None => remainingLoop rec rest targetTokens result currentTokens
          | Some fieldTokens =>
              if wrap64 (currentTokens + fieldTokens) <=? targetTokens
              then remainingLoop rec rest targetTokens (mapSet result key value)
                     (wrap64 (currentTokens + fieldTokens))
              else
                truncatedValue <- rec value (wrap64 (targetTokens - currentTokens)) ;;
                r' <- Count truncatedValue ;;
                match r' with
                | Some truncatedTokens =>
                    if 0 <? truncatedTokens
                    then ret (mapSet result key truncatedValue, currentTokens)
                    else ret (result, currentTokens)
                | None => ret (result, currentTokens)
                end
          end
      end
  end.

(** The two loops of [truncateMap]. *)
Definition truncateMapFields (rec : data -> Z -> M data) (data : gomap) (targetTokens : Z)
  : M (gomap * Z) :=
  p <- priorityLoop data priorityFields targetTokens [] 0 ;;
  remainingLoop rec data targetTokens (fst p) (snd p).

Definition addMarkers (data result : gomap) : gomap :=
  let result := mapSet result "_truncated" (DBool true) in
  let result := mapSet result "_original_size" (DInt (len data)) in
  mapSet result "_included_fields" (DInt (wrap64 (len result - 2))).

Definition truncateMapWith (rec : data -> Z -> M data) (data : gomap) (targetTokens : Z)
  : M gomap :=
  p <- truncateMapFields rec data targetTokens ;;
  ret (addMarkers data (fst p)).

(** The loop of [truncateSlice]; [i] is the index of the head of [items] and
    [n] is [len(data)]. *)
Fixpoint sliceLoop (rec : data -> Z -> M data) (items : list data) (i n targetTokens : Z)
    (result : list data) (currentTokens : Z) : M (list data) :=
  match items with
  | [] => ret result
  | item :: rest =>
      r <- Count item ;;
      match r with
      | None => sliceLoop rec rest (i + 1) n targetTokens result currentTokens
      | Some itemTokens =>
          if wrap64 (currentTokens + itemTokens) <=? targetTokens
          then sliceLoop rec rest (i + 1) n targetTokens (result ++ [item])
                 (wrap64 (currentTokens + itemTokens))
          else
            truncatedItem <- rec item (wrap64 (targetTokens - currentTokens)) ;;
            r' <- Count truncatedItem ;;
            let result :=
              match r' with
              | Some truncatedTokens =>
                  if 0 <? truncatedTokens then result ++ [truncatedItem] else result
              | None => result
              end in
            ret (if i <? n - 1
                 then result ++ [DMap [("_truncated_items", DInt (n - i - 1));
                                       ("_total_items", DInt n)]]
                 else result)
      end
  end.

Definition truncateSliceWith (rec : data -> Z -> M data) (items : list data) (targetTokens : Z)
  : M (list data) :=
  sliceLoop rec items 0 (len items) targetTokens [] 0.

Fixpoint truncateData (d : data) (targetTokens : Z) {struct d} : M data :=
  match d with
  | DMap v => r <- truncateMapWith truncateData v targetTokens ;; ret (DMap r)
  | DSlice v => r <- truncateSliceWith truncateData v targetTokens ;; ret (DSlice r)
  | DString v => r <- truncateString v targetTokens ;; ret (DString r)
  | _ => ret d
  end.


(** The response body and the method name, or the error. *)
Definition encoded (method : string) (body : option string) (what : string)
  : result (string * string) :=
  match body with
  | Some b => Ok (b, method)
  | None => Err what
  end.

#[warnings="-inexact-float"]
Definition OptimizeResponse (d : data) (limit : Z) : M (result (string * string)) :=
  r <- Count d ;;
  match r with
  | None => ret (Err "failed to count tokens")
  | Some tokens =>
      let ratio := PrimFloat.div (float64_of_int tokens) (float64_of_int limit) in
      if PrimFloat.ltb ratio 0.5%float then
        ret (encoded "none" (jsonMarshal E d) "failed to marshal data")
      else if PrimFloat.ltb ratio 0.8%float then
        ret (encoded "gzip" (compressGzip E d) "failed to compress with gzip")
      else if PrimFloat.ltb ratio 1.0%float then
        ret (encoded "brotli-4" (compressBrotli E d 4) "failed to compress with brotli-4")
      else
        truncated <- truncateData d
                       (int_of_float64 (PrimFloat.mul (float64_of_int limit) 0.7%float)) ;;
        ret (encoded "brotli-11-truncated" (compressBrotli E truncated 11)
               "failed to compress with brotli-11")
  end.

(** The strategy table of the token counter, for the profile's safe buffer
    (internal/token/counter.go, [GetCompressionStrategy]). *)
#[warnings="-inexact-float"]
Definition GetCompressionStrategy (tokenCount safeBuffer : Z) : string :=
  let ratio := PrimFloat.div (float64_of_int tokenCount) (float64_of_int safeBuffer) in
  if PrimFloat.ltb ratio 0.5%float then "none"
  else if PrimFloat.ltb ratio 0.7%float then "gzip"
  else if PrimFloat.ltb ratio 0.9%float then "brotli"
  else "brotli-aggressive".

End WithEnv.
End Compression.

(** ** A concrete environment for closed examples

    The tokenizer, [fmt] and the compressors are libraries outside the
    repository.  For evaluating the pipeline on concrete inputs they are
    replaced by simple stand-ins: JSON text with sorted keys, one token per
    byte of text (a BPE vocabulary without merges), and compressors that only
    tag the JSON text. *)

Module StandIn.

Definition dquote : string := String (Ascii.ascii_of_nat 34) EmptyString.
Definition backslash : string := String (Ascii.ascii_of_nat 92) EmptyString.

Fixpoint escape (s : string) : string :=
  match s with
  | EmptyString => EmptyString
  | String a s' =>
      if Ascii.eqb a (Ascii.ascii_of_nat 34) then backslash +:+ dquote +:+ escape s'
      else if Ascii.eqb a (Ascii.ascii_of_nat 92) then backslash +:+ backslash +:+ escape s'
      else String a (escape s')
  end.

Definition quote (s : string) : string := dquote +:+ escape s +:+ dquote.

Fixpoint join (sep : string) (l : list string) : string :=
  match l with
  | [] => EmptyString
  | [x] => x
  | x :: l' => x +:+ sep +:+ join sep l'
  end.

Fixpoint insertByKey (p : string * string) (l : list (string * string)) :=
  match l with
  | [] => [p]
  | q :: l' => if String.leb (fst p) (fst q) then p :: l else q :: insertByKey p l'
  end.

Definition sortByKey (l : list (string * string)) : list (string * string) :=
  fold_right insertByKey [] l.

(** [json.Marshal] *)
Fixpoint render (d : data) : string :=
  match d with
  | DNil => "null"
  | DBool true => "true"
  | DBool false => "false"
  | DInt n => pretty n
  | DString s => quote s
  | DSlice items => "[" +:+ join "," (List.map render items) +:+ "]"
  | DMap fields =>
      "{" +:+ join "," (List.map (fun p => quote (fst p) +:+ ":" +:+ snd p)
                          (sortByKey (List.map (fun p => (fst p, render (snd p))) fields)))
          +:+ "}"
  end.

(** The verb [%v] *)
Fixpoint formatV (d : data) : string :=
  match d with
  | DNil => "<nil>"
  | DBool true => "true"
  | DBool false => "false"
  | DInt n => pretty n
  | DString s => s
  | DSlice items => "[" +:+ join " " (List.map formatV items) +:+ "]"
  | DMap fields =>
      "map[" +:+ join " " (List.map (fun p => fst p +:+ ":" +:+ snd p)
                             (sortByKey (List.map (fun p => (fst p, formatV (snd p))) fields)))
             +:+ "]"
  end.

(** The verb [%T] *)
Definition formatT (d : data) : string :=
  match d with
  | DNil => "<nil>"
  | DBool _ => "bool"
  | DInt _ => "int"
  | DString _ => "string"
  | DSlice _ => "[]interface {}"
  | DMap _ => "map[string]interface {}"
  end.

Definition env : Compression.Env :=
  Compression.mkEnv
    (fun d => formatT d +:+ "_" +:+ formatV d)
    (fun d => Some (Z.of_nat (String.length (render d))))
    (fun s => Z.of_nat (String.length s))
    (fun d => Some (render d))
    (fun d => Some ("gzip:" +:+ render d))
    (fun d level => Some ("brotli-" +:+ pretty level +:+ ":" +:+ render d)).

(** A string of [n] letters. *)
Fixpoint letters (n : nat) : string :=
  match n with
  | O => EmptyString
  | S n' => String (Ascii.ascii_of_nat 97) (letters n')
  end.

End StandIn.

(** ** Properties of the compression manager *)

Module CompressionFacts.
Import Compression.



Section Loops.
Context (E : Env) (rec : data -> Z -> M data) (fields0 : gomap) (B : Z).



(** Whatever both loops preserve when they copy a field. *)
Variable P : gomap -> Z -> Prop.

Hypothesis P_priority :
  forall res cur field value n,
    P res cur -> mapGet fields0 field = Some value -> wrap64 (cur + n) <= B ->
    P (mapSet res field value) (wrap64 (cur + n)).


Hypothesis P_whole :
  forall res cur key value n,
    P res cur -> mapGet res key = None -> wrap64 (cur + n) <= B ->
    P (mapSet res key value) (wrap64 (cur + n)).

Hypothesis P_boundary :
  forall res cur key value, P res cur -> mapGet res key = None -> P (mapSet res key value) cur.


End Loops.








(** *** Method selection *)

Section Thresholds.
#[local] Set Warnings "-inexact-float".

Definition ratioOf (tokens limit : Z) : float :=
  PrimFloat.div (float64_of_int tokens) (float64_of_int limit).

(** C2 (amended).  [OptimizeResponse] compares [tokens/limit] with 0.5, 0.8
    and 1.0, in that order: below 0.5 the body is plain JSON (method "none");
    otherwise below 0.8 it is gzip; otherwise below 1.0 it is brotli at level
    4; otherwise the value is truncated to [int(0.7 * limit)] tokens and
    compressed with brotli at level 11 under the name "brotli-11-truncated". *)
Theorem OptimizeResponse_thresholds :
  forall (E : Env) (d : data) (limit tokens : Z) (m m1 : Memo),
    Count E d m = Done (Some tokens, m1) ->
    let ratio := ratioOf tokens limit in
    (PrimFloat.ltb ratio 0.5 = true ->
       OptimizeResponse E d limit m =
         Done (encoded "none" (jsonMarshal E d) "failed to marshal data", m1)) /\
    (PrimFloat.ltb ratio 0.5 = false -> PrimFloat.ltb ratio 0.8 = true ->
       OptimizeResponse E d limit m =
         Done (encoded "gzip" (compressGzip E d) "failed to compress with gzip", m1)) /\
    (PrimFloat.ltb ratio 0.8 = false -> PrimFloat.ltb ratio 0.5 = false ->
     PrimFloat.ltb ratio 1.0 = true ->
       OptimizeResponse E d limit m =
         Done (encoded "brotli-4" (compressBrotli E d 4)
                 "failed to compress with brotli-4", m1)) /\
    (PrimFloat.ltb ratio 1.0 = false -> PrimFloat.ltb ratio 0.8 = false ->
     PrimFloat.ltb ratio 0.5 = false ->
       OptimizeResponse E d limit m =
         bind (truncateData E d
                 (int_of_float64 (PrimFloat.mul (float64_of_int limit) 0.7)))
              (fun truncated =>
                 ret (encoded "brotli-11-truncated" (compressBrotli E truncated 11)
                        "failed to compress with brotli-11")) m1).
Proof.
  intros E d limit tokens m m1 HCount ratio.
  subst ratio. unfold ratioOf.
  repeat split; intros;
    unfold OptimizeResponse; unfold bind at 1; rewrite HCount; cbv zeta;
    repeat match goal with
           | H : PrimFloat.ltb _ _ = _ |- _ => rewrite H; clear H
           end; reflexivity.
Qed.

Definition sample75 : data := DString (StandIn.letters 73).

Lemma OptimizeResponse_thresholds_witness :
  answer (OptimizeResponse StandIn.env sample75 150 ∅) =
    Some (Ok ("gzip:" +:+ StandIn.render sample75, "gzip")).
Proof.
  assert (HCount : Count StandIn.env sample75 ∅ =
                   Done (Some 75, <[fmtKey StandIn.env sample75 := 75]> ∅))
    by (vm_compute; reflexivity).
  destruct (OptimizeResponse_thresholds StandIn.env sample75 150 75 ∅ _ HCount)
    as (_ & Hgzip & _).
  rewrite Hgzip; vm_compute; reflexivity.
Defined.

(** C2 (as stated) fails.  A value of 75 tokens against a limit of 100 has
    ratio 0.75, inside [0.7, 0.9), and is sent with gzip; one of 95 tokens has
    ratio 0.95, at least 0.9, and is sent with brotli at level 4, whole. *)
Lemma OptimizeResponse_uses_other_thresholds :
  answer (Count StandIn.env sample75 ∅) = Some (Some 75) /\
  answer (OptimizeResponse StandIn.env sample75 100 ∅) =
    Some (Ok ("gzip:" +:+ StandIn.render sample75, "gzip")) /\
  GetCompressionStrategy 75 100 = "brotli" /\
  answer (Count StandIn.env (DString (StandIn.letters 93)) ∅) = Some (Some 95) /\
  answer (OptimizeResponse StandIn.env (DString (StandIn.letters 93)) 100 ∅) =
    Some (Ok ("brotli-4:" +:+ StandIn.render (DString (StandIn.letters 93)), "brotli-4")) /\
  GetCompressionStrategy 95 100 = "brotli-aggressive".
Proof. vm_compute. repeat split; reflexivity. Qed.

End Thresholds.

End CompressionFacts.

(** ** Token counter, the rest of its interface (internal/token/counter.go) *)

Module Token.
Import Compression.

Record ModelLimits := mkLimits {
  Context : Z;
  SafeBuffer : Z;
  OutputMax : Z
}.

Definition ModelConfigs : gmap string ModelLimits :=
  <["sonnet-4" := mkLimits 200000 180000 64000]>
    (<["sonnet-4-beta" := mkLimits 1000000 950000 64000]>
       (<["opus-4-1" := mkLimits 200000 180000 32000]> ∅)).

(** A missing key of a Go map reads as the zero value. *)
Definition GetModelLimits (modelName : string) : ModelLimits :=
  match ModelConfigs !! modelName with
  | Some limits => limits
  | None =>
      match ModelConfigs !! "sonnet-4" with
      | Some limits => limits
      | None => mkLimits 0 0 0
      end
  end.

Definition CalculateOptimalChunkSize (modelName : string) (targetUtilization : float) : Z :=
  let limits := GetModelLimits modelName in
  int_of_float64 (PrimFloat.mul (float64_of_int (SafeBuffer limits)) targetUtilization).

Section WithEnv.
Context (E : Env).

(** The error of [Count] is that of [json.Marshal], wrapped. *)
Definition countError : string := "failed to marshal data".

Definition ValidateTokenLimit (d : data) (modelName : string) : M (result unit) :=
  r <- Count E d ;;
  match r with
  | None => ret (Err countError)
  | Some count =>
      let limits := GetModelLimits modelName in
      if SafeBuffer limits <? count
      then ret (Err ("token count " +:+ pretty count +:+ " exceeds safe buffer " +:+
                     pretty (SafeBuffer limits) +:+ " for model " +:+ modelName))
      else ret (Ok tt)
  end.

(** [tc.cache.Range] deletes every key it visits. *)
Definition CleanCache : M unit := fun _ => Done (tt, ∅).



Definition EstimateChunkingNeeded (d : data) (modelName : string) : M (result (bool * Z)) :=
  r <- Count E d ;;
  match r with
  | None => ret (Err countError)
  | Some count =>
      let limits := GetModelLimits modelName in
      if count <=? SafeBuffer limits then ret (Ok (false, 1))
      else if SafeBuffer limits =? 0 then panic
      else ret (Ok (true, wrap64 (Z.quot (wrap64 (wrap64 (count + SafeBuffer limits) - 1))
                                         (SafeBuffer limits))))
  end.

#[warnings="-inexact-float"]
Definition EstimateCompressed (d : data) (method : string) : M (result Z) :=
  r <- Count E d ;;
  match r with
  | None => ret (Err countError)
  | Some baseCount =>
      let scaled (f : float) := int_of_float64 (PrimFloat.mul (float64_of_int baseCount) f) in
      if String.eqb method "gzip" then ret (Ok (scaled 0.7%float))
      else if String.eqb method "brotli" then ret (Ok (scaled 0.6%float))
      else if String.eqb method "brotli-aggressive" then ret (Ok (scaled 0.5%float))
      else ret (Ok baseCount)
  end.

End WithEnv.
End Token.

Module TokenFacts.
Import Compression Token.

Lemma SafeBuffer_cases modelName :
  SafeBuffer (GetModelLimits modelName) = 180000 \/
  SafeBuffer (GetModelLimits modelName) = 950000.
Proof.
  unfold GetModelLimits, ModelConfigs.
  destruct (decide (modelName = "sonnet-4")) as [-> | H1]; [left; reflexivity |].
  rewrite (lookup_insert_ne _ "sonnet-4" modelName) by congruence.
  destruct (decide (modelName = "sonnet-4-beta")) as [-> | H2]; [right; reflexivity |].
  rewrite (lookup_insert_ne _ "sonnet-4-beta" modelName) by congruence.
  destruct (decide (modelName = "opus-4-1")) as [-> | H3]; [left; reflexivity |].
  rewrite (lookup_insert_ne _ "opus-4-1" modelName) by congruence.
  rewrite lookup_empty. left. reflexivity.
Qed.

(** X10.  [Count] answers from its memo table by key alone: once a value has
    been counted, every value with the same [%T_%v] key (the value itself,
    but also a different value that prints alike) is given that count, and
    the table is left as it is. *)
Theorem Count_answers_from_memo :
  forall (E : Env) (d1 d2 : data) (n : Z) (m m' : Memo),
    Count E d1 m = Done (Some n, m') ->
    fmtKey E d2 = fmtKey E d1 ->
    Count E d2 m' = Done (Some n, m').
Proof.
  intros E d1 d2 n m m' HCount Hkey. unfold Count, Memo in *. rewrite Hkey.
  destruct (m !! fmtKey E d1) as [n0|] eqn:Hm.
  - inversion HCount; subst. now rewrite Hm.
  - destruct (jsonTokens E d1) as [n0|]; inversion HCount; subst.
    now rewrite lookup_insert_eq.
Qed.

Section Chunking.
#[local] Ltac Zify.zify_post_hook ::= Z.to_euclidean_division_equations.

(** X11.  For every model name, [EstimateChunkingNeeded] reports chunking
    exactly when the count exceeds the model's safe buffer, and the number of
    chunks it returns is the least number of safe buffers that hold the
    count; [ValidateTokenLimit] accepts the same value exactly when that
    number is 1. *)
Theorem EstimateChunkingNeeded_least_cover :
  forall (E : Env) (d : data) (modelName : string) (count : Z) (m m1 : Memo),
    Count E d m = Done (Some count, m1) ->
    0 <= count < 2 ^ 62 ->
    let buffer := SafeBuffer (GetModelLimits modelName) in
    exists chunks,
      EstimateChunkingNeeded E d modelName m = Done (Ok (buffer <? count, chunks), m1) /\
      1 <= chunks /\ count <= chunks * buffer /\
      (1 < chunks -> (chunks - 1) * buffer < count) /\
      (ValidateTokenLimit E d modelName m = Done (Ok tt, m1) <-> chunks = 1).
Proof.
  intros E d modelName count m m1 HCount Hrange buffer.
  unfold EstimateChunkingNeeded, ValidateTokenLimit, bind. rewrite HCount.
  fold buffer. assert (Hb : buffer = 180000 \/ buffer = 950000) by apply SafeBuffer_cases.
  destruct (count <=? buffer) eqn:Hle.
  - apply Z.leb_le in Hle. exists 1.
    assert (Hlt : (buffer <? count) = false) by (apply Z.ltb_ge; lia).
    rewrite Hlt. unfold ret. repeat split; try lia.
  - apply Z.leb_gt in Hle.
    assert (Hlt : (buffer <? count) = true) by (apply Z.ltb_lt; lia).
    assert (Hz : (buffer =? 0) = false) by (apply Z.eqb_neq; lia).
    rewrite Hlt, Hz. unfold ret.
    rewrite (wrap64_small (count + buffer)) by lia.
    rewrite (wrap64_small (count + buffer - 1)) by lia.
    assert (Hq : 0 <= Z.quot (count + buffer - 1) buffer < 2 ^ 62).
    { destruct Hb as [-> | ->]; lia. }
    rewrite wrap64_small by lia.
    eexists. split; [reflexivity |].
    repeat split; try (destruct Hb as [Hb | Hb]; rewrite Hb in *; lia).
    intros Hok. discriminate.
Qed.

End Chunking.

(** Two slices that print alike under [%v]. *)
Definition oneString : data := DSlice [DString "a b"].
Definition twoStrings : data := DSlice [DString "a"; DString "b"].

Lemma Count_answers_from_memo_witness :
  let m' := <[fmtKey StandIn.env oneString := 7]> ∅ in
  Count StandIn.env twoStrings m' = Done (Some 7, m') /\
  jsonTokens StandIn.env twoStrings = Some 9.
Proof.
  cbv zeta. split; [| reflexivity].
  apply (Count_answers_from_memo StandIn.env oneString twoStrings 7 ∅).
  - vm_compute. reflexivity.
  - reflexivity.
Defined.

(** An encoder that yields 3000 tokens per byte of JSON. *)
Definition verbose : Env :=
  mkEnv (fmtKey StandIn.env)
        (fun d => Some (3000 * Z.of_nat (String.length (StandIn.render d))))
        (textTokens StandIn.env) (jsonMarshal StandIn.env)
        (compressGzip StandIn.env) (compressBrotli StandIn.env).

Lemma EstimateChunkingNeeded_least_cover_witness :
  exists chunks m1,
    EstimateChunkingNeeded verbose (DString (StandIn.letters 98)) "opus-4-1" ∅ =
      Done (Ok (true, chunks), m1) /\
    1 <= chunks /\ 300000 <= chunks * 180000 /\
    (1 < chunks -> (chunks - 1) * 180000 < 300000).
Proof.
  assert (HCount : Count verbose (DString (StandIn.letters 98)) ∅ =
                   Done (Some 300000,
                         <[fmtKey verbose (DString (StandIn.letters 98)) := 300000]> ∅))
    by (vm_compute; reflexivity).
  destruct (EstimateChunkingNeeded_least_cover verbose _ "opus-4-1" 300000 ∅ _ HCount)
    as (chunks & Hrun & H1 & H2 & H3 & _); [lia |].
  exists chunks. eexists. split; [exact Hrun |]. split; [exact H1 |].
  split; [exact H2 | exact H3].
Defined.

End TokenFacts.

(** ** Compression manager, the rest of its interface *)

Module Manager.
Import Compression.

(** The byte-level libraries behind the manager: [encoding/json],
    [compress/gzip] and brotli, each with its inverse. *)
Record Libs := mkLibs {
  counter : Env;
  marshal : data -> option string;
  gzip : string -> string;
  gunzip : string -> result string;
  brotli : Z -> string -> string;
  unbrotli : string -> result string;
  gunzip_gzip : forall s, gunzip (gzip s) = Ok s;
  unbrotli_brotli : forall level s, unbrotli (brotli level s) = Ok s
}.

Definition newline : string := String (Ascii.ascii_of_nat 10) EmptyString.

(** [compressGzip] streams [json.NewEncoder(w).Encode(data)], which ends the
    text with a newline; [compressBrotli] writes [json.Marshal(data)]. *)
Definition envOf (L : Libs) : Env :=
  mkEnv (fmtKey (counter L)) (jsonTokens (counter L)) (textTokens (counter L))
        (marshal L)
        (fun d => match marshal L d with
                  | Some text => Some (gzip L (text +:+ newline))
                  | None => None
                  end)
        (fun d level => match marshal L d with
                        | Some text => Some (brotli L level text)
                        | None => None
                        end).

Definition Decompress (L : Libs) (body method : string) : result string :=
  if String.eqb method "none" then Ok body
  else if String.eqb method "gzip" then
    gunzip L body
  else if String.eqb method "brotli-4" || String.eqb method "brotli-11" ||
          String.eqb method "brotli-11-truncated" then
    unbrotli L body
  else Err ("unknown compression method: " +:+ method).

#[warnings="-inexact-float"]
Definition SuggestCompressionMethod (E : Env) (d : data) (tokenLimit : Z) : M (result string) :=
  r <- Count E d ;;
  match r with
  | None => ret (Err "failed to marshal data")
  | Some tokens =>
      let ratio := PrimFloat.div (float64_of_int tokens) (float64_of_int tokenLimit) in
      if PrimFloat.ltb ratio 0.5%float then ret (Ok "none")
      else if PrimFloat.ltb ratio 0.8%float then ret (Ok "gzip")
      else if PrimFloat.ltb ratio 1.0%float then ret (Ok "brotli-4")
      else ret (Ok "brotli-11-truncated")
  end.

End Manager.

Module ManagerFacts.
Import Compression Token Manager.

Section Methods.
#[local] Set Warnings "-inexact-float".

(** X12.  [SuggestCompressionMethod] names the method [OptimizeResponse]
    uses: whenever the latter returns a body, the former, run on the same
    value, limit and memo table, returns that body's method name. *)
Theorem SuggestCompressionMethod_agrees :
  forall (E : Env) (d : data) (limit : Z) (m m' : Memo) (body method : string),
    OptimizeResponse E d limit m = Done (Ok (body, method), m') ->
    answer (SuggestCompressionMethod E d limit m) = Some (Ok method).
Proof.
  intros E d limit m m' body method Hrun.
  unfold OptimizeResponse, SuggestCompressionMethod, bind in *.
  destruct (Count E d m) as [[[tokens|] m1]|]; [| discriminate | discriminate].
  destruct (PrimFloat.ltb _ 0.5).
  { unfold ret, encoded in Hrun. destruct (jsonMarshal E d); inversion Hrun. reflexivity. }
  destruct (PrimFloat.ltb _ 0.8).
  { unfold ret, encoded in Hrun. destruct (compressGzip E d); inversion Hrun. reflexivity. }
  destruct (PrimFloat.ltb _ 1.0).
  { unfold ret, encoded in Hrun. destruct (compressBrotli E d 4); inversion Hrun. reflexivity. }
  destruct (truncateData E d _ m1) as [[truncated m2]|]; [| discriminate].
  unfold ret, encoded in Hrun. destruct (compressBrotli E truncated 11); inversion Hrun.
  reflexivity.
Qed.

(** X13.  [Decompress] accepts every body [OptimizeResponse] produces, under
    the method name returned with it, and gives back JSON text: that of the
    value for "none" and "brotli-4", that of the value followed by a newline
    for "gzip", and that of a truncated value for "brotli-11-truncated". *)
Theorem Decompress_OptimizeResponse :
  forall (L : Libs) (d : data) (limit : Z) (m m' : Memo) (body method : string),
    OptimizeResponse (envOf L) d limit m = Done (Ok (body, method), m') ->
    exists text,
      Decompress L body method = Ok text /\
      ((method = "none" \/ method = "brotli-4") /\ marshal L d = Some text \/
       method = "gzip" /\ (exists json, marshal L d = Some json /\ text = json +:+ newline) \/
       method = "brotli-11-truncated" /\
         exists truncated, marshal L truncated = Some text).
Proof.
  intros L d limit m m' body method Hrun.
  unfold OptimizeResponse, bind in Hrun.
  destruct (Count (envOf L) d m) as [[[tokens|] m1]|]; [| discriminate | discriminate].
  destruct (PrimFloat.ltb _ 0.5).
  { unfold ret, encoded in Hrun. cbn [jsonMarshal envOf] in Hrun.
    destruct (marshal L d) as [text|] eqn:Hm; inversion Hrun; subst.
    exists body. split; [reflexivity | left; auto]. }
  destruct (PrimFloat.ltb _ 0.8).
  { unfold ret, encoded in Hrun. cbn [compressGzip envOf] in Hrun.
    destruct (marshal L d) as [text|] eqn:Hm; inversion Hrun; subst.
    exists (text +:+ newline). split.
    - unfold Decompress. simpl. now rewrite gunzip_gzip.
    - right; left. eauto. }
  destruct (PrimFloat.ltb _ 1.0).
  { unfold ret, encoded in Hrun. cbn [compressBrotli envOf] in Hrun.
    destruct (marshal L d) as [text|] eqn:Hm; inversion Hrun; subst.
    exists text. split.
    - unfold Decompress. simpl. now rewrite unbrotli_brotli.
    - left; auto. }
  destruct (truncateData (envOf L) d _ m1) as [[truncated m2]|]; [| discriminate].
  unfold ret, encoded in Hrun. cbn [compressBrotli envOf] in Hrun.
  destruct (marshal L truncated) as [text|] eqn:Hm; inversion Hrun; subst.
  exists text. split.
  - unfold Decompress. simpl. now rewrite unbrotli_brotli.
  - right; right. eauto.
Qed.

End Methods.

Section Slices.
Context (E : Env).

Definition sum (counts : list Z) : Z := fold_right Z.add 0 counts.


End Slices.


Lemma substring_substring s : forall k n,
  String.substring 0 k (String.substring 0 n s) = String.substring 0 (Nat.min k n) s.
Proof.
  induction s as [|a s IH]; intros k n.
  - destruct k, n; reflexivity.
  - destruct k, n; simpl; try reflexivity. now rewrite IH.
Qed.

Definition space : Ascii.ascii := Ascii.ascii_of_nat 32.

Lemma lastSpace_spec s : forall i found,
  0 <= i ->
  lastSpace s i found = found \/
  i <= lastSpace s i found < i + Z.of_nat (String.length s) /\
  String.get (Z.to_nat (lastSpace s i found - i)) s = Some space.
Proof.
  induction s as [|a s IH]; intros i found Hi; simpl; [now left |].
  destruct (IH (i + 1) (if Ascii.eqb a (Ascii.ascii_of_nat 32) then i else found))
    as [Heq | [Hrange Hget]]; [lia | |].
  - rewrite Heq. destruct (Ascii.eqb a (Ascii.ascii_of_nat 32)) eqn:Ha; [| now left].
    right. split; [lia |]. replace (Z.to_nat (i - i)) with 0%nat by lia.
    apply Ascii.eqb_eq in Ha. now subst a.
  - right. split; [lia |].
    replace (Z.to_nat (lastSpace s (i + 1) _ - i))
      with (S (Z.to_nat (lastSpace s (i + 1)
                           (if Ascii.eqb a (Ascii.ascii_of_nat 32) then i else found)
                         - (i + 1)))) by lia.
    exact Hget.
Qed.

Lemma get_substring s : forall k n,
  (k < n)%nat -> String.get k (String.substring 0 n s) = String.get k s.
Proof.
  induction s as [|a s IH]; intros k n Hk.
  - destruct n; reflexivity.
  - destruct n; [lia |]. destruct k; simpl; [reflexivity |]. apply IH. lia.
Qed.

Lemma length_substring_le s : forall n, (String.length (String.substring 0 n s) <= n)%nat.
Proof.
  induction s as [|a s IH]; intros n; destruct n; simpl; try lia.
  specialize (IH n). lia.
Qed.

(** X15.  For a budget between 0 and [2^60], [truncateString] returns; the
    result is the string itself or a proper prefix of it followed by
    ["... [truncated]"].  The prefix has [4 * targetTokens] bytes, or it is
    longer than half of that and stops right before a space. *)
Theorem truncateString_shape :
  forall (E : Env) (s : string) (targetTokens : Z) (m : Memo),
    0 <= targetTokens < 2 ^ 60 ->
    exists r m',
      truncateString E s targetTokens m = Done (r, m') /\
      (r = s \/
       exists k : nat,
         r = String.substring 0 k s +:+ "... [truncated]" /\
         (k < String.length s)%nat /\
         (Z.of_nat k = 4 * targetTokens \/
          2 * targetTokens < Z.of_nat k < 4 * targetTokens /\
          String.get k s = Some space)).
Proof.
  intros E s t m Ht. unfold truncateString, bind, CountString.
  assert (Hshape : forall tokens m',
    exists r,
      (if tokens <=? t then ret s
       else if Z.of_nat (String.length s) <=? wrap64 (t * 4) then ret s
       else if wrap64 (t * 4) <? 0 then panic
       else
         let truncated := String.substring 0 (Z.to_nat (wrap64 (t * 4))) s in
         let sp := lastSpace truncated 0 (-1) in
         let truncated := if Z.quot (wrap64 (t * 4)) 2 <? sp
                          then String.substring 0 (Z.to_nat sp) truncated
                          else truncated in
         ret (truncated +:+ "... [truncated]")) m' = Done (r, m') /\
      (r = s \/
       exists k : nat,
         r = String.substring 0 k s +:+ "... [truncated]" /\
         (k < String.length s)%nat /\
         (Z.of_nat k = 4 * t \/
          2 * t < Z.of_nat k < 4 * t /\ String.get k s = Some space))).
  { intros tokens m'.
    destruct (tokens <=? t); [exists s; split; [reflexivity | now left] |].
    rewrite wrap64_small by lia.
    destruct (Z.of_nat (String.length s) <=? t * 4) eqn:Hlen;
      [exists s; split; [reflexivity | now left] |].
    apply Z.leb_gt in Hlen.
    assert (Hneg : (t * 4 <? 0) = false) by (apply Z.ltb_ge; lia). rewrite Hneg.
    cbv zeta. set (truncated := String.substring 0 (Z.to_nat (t * 4)) s).
    assert (Hq : Z.quot (t * 4) 2 = 2 * t)
      by (replace (t * 4) with (2 * t * 2) by lia; apply Z.quot_mul; lia).
    rewrite Hq.
    pose proof (lastSpace_spec truncated 0 (-1)) as Hspec.
    pose proof (length_substring_le s (Z.to_nat (t * 4))) as Hl. fold truncated in Hl.
    remember (lastSpace truncated 0 (-1)) as sp eqn:Esp. clear Esp.
    destruct (2 * t <? sp) eqn:Hsp.
    - apply Z.ltb_lt in Hsp.
      destruct Hspec as [Heq | [Hrange Hget]]; [lia | lia |].
      rewrite Z.sub_0_r in Hget. unfold truncated in Hget.
      rewrite get_substring in Hget by lia.
      eexists. split; [reflexivity | right].
      exists (Z.to_nat sp). unfold truncated. rewrite substring_substring.
      rewrite Nat.min_l by lia.
      split; [reflexivity |]. split; [lia |]. right. split; [lia | exact Hget].
    - eexists. split; [reflexivity | right].
      exists (Z.to_nat (t * 4)). split; [reflexivity |]. split; [lia |]. left. lia. }
  destruct (m !! s) as [n|].
  - destruct (Hshape n m) as (r & Hrun & Hr). eauto.
  - destruct (Hshape (textTokens E s) (<[s := textTokens E s]> m)) as (r & Hrun & Hr). eauto.
Qed.

Lemma SuggestCompressionMethod_agrees_witness :
  answer (SuggestCompressionMethod StandIn.env CompressionFacts.sample75 150 ∅)
  = Some (Ok "gzip").
Proof.
  apply (SuggestCompressionMethod_agrees StandIn.env CompressionFacts.sample75 150 ∅
           (<[fmtKey StandIn.env CompressionFacts.sample75 := 75]> ∅)
           ("gzip:" +:+ StandIn.render CompressionFacts.sample75)).
  vm_compute. reflexivity.
Defined.

(** Compressors that put a one-byte tag in front of the text. *)
Definition untag (tag : Ascii.ascii) (body : string) : result string :=
  match body with
  | String a text => if Ascii.eqb a tag then Ok text else Err "invalid header"
  | EmptyString => Err "unexpected EOF"
  end.

Lemma untag_tag tag text : untag tag (String tag text) = Ok text.
Proof. simpl. now rewrite Ascii.eqb_refl. Qed.

Definition tagLibs : Libs :=
  mkLibs StandIn.env (fun d => Some (StandIn.render d))
         (String (Ascii.ascii_of_nat 103)) (untag (Ascii.ascii_of_nat 103))
         (fun _ => String (Ascii.ascii_of_nat 98)) (untag (Ascii.ascii_of_nat 98))
         (untag_tag (Ascii.ascii_of_nat 103))
         (fun _ => untag_tag (Ascii.ascii_of_nat 98)).

Lemma Decompress_OptimizeResponse_witness :
  let body := gzip tagLibs (StandIn.render CompressionFacts.sample75 +:+ newline) in
  Decompress tagLibs body "gzip"
    = Ok (StandIn.render CompressionFacts.sample75 +:+ newline).
Proof.
  cbv zeta.
  assert (Hrun : OptimizeResponse (envOf tagLibs) CompressionFacts.sample75 150 ∅ =
                 Done (Ok (gzip tagLibs (StandIn.render CompressionFacts.sample75
                                         +:+ newline), "gzip"),
                       <[fmtKey StandIn.env CompressionFacts.sample75 := 75]> ∅))
    by (vm_compute; reflexivity).
  destruct (Decompress_OptimizeResponse tagLibs _ _ _ _ _ _ Hrun)
    as (text & Hdec & [[[? | ?] _] | [[_ (json & Hjson & ->)] | [? _]]]);
    try discriminate.
  rewrite Hdec. inversion Hjson. reflexivity.
Defined.


Lemma truncateString_shape_witness :
  exists r m',
    truncateString StandIn.env "alpha beta gamma delta" 3 ∅ = Done (r, m') /\
    (r = "alpha beta gamma delta" \/
     exists k : nat,
       r = String.substring 0 k "alpha beta gamma delta" +:+ "... [truncated]" /\
       (k < 22)%nat /\
       (Z.of_nat k = 12 \/
        6 < Z.of_nat k < 12 /\ String.get k "alpha beta gamma delta" = Some space)).
Proof.
  apply (truncateString_shape StandIn.env "alpha beta gamma delta" 3 ∅). lia.
Defined.

End ManagerFacts.

(** ** Index engine (internal/index/manager.go)

    The [float64] fields of the index hold cell coordinates (small integers)
    and rectangle bounds obtained from (0, 0, 1000, 1000) by halving; on such
    values every operation the quadtree performs is exact, and they are
    modelled by rationals. *)

Module Index.

(** What the engine reads of an open workbook (excelize). *)
Record File := mkFile {
  GetSheetList : list string;
  GetRows : string -> result (list (list string))
}.

(** [excelize.CoordinatesToCellName], the error dropped: letters of the
    column, then the row; empty outside the sheet limits. *)
Fixpoint columnName (fuel : nat) (col : Z) (acc : string) : string :=
  match fuel with
  | O => acc
  | S fuel' =>
      if col <=? 0 then acc
      else columnName fuel' ((col - 1) / 26)
             (String (Ascii.ascii_of_nat (Z.to_nat (65 + (col - 1) mod 26))) acc)
  end.

Definition CoordinatesToCellName (col row : Z) : string :=
  if (col <? 1) || (row <? 1) || (16384 <? col) || (1048576 <? row) then ""
  else columnName 3 col "" +:+ pretty row.

Record Location := mkLoc {
  SheetName : string;
  CellRef : string;
  Row : Z;
  Col : Z
}.

#[export] Instance Location_eq_dec : EqDecision Location.
Proof. solve_decision. Defined.

Record NumericKey := mkKey {
  Value : Q;
  Loc : Location
}.

Definition Qltb (x y : Q) : bool := negb (Qle_bool y x).

Definition Less (nk other : NumericKey) : bool :=
  if negb (Qeq_bool (Value nk) (Value other)) then Qltb (Value nk) (Value other)
  else String.ltb (SheetName (Loc nk)) (SheetName (Loc other)).

(** The B-tree of google/btree as the ascending list of its items. *)
Fixpoint ReplaceOrInsert (t : list NumericKey) (k : NumericKey) : list NumericKey :=
  match t with
  | [] => [k]
  | x :: t' =>
      if Less k x then k :: x :: t'
      else if Less x k then x :: ReplaceOrInsert t' k
      else k :: t'
  end.

(** Items in [[greaterOrEqual, lessThan)], ascending. *)
Definition AscendRange (t : list NumericKey) (greaterOrEqual lessThan : NumericKey)
  : list NumericKey :=
  List.filter (fun x => negb (Less x greaterOrEqual) && Less x lessThan) t.

Record Rectangle := mkRect {
  X : Q;
  Y : Q;
  Width : Q;
  Height : Q
}.

Record SpatialPoint := mkPoint {
  PX : Q;
  PY : Q;
  PValue : string;
  PLoc : Location
}.

(** A node whose [children[0]] is nil is a [Leaf]; [subdivide] fills the four
    slots at once. *)
Inductive QuadTree :=
| Leaf (bounds : Rectangle) (points : list SpatialPoint) (capacity : Z)
| Quad (bounds : Rectangle) (points : list SpatialPoint)
       (c0 c1 c2 c3 : QuadTree) (capacity : Z).

Definition NewQuadTree (bounds : Rectangle) (capacity : Z) : QuadTree :=
  Leaf bounds [] capacity.

Definition Contains (r : Rectangle) (x y : Q) : bool :=
  Qle_bool (X r) x && Qltb x (X r + Width r) &&
  Qle_bool (Y r) y && Qltb y (Y r + Height r).

Definition intersects (b bounds : Rectangle) : bool :=
  negb (Qle_bool (X b + Width b) (X bounds) ||
        Qle_bool (X bounds + Width bounds) (X b) ||
        Qle_bool (Y b + Height b) (Y bounds) ||
        Qle_bool (Y bounds + Height bounds) (Y b)).

(** The bounds of the four children made by [subdivide]. *)
Definition quadrant (b : Rectangle) (i : nat) : Rectangle :=
  let halfWidth := (Width b / 2)%Q in
  let halfHeight := (Height b / 2)%Q in
  match i with
  | 0%nat => mkRect (X b) (Y b) halfWidth halfHeight
  | 1%nat => mkRect (X b + halfWidth) (Y b) halfWidth halfHeight
  | 2%nat => mkRect (X b) (Y b + halfHeight) halfWidth halfHeight
  | _ => mkRect (X b + halfWidth) (Y b + halfHeight) halfWidth halfHeight
  end.

(** [Insert] on a child that [subdivide] has just made (no points, no
    children).  With a capacity below 1 the child would subdivide in turn,
    and so on without end: [None]. *)
Definition insertFresh (bounds : Rectangle) (capacity : Z) (p : SpatialPoint)
  : option QuadTree :=
  if negb (Contains bounds (PX p) (PY p)) then Some (NewQuadTree bounds capacity)
  else if 0 <? capacity then Some (Leaf bounds [p] capacity)
  else None.

Definition quad (b : Rectangle) (pts : list SpatialPoint)
    (c0 c1 c2 c3 : option QuadTree) (cap : Z) : option QuadTree :=
  match c0, c1, c2, c3 with
  | Some c0', Some c1', Some c2', Some c3' => Some (Quad b pts c0' c1' c2' c3' cap)
  | _, _, _, _ => None
  end.

Fixpoint Insert (qt : QuadTree) (p : SpatialPoint) : option QuadTree :=
  match qt with
  | Leaf b pts cap =>
      if negb (Contains b (PX p) (PY p)) then Some qt
      else if len pts <? cap then Some (Leaf b (pts ++ [p]) cap)
      else quad b pts (insertFresh (quadrant b 0) cap p) (insertFresh (quadrant b 1) cap p)
                      (insertFresh (quadrant b 2) cap p) (insertFresh (quadrant b 3) cap p) cap
  | Quad b pts c0 c1 c2 c3 cap =>
      if negb (Contains b (PX p) (PY p)) then Some qt
      else quad b pts (Insert c0 p) (Insert c1 p) (Insert c2 p) (Insert c3 p) cap
  end.

Fixpoint Query (qt : QuadTree) (bounds : Rectangle) : list SpatialPoint :=
  match qt with
  | Leaf b pts _ =>
      if negb (intersects b bounds) then []
      else List.filter (fun p => Contains bounds (PX p) (PY p)) pts
  | Quad b pts c0 c1 c2 c3 _ =>
      if negb (intersects b bounds) then []
      else List.filter (fun p => Contains bounds (PX p) (PY p)) pts ++
           Query c0 bounds ++ Query c1 bounds ++ Query c2 bounds ++ Query c3 bounds
  end.

Fixpoint countPoints (qt : QuadTree) : Z :=
  match qt with
  | Leaf _ pts _ => len pts
  | Quad _ pts c0 c1 c2 c3 _ =>
      len pts + countPoints c0 + countPoints c1 + countPoints c2 + countPoints c3
  end.

(** *** Text utilities *)

(** [parseFloat]: the body is a fixed error. *)
Definition parseFloat (s : string) : result Q := Err "not implemented".

(** [parseNumber] on a string, the only dynamic type [indexSheet] passes. *)
Definition parseNumber (value : string) : result Q :=
  match parseFloat value with
  | Ok num => Ok num
  | Err _ => Err "not a number"
  end.

Definition isNumericString (s : string) : bool :=
  match parseFloat s with
  | Ok _ => true
  | Err _ => false
  end.

Definition isText (value : string) : bool :=
  negb (String.eqb value "") && negb (isNumericString value).

(** [strings.ToLower] and [strings.Fields] on ASCII text; bytes outside ASCII
    are kept as they are and do not separate words. *)
Definition lowerByte (a : Ascii.ascii) : Ascii.ascii :=
  let n := Ascii.nat_of_ascii a in
  if ((65 <=? n) && (n <=? 90))%nat then Ascii.ascii_of_nat (n + 32) else a.

Fixpoint ToLower (s : string) : string :=
  match s with
  | EmptyString => EmptyString
  | String a s' => String (lowerByte a) (ToLower s')
  end.

Definition isSpace (a : Ascii.ascii) : bool :=
  let n := Ascii.nat_of_ascii a in
  ((n =? 32) || ((9 <=? n) && (n <=? 13)))%nat.

(** [word] is the field being read, reversed. *)
Fixpoint fieldsFrom (s : string) (word : string) : list string :=
  match s with
  | EmptyString =>
      match word with
      | EmptyString => []
      | _ => [String.rev word]
      end
  | String a s' =>
      if isSpace a
      then match word with
           | EmptyString => fieldsFrom s' EmptyString
           | _ => String.rev word :: fieldsFrom s' EmptyString
           end
      else fieldsFrom s' (String a word)
  end.

Definition Fields (s : string) : list string := fieldsFrom s EmptyString.

Definition stopWords : list string :=
  ["the"; "a"; "an"; "and"; "or"; "but"; "in"; "on"; "at"; "to"; "for"; "of"; "with";
   "by"; "is"].

Definition isStopWord (w : string) : bool := List.existsb (String.eqb w) stopWords.

Definition tokenizeText (text : string) : list string :=
  List.filter (fun word => (2 <? String.length word)%nat && negb (isStopWord word))
              (Fields (ToLower text)).

Definition intersectLocations (a b : list Location) : list Location :=
  List.filter (fun loc => bool_decide (loc ∈ b)) a.

(** *** The bloom prefilter (bits-and-blooms): an interface and the law a
    Bloom filter obeys, no false negatives. *)
Class BloomFilter := {
  filter : Type;
  bloomNew : filter;
  bloomAdd : filter -> string -> filter;
  bloomTest : filter -> string -> bool;
  bloomTest_add : forall f s, bloomTest (bloomAdd f s) s = true;
  bloomTest_mono : forall f s t, bloomTest f s = true -> bloomTest (bloomAdd f t) s = true
}.

Section WithBloom.
Context `{BloomFilter}.

Record Manager := mkManager {
  primary : list NumericKey;
  inverted : gmap string (list Location);
  spatial : QuadTree;
  bloom : filter;
  lastUpdate : Z
}.

Definition NewManager : Manager :=
  mkManager [] ∅ (NewQuadTree (mkRect 0 0 1000 1000) 10) bloomNew 0.

Definition addToken (inv : gmap string (list Location)) (token : string) (loc : Location)
  : gmap string (list Location) :=
  match inv !! token with
  | Some locations => <[token := locations ++ [loc]]> inv
  | None => <[token := [loc]]> inv
  end.

Definition addToInverted (inv : gmap string (list Location)) (text : string) (loc : Location)
  : gmap string (list Location) :=
  fold_left (fun inv token => addToken inv token loc) (tokenizeText text) inv.

(** The body of the inner loop of [indexSheet] for one cell; [None] when the
    quadtree insertion does not return. *)
Definition indexCell (idx : Manager) (sheetName : string) (rowIdx colIdx : Z)
    (cellValue : string) : option Manager :=
  if String.eqb cellValue "" then Some idx
  else
    let loc := mkLoc sheetName (CoordinatesToCellName (colIdx + 1) (rowIdx + 1))
                     (rowIdx + 1) (colIdx + 1) in
    let primary' :=
      match parseNumber cellValue with
      | Ok numValue => ReplaceOrInsert (primary idx) (mkKey numValue loc)
      | Err _ => primary idx
      end in
    let inverted' :=
      if isText cellValue then addToInverted (inverted idx) cellValue loc
      else inverted idx in
    match Insert (spatial idx) (mkPoint (inject_Z colIdx) (inject_Z rowIdx) cellValue loc) with
    | Some spatial' =>
        Some (mkManager primary' inverted' spatial' (bloomAdd (bloom idx) cellValue)
                        (lastUpdate idx))
    | None => None
    end.

Fixpoint indexRow (idx : Manager) (sheetName : string) (rowIdx colIdx : Z)
    (row : list string) : option Manager :=
  match row with
  | [] => Some idx
  | cellValue :: rest =>
      match indexCell idx sheetName rowIdx colIdx cellValue with
      | Some idx' => indexRow idx' sheetName rowIdx (colIdx + 1) rest
      | None => None
      end
  end.

Fixpoint indexRows (idx : Manager) (sheetName : string) (rowIdx : Z)
    (rows : list (list string)) : option Manager :=
  match rows with
  | [] => Some idx
  | row :: rest =>
      match indexRow idx sheetName rowIdx 0 row with
      | Some idx' => indexRows idx' sheetName (rowIdx + 1) rest
      | None => None
      end
  end.

(** [indexSheet]: the manager as the call leaves it, and the error if any. *)
Definition indexSheet (idx : Manager) (file : File) (sheetName : string)
  : option (Manager * result unit) :=
  match GetRows file sheetName with
  | Err e => Some (idx, Err e)
  | Ok rows =>
      match indexRows idx sheetName 0 rows with
      | Some idx' => Some (idx', Ok tt)
      | None => None
      end
  end.

Fixpoint indexSheets (idx : Manager) (file : File) (sheetNames : list string)
  : option (Manager * result unit) :=
  match sheetNames with
  | [] => Some (idx, Ok tt)
  | sheetName :: rest =>
      match indexSheet idx file sheetName with
      | Some (idx', Ok _) => indexSheets idx' file rest
      | Some (idx', Err e) =>
          Some (idx', Err ("failed to index sheet " +:+ sheetName +:+ ": " +:+ e))
      | None => None
      end
  end.

Definition BuildFromFile (idx : Manager) (file : File) (sheetNames : list string) (now : Z)
  : option (Manager * result unit) :=
  match indexSheets idx file sheetNames with
  | Some (idx', Ok _) =>
      Some (mkManager (primary idx') (inverted idx') (spatial idx') (bloom idx') now, Ok tt)
  | other => other
  end.

(** The loop of [SearchText] over [tokens[1:]]. *)
Fixpoint intersectTokens (inv : gmap string (list Location)) (tokens : list string)
    (results : list Location) : list Location :=
  match tokens with
  | [] => results
  | token :: rest =>
      match inv !! token with
      | Some locations => intersectTokens inv rest (intersectLocations results locations)
      | None => []
      end
  end.

Definition SearchText (idx : Manager) (query : string) : list Location :=
  if negb (bloomTest (bloom idx) query) then []
  else
    match tokenizeText query with
    | [] => []
    | first :: rest =>
        let results :=
          match inverted idx !! first with
          | Some locations => locations
          | None => []
          end in
        intersectTokens (inverted idx) rest results
    end.

Definition SearchNumericRange (idx : Manager) (min max : Q) : list Location :=
  List.map Loc (AscendRange (primary idx) (mkKey min (mkLoc "" "" 0 0))
                            (mkKey max (mkLoc "" "" 0 0))).

Definition SearchSpatial (idx : Manager) (bounds : Rectangle) : list Location :=
  List.map PLoc (Query (spatial idx) bounds).

End WithBloom.

End Index.

(** ** Properties of the index engine *)

Module IndexFacts.
Import Index.

(** *** Rectangles *)

Lemma Qltb_lt x y : Qltb x y = true <-> (x < y)%Q.
Proof.
  unfold Qltb. rewrite negb_true_iff. split.
  - intros Hb. apply Qnot_le_lt. intros Hle. apply Qle_bool_iff in Hle. congruence.
  - intros Hlt. destruct (Qle_bool y x) eqn:Hb; [| reflexivity].
    apply Qle_bool_iff in Hb. exfalso. eapply Qlt_not_le; eassumption.
Qed.

Lemma Contains_spec r x y :
  Contains r x y = true <->
  (X r <= x /\ x < X r + Width r /\ Y r <= y /\ y < Y r + Height r)%Q.
Proof.
  unfold Contains. rewrite !andb_true_iff, !Qle_bool_iff, !Qltb_lt. tauto.
Qed.

Lemma quadrant_cover b x y :
  Contains b x y = true ->
  Contains (quadrant b 0) x y = true \/ Contains (quadrant b 1) x y = true \/
  Contains (quadrant b 2) x y = true \/ Contains (quadrant b 3) x y = true.
Proof.
  rewrite !Contains_spec. unfold quadrant. simpl. unfold Qdiv.
  change (/ 2)%Q with (1 # 2)%Q. intros (H1 & H2 & H3 & H4).
  destruct (Qlt_le_dec x (X b + Width b * (1 # 2))) as [Hx|Hx];
    destruct (Qlt_le_dec y (Y b + Height b * (1 # 2))) as [Hy|Hy].
  - left. repeat split; lra.
  - right. right. left. repeat split; lra.
  - right. left. repeat split; lra.
  - right. right. right. repeat split; lra.
Qed.



(** *** Quadtree *)

Definition boundsOf (qt : QuadTree) : Rectangle :=
  match qt with
  | Leaf b _ _ => b
  | Quad b _ _ _ _ _ _ => b
  end.

Definition inside (b : Rectangle) (p : SpatialPoint) : Prop :=
  Contains b (PX p) (PY p) = true.

(** A point is stored somewhere in the tree. *)
Fixpoint stored (qt : QuadTree) (p : SpatialPoint) : Prop :=
  match qt with
  | Leaf _ pts _ => In p pts
  | Quad _ pts c0 c1 c2 c3 _ =>
      In p pts \/ stored c0 p \/ stored c1 p \/ stored c2 p \/ stored c3 p
  end.

(** Shape invariant: positive capacities, points inside the bounds of their
    node, children on the four quadrants of their parent. *)
Fixpoint wf (qt : QuadTree) : Prop :=
  match qt with
  | Leaf b pts cap => 0 < cap /\ Forall (inside b) pts
  | Quad b pts c0 c1 c2 c3 cap =>
      0 < cap /\ Forall (inside b) pts /\
      boundsOf c0 = quadrant b 0 /\ boundsOf c1 = quadrant b 1 /\
      boundsOf c2 = quadrant b 2 /\ boundsOf c3 = quadrant b 3 /\
      wf c0 /\ wf c1 /\ wf c2 /\ wf c3
  end.



Lemma insertFresh_spec b cap p :
  0 < cap ->
  exists c, insertFresh b cap p = Some c /\ wf c /\ boundsOf c = b /\
            (inside b p -> stored c p).
Proof.
  intros Hcap. unfold insertFresh.
  destruct (Contains b (PX p) (PY p)) eqn:Hc; simpl.
  - apply Z.ltb_lt in Hcap as Hcap'. rewrite Hcap'.
    eexists. split; [reflexivity |]. simpl. repeat split; auto.
  - eexists. split; [reflexivity |]. simpl. repeat split; auto.
    unfold inside. congruence.
Qed.

#[local] Arguments insertFresh : simpl never.
#[local] Arguments quadrant : simpl never.
#[local] Arguments Contains : simpl never.

(** [Insert] returns on a well-formed tree, keeps what was stored, and stores
    the point when it lies inside the bounds of the root. *)
Lemma Insert_spec qt p :
  wf qt ->
  exists qt', Insert qt p = Some qt' /\ wf qt' /\ boundsOf qt' = boundsOf qt /\
              (forall q, stored qt q -> stored qt' q) /\
              (inside (boundsOf qt) p -> stored qt' p).
Proof.
  induction qt as [b pts cap | b pts c0 IH0 c1 IH1 c2 IH2 c3 IH3 cap]; intros Hwf; simpl.
  - destruct Hwf as [Hcap Hall].
    destruct (Contains b (PX p) (PY p)) eqn:Hc; simpl.
    + destruct (len pts <? cap) eqn:Hlen.
      * eexists. split; [reflexivity |]. simpl. repeat split; auto.
        -- apply Forall_app. split; [assumption |]. constructor; [exact Hc | constructor].
        -- intros q Hq. apply in_or_app. now left.
        -- intros _. apply in_or_app. right. now left.
      * destruct (insertFresh_spec (quadrant b 0) cap p Hcap) as (d0 & E0 & W0 & B0 & S0).
        destruct (insertFresh_spec (quadrant b 1) cap p Hcap) as (d1 & E1 & W1 & B1 & S1).
        destruct (insertFresh_spec (quadrant b 2) cap p Hcap) as (d2 & E2 & W2 & B2 & S2).
        destruct (insertFresh_spec (quadrant b 3) cap p Hcap) as (d3 & E3 & W3 & B3 & S3).
        rewrite E0, E1, E2, E3. simpl.
        eexists. split; [reflexivity |]. simpl. repeat split; auto.
        intros _. right.
        destruct (quadrant_cover b _ _ Hc) as [Hq|[Hq|[Hq|Hq]]]; auto 10.
    + eexists. split; [reflexivity |]. simpl. repeat split; auto.
      unfold inside. congruence.
  - destruct Hwf as (Hcap & Hall & B0 & B1 & B2 & B3 & W0 & W1 & W2 & W3).
    destruct (Contains b (PX p) (PY p)) eqn:Hc; simpl.
    + destruct (IH0 W0) as (d0 & E0 & V0 & D0 & K0 & S0).
      destruct (IH1 W1) as (d1 & E1 & V1 & D1 & K1 & S1).
      destruct (IH2 W2) as (d2 & E2 & V2 & D2 & K2 & S2).
      destruct (IH3 W3) as (d3 & E3 & V3 & D3 & K3 & S3).
      rewrite E0, E1, E2, E3. simpl.
      eexists. split; [reflexivity |]. simpl. repeat split; auto; try congruence.
      * intros q [Hq|[Hq|[Hq|[Hq|Hq]]]]; auto 10.
      * intros _. right. unfold inside in *. rewrite B0 in S0. rewrite B1 in S1.
        rewrite B2 in S2. rewrite B3 in S3.
        destruct (quadrant_cover b _ _ Hc) as [Hq|[Hq|[Hq|Hq]]]; auto 10.
    + eexists. split; [reflexivity |]. simpl. repeat split; auto.
      unfold inside. congruence.
Qed.

(** *** Inverted index and manager invariants *)





Section Manager.
Context `{BloomFilter}.

(** [loc] is in the posting list of [token]. *)
Definition posted (inv : gmap string (list Location)) (token : string) (loc : Location)
  : Prop :=
  exists l, inv !! token = Some l /\ In loc l.

Lemma addToken_posted inv token loc : posted (addToken inv token loc) token loc.
Proof.
  unfold posted, addToken. destruct (inv !! token) as [l|] eqn:Hl.
  - exists (l ++ [loc]). rewrite lookup_insert_eq. split; [reflexivity |].
    apply in_or_app. right. now left.
  - exists [loc]. rewrite lookup_insert_eq. split; [reflexivity | now left].
Qed.

Lemma addToken_mono inv token loc t l :
  posted inv t l -> posted (addToken inv token loc) t l.
Proof.
  intros (ls & Hls & Hin). unfold posted, addToken.
  destruct (decide (token = t)) as [->|Hne].
  - rewrite Hls. exists (ls ++ [loc]). rewrite lookup_insert_eq. split; [reflexivity |].
    apply in_or_app. now left.
  - exists ls. split; [| assumption].
    destruct (inv !! token); rewrite lookup_insert_ne; assumption.
Qed.

Lemma addTokens_mono tokens inv loc t l :
  posted inv t l ->
  posted (fold_left (fun inv token => addToken inv token loc) tokens inv) t l.
Proof.
  revert inv. induction tokens as [|token tokens IH]; intros inv Hp; simpl; [assumption |].
  apply IH. now apply addToken_mono.
Qed.

Lemma addTokens_posted tokens inv loc token :
  In token tokens ->
  posted (fold_left (fun inv token => addToken inv token loc) tokens inv) token loc.
Proof.
  revert inv. induction tokens as [|t tokens IH]; intros inv Hin; simpl; [destruct Hin |].
  destruct Hin as [->|Hin].
  - apply addTokens_mono. apply addToken_posted.
  - now apply IH.
Qed.



Definition rootBounds : Rectangle := mkRect 0 0 1000 1000.

(** What every reachable manager satisfies. *)
Definition Good (idx : Manager) : Prop :=
  wf (spatial idx) /\ boundsOf (spatial idx) = rootBounds.

(** Searches only gain answers. *)
Definition Ext (idx idx' : Manager) : Prop :=
  (forall t l, posted (inverted idx) t l -> posted (inverted idx') t l) /\
  (forall q, bloomTest (bloom idx) q = true -> bloomTest (bloom idx') q = true) /\
  (forall p, stored (spatial idx) p -> stored (spatial idx') p).

Lemma Ext_refl idx : Ext idx idx.
Proof. repeat split; auto. Qed.

Lemma Ext_trans a b c : Ext a b -> Ext b c -> Ext a c.
Proof. intros (A1 & A2 & A3) (B1 & B2 & B3). repeat split; auto. Qed.

Definition cellLoc (sheetName : string) (rowIdx colIdx : Z) : Location :=
  mkLoc sheetName (CoordinatesToCellName (colIdx + 1) (rowIdx + 1)) (rowIdx + 1) (colIdx + 1).

Definition cellPoint (sheetName : string) (rowIdx colIdx : Z) (v : string) : SpatialPoint :=
  mkPoint (inject_Z colIdx) (inject_Z rowIdx) v (cellLoc sheetName rowIdx colIdx).

(** The cell at 0-based ([rowIdx], [colIdx]) holding [v] has been indexed. *)
Definition Retrievable (idx : Manager) (sheetName : string) (rowIdx colIdx : Z) (v : string)
  : Prop :=
  (forall token, In token (tokenizeText v) ->
                 posted (inverted idx) token (cellLoc sheetName rowIdx colIdx)) /\
  bloomTest (bloom idx) v = true /\
  (0 <= colIdx < 1000 -> 0 <= rowIdx < 1000 ->
   stored (spatial idx) (cellPoint sheetName rowIdx colIdx v)).

Lemma Retrievable_mono idx idx' s r c v :
  Ext idx idx' -> Retrievable idx s r c v -> Retrievable idx' s r c v.
Proof.
  intros (E1 & E2 & E3) (R1 & R2 & R3). repeat split; auto.
Qed.

Lemma inside_root (r c : Z) s v :
  0 <= c < 1000 -> 0 <= r < 1000 -> inside rootBounds (cellPoint s r c v).
Proof.
  intros Hc Hr. unfold inside. apply Contains_spec. simpl.
  unfold Qle, Qlt. simpl. repeat split; lia.
Qed.

Lemma Good_New : Good NewManager.
Proof.
  unfold Good, NewManager. simpl. repeat split; try lia; constructor.
Qed.

Lemma indexCell_spec idx s r c v :
  Good idx ->
  exists idx', indexCell idx s r c v = Some idx' /\ Good idx' /\ Ext idx idx' /\
               (v <> "" -> Retrievable idx' s r c v).
Proof.
  intros [Hwf Hb]. unfold indexCell.
  destruct (String.eqb_spec v "") as [->|Hne].
  - exists idx. split; [reflexivity |]. split; [split; assumption |].
    split; [apply Ext_refl | congruence].
  - fold (cellLoc s r c). fold (cellPoint s r c v).
    destruct (Insert_spec (spatial idx) (cellPoint s r c v) Hwf)
      as (qt' & HI & Hwf' & Hb' & Hkeep & Hnew).
    rewrite HI. eexists. split; [reflexivity |].
    assert (Htext : isText v = true).
    { unfold isText. apply String.eqb_neq in Hne. rewrite Hne. reflexivity. }
    rewrite Htext. simpl.
    split; [| split; [| intros _]].
    + split; simpl; congruence.
    + repeat split; simpl.
      * intros t l. apply addTokens_mono.
      * intros q. apply bloomTest_mono.
      * assumption.
    + repeat split; simpl.
      * intros token Hin. now apply addTokens_posted.
      * apply bloomTest_add.
      * intros Hc Hr. apply Hnew. rewrite Hb. now apply inside_root.
Qed.

Lemma indexRow_spec row : forall idx s r c0,
  Good idx ->
  exists idx', indexRow idx s r c0 row = Some idx' /\ Good idx' /\ Ext idx idx' /\
               (forall j v, nth_error row j = Some v -> v <> "" ->
                            Retrievable idx' s r (c0 + Z.of_nat j) v).
Proof.
  induction row as [|v0 row IH]; intros idx s r c0 HG; simpl.
  - exists idx. split; [reflexivity |]. split; [assumption |]. split; [apply Ext_refl |].
    intros [|j] v Hnth; discriminate.
  - destruct (indexCell_spec idx s r c0 v0 HG) as (idx1 & H1 & G1 & E1 & R1).
    rewrite H1.
    destruct (IH idx1 s r (c0 + 1) G1) as (idx2 & H2 & G2 & E2 & R2).
    rewrite H2. exists idx2. split; [reflexivity |]. split; [assumption |].
    split; [eapply Ext_trans; eassumption |].
    intros [|j] v Hnth Hne; simpl in Hnth.
    + inversion Hnth; subst v0. replace (c0 + Z.of_nat 0) with c0 by lia.
      eapply Retrievable_mono; [exact E2 | now apply R1].
    + replace (c0 + Z.of_nat (S j)) with (c0 + 1 + Z.of_nat j) by lia.
      now apply R2.
Qed.

Lemma indexRows_spec rows : forall idx s r0,
  Good idx ->
  exists idx', indexRows idx s r0 rows = Some idx' /\ Good idx' /\ Ext idx idx' /\
               (forall i row j v,
                   nth_error rows i = Some row -> nth_error row j = Some v -> v <> "" ->
                   Retrievable idx' s (r0 + Z.of_nat i) (Z.of_nat j) v).
Proof.
  induction rows as [|row0 rows IH]; intros idx s r0 HG; simpl.
  - exists idx. split; [reflexivity |]. split; [assumption |]. split; [apply Ext_refl |].
    intros [|i] row j v Hrow; discriminate.
  - destruct (indexRow_spec row0 idx s r0 0 HG) as (idx1 & H1 & G1 & E1 & R1).
    rewrite H1.
    destruct (IH idx1 s (r0 + 1) G1) as (idx2 & H2 & G2 & E2 & R2).
    rewrite H2. exists idx2. split; [reflexivity |]. split; [assumption |].
    split; [eapply Ext_trans; eassumption |].
    intros [|i] row j v Hrow Hnth Hne; simpl in Hrow.
    + inversion Hrow; subst row0. replace (r0 + Z.of_nat 0) with r0 by lia.
      eapply Retrievable_mono; [exact E2 |]. now apply (R1 j v).
    + replace (r0 + Z.of_nat (S i)) with (r0 + 1 + Z.of_nat i) by lia.
      eapply R2; eassumption.
Qed.

(** Every non-empty cell of every listed sheet. *)
Definition Covered (idx : Manager) (file : File) (sheetNames : list string) : Prop :=
  forall s rows i row j v,
    In s sheetNames -> GetRows file s = Ok rows ->
    nth_error rows i = Some row -> nth_error row j = Some v -> v <> "" ->
    Retrievable idx s (Z.of_nat i) (Z.of_nat j) v.

Lemma indexSheets_spec file sheetNames : forall idx,
  Good idx ->
  exists idx' res, indexSheets idx file sheetNames = Some (idx', res) /\ Good idx' /\
                   Ext idx idx' /\ (res = Ok tt -> Covered idx' file sheetNames).
Proof.
  induction sheetNames as [|s0 rest IH]; intros idx HG; simpl.
  - exists idx, (Ok tt). split; [reflexivity |]. split; [assumption |].
    split; [apply Ext_refl |]. intros _ s rows i row j v [].
  - unfold indexSheet. destruct (GetRows file s0) as [rows0|e] eqn:Hrows.
    + destruct (indexRows_spec rows0 idx s0 0 HG) as (idx1 & H1 & G1 & E1 & R1).
      rewrite H1.
      destruct (IH idx1 G1) as (idx2 & res & H2 & G2 & E2 & R2).
      exists idx2, res. split; [exact H2 |]. split; [assumption |].
      split; [eapply Ext_trans; eassumption |].
      intros Hres s rows i row j v [<-|Hin] Hget Hrow Hnth Hne.
      * rewrite Hrows in Hget. inversion Hget; subst rows0.
        eapply Retrievable_mono; [exact E2 |].
        apply (R1 i row j v Hrow Hnth Hne).
      * eapply R2; eassumption.
    + eexists idx, _. split; [reflexivity |]. split; [assumption |].
      split; [apply Ext_refl | discriminate].
Qed.




End Manager.

(** *** What a query returns, and how many points a tree holds *)





Lemma len_app {A} (l1 l2 : list A) : len (l1 ++ l2) = len l1 + len l2.
Proof. unfold len. rewrite length_app. lia. Qed.




(** *** What the statistics of a built index count *)

Section Statistics.
Context `{BloomFilter}.

(** A non-empty cell at 0-based ([rowIdx], [colIdx]) inside the quadtree. *)
Definition cellCount (rowIdx colIdx : Z) (v : string) : Z :=
  if String.eqb v "" then 0
  else if (0 <=? colIdx) && (colIdx <? 1000) && (0 <=? rowIdx) && (rowIdx <? 1000) then 1
  else 0.

Fixpoint rowCount (rowIdx colIdx : Z) (row : list string) : Z :=
  match row with
  | [] => 0
  | v :: rest => cellCount rowIdx colIdx v + rowCount rowIdx (colIdx + 1) rest
  end.

Fixpoint rowsCount (rowIdx : Z) (rows : list (list string)) : Z :=
  match rows with
  | [] => 0
  | row :: rest => rowCount rowIdx 0 row + rowsCount (rowIdx + 1) rest
  end.

Fixpoint sheetsCount (file : File) (sheetNames : list string) : Z :=
  match sheetNames with
  | [] => 0
  | sheetName :: rest =>
      match GetRows file sheetName with
      | Ok rows => rowsCount 0 rows + sheetsCount file rest
      | Err _ => sheetsCount file rest
      end
  end.







End Statistics.

(** *** Searches return nothing they should not *)



Section Searches.
Context `{BloomFilter}.


Lemma ltb_empty s : String.ltb s "" = false.
Proof. destruct s; reflexivity. Qed.

Lemma Less_bound x v :
  Less x (mkKey v (mkLoc "" "" 0 0)) = Qltb (Value x) v.
Proof.
  unfold Less. cbn [Value Loc SheetName]. rewrite ltb_empty.
  destruct (Qeq_bool (Value x) v) eqn:Heq; [| reflexivity]. cbn [negb].
  apply Qeq_bool_iff in Heq. symmetry. unfold Qltb. apply negb_false_iff.
  apply Qle_bool_iff. rewrite Heq. apply Qle_refl.
Qed.

Lemma SearchNumericRange_In idx min max loc :
  In loc (SearchNumericRange idx min max) <->
  exists key, In key (primary idx) /\ Loc key = loc /\
              (min <= Value key)%Q /\ (Value key < max)%Q.
Proof.
  unfold SearchNumericRange, AscendRange.
  rewrite in_map_iff. split.
  - intros (key & Hloc & Hin). apply filter_In in Hin. destruct Hin as [Hin Hb].
    rewrite !Less_bound in Hb. apply andb_true_iff in Hb. destruct Hb as [Hge Hlt].
    exists key. split; [assumption |]. split; [assumption |].
    apply Qltb_lt in Hlt. split; [| assumption].
    unfold Qltb in Hge. rewrite negb_involutive in Hge. now apply Qle_bool_iff.
  - intros (key & Hin & Hloc & Hge & Hlt). exists key. split; [assumption |].
    apply filter_In. split; [assumption |]. rewrite !Less_bound.
    apply andb_true_iff. split.
    + unfold Qltb. rewrite negb_involutive. now apply Qle_bool_iff.
    + now apply Qltb_lt.
Qed.

(** X20.  [SearchNumericRange] returns the locations of the keys whose value
    lies in the half-open interval from [min] (included) to [max] (excluded);
    with [min = max] it returns nothing. *)
Theorem SearchNumericRange_half_open :
  forall (idx : Manager) (min max : Q),
    (forall loc : Location,
        In loc (SearchNumericRange idx min max) <->
        exists key, In key (primary idx) /\ Loc key = loc /\
                    (min <= Value key)%Q /\ (Value key < max)%Q) /\
    SearchNumericRange idx min min = [].
Proof.
  intros idx min max. split; [intros loc; apply SearchNumericRange_In |].
  destruct (SearchNumericRange idx min min) as [|loc rest] eqn:Hs; [reflexivity |].
  assert (Hin : In loc (SearchNumericRange idx min min)) by (rewrite Hs; now left).
  apply SearchNumericRange_In in Hin. destruct Hin as (key & _ & _ & Hge & Hlt).
  exfalso. eapply Qlt_not_le; eassumption.
Qed.

End Searches.

(** *** Tokens *)















Section TokenSearch.
Context `{BloomFilter}.


End TokenSearch.

(** *** A concrete workbook *)

(** An exact set used as prefilter: a Bloom filter without false positives. *)
Definition exactTest (f : list string) (s : string) : bool := List.existsb (String.eqb s) f.

Lemma exactTest_add f s : exactTest (s :: f) s = true.
Proof. unfold exactTest. simpl. now rewrite String.eqb_refl. Qed.

Lemma exactTest_mono f s t : exactTest f s = true -> exactTest (t :: f) s = true.
Proof. unfold exactTest. simpl. intros ->. apply orb_true_r. Qed.

#[local] Instance exactFilter : BloomFilter := {|
  filter := list string;
  bloomNew := [];
  bloomAdd := fun f s => s :: f;
  bloomTest := exactTest;
  bloomTest_add := exactTest_add;
  bloomTest_mono := exactTest_mono
|}.

(** Sheet [S] has the row [to | 42 | net margin]; sheet [T] has one cell,
    [deep], in its 1001st row. *)
Definition sampleFile : File :=
  mkFile ["S"; "T"]
         (fun name =>
            if String.eqb name "S" then Ok [["to"; "42"; "net margin"]]
            else if String.eqb name "T" then Ok (List.repeat [] 1000 ++ [["deep"]])
            else Err "sheet does not exist").










End IndexFacts.

(** ** Cursor codec (internal/cursor) *)

Module Cursor.

Definition CURSOR_VERSION : Z := 1.

(** models.Window *)
Record Window := mkWindow {
  StartRow : Z;
  EndRow : Z;
  StartCol : Z;
  EndCol : Z
}.

(** models.CursorData; [WindowInfo] is a pointer, nil when absent. *)
Record CursorData := mkCursorData {
  ChunkID : string;
  Offset : Z;
  Version : Z;
  Checksum : string;
  Timestamp : Z;
  WindowInfo : option Window
}.

Definition int64 (z : Z) : Prop := - 2 ^ 63 <= z < 2 ^ 63.

(** [time.Time.Unix] of a clock reading in nanoseconds. *)
Definition Unix (now : Z) : Z := now / Second.

(** The two standard-library codecs the package calls, with the round trips
    they guarantee: [encoding/json] on a [CursorData] whose strings it can
    carry unchanged and whose integers fit their Go types, and
    [base64.URLEncoding] on any text. *)
Class Codec := {
  carried : string -> Prop;
  jsonMarshal : CursorData -> string;
  jsonUnmarshal : string -> option CursorData;
  EncodeToString : string -> string;
  DecodeString : string -> option string;
  json_round_trip :
    forall d, carried (ChunkID d) -> carried (Checksum d) ->
              int64 (Offset d) -> int64 (Version d) -> int64 (Timestamp d) ->
              match WindowInfo d with
              | Some w => int64 (StartRow w) /\ int64 (EndRow w) /\
                          int64 (StartCol w) /\ int64 (EndCol w)
              | None => True
              end ->
              jsonUnmarshal (jsonMarshal d) = Some d;
  json_not_empty : forall d, jsonMarshal d <> "";
  base64_round_trip : forall s, DecodeString (EncodeToString s) = Some s;
  base64_not_empty : forall s, s <> "" -> EncodeToString s <> ""
}.

Section WithCodec.
Context `{Codec}.

(** The manager holds [version]; [NewManager] sets it to [CURSOR_VERSION]. *)
Record Manager := mkManager { version : Z }.

Definition NewManager : Manager := mkManager CURSOR_VERSION.

(** [json.Marshal] cannot fail on a [CursorData], so the error branch of the
    source is never taken. *)
Definition GenerateCursor (m : Manager) (data : CursorData) (now : Z) : string :=
  let data := mkCursorData (ChunkID data) (Offset data) (version m) (Checksum data)
                           (Unix now) (WindowInfo data) in
  EncodeToString (jsonMarshal data).

Definition ParseCursor (m : Manager) (cursor : string) (now : Z) : result CursorData :=
  if String.eqb cursor "" then Err "empty cursor"
  else
    match DecodeString cursor with
    | None => Err "invalid cursor format"
    | Some decoded =>
        match jsonUnmarshal decoded with
        | None => Err "cursor parsing failed"
        | Some data =>
            if negb (Version data =? version m) then Err "cursor version mismatch"
            else
              let maxAge := 24 * 60 * 60 in
              if maxAge <? wrap64 (Unix now - Timestamp data) then Err "cursor expired"
              else Ok data
        end
    end.

Definition CreateChunkCursor (m : Manager) (chunkID : string) (offset : Z)
    (checksum : string) (window : option Window) (now : Z) : string :=
  GenerateCursor m (mkCursorData chunkID offset 0 checksum 0 window) now.

Definition CreateNavigationCursor (m : Manager) (chunkID : string) (sheetIndex : Z)
    (checksum : string) (now : Z) : string :=
  GenerateCursor m (mkCursorData chunkID sheetIndex 0 checksum 0 None) now.

Definition CreateQueryCursor (m : Manager) (query : string) (offset : Z)
    (checksum : string) (window : option Window) (now : Z) : string :=
  GenerateCursor m (mkCursorData query offset 0 checksum 0 window) now.





End WithCodec.

End Cursor.

(** ** Tool handlers (internal/server: build_navigation_map, query_data) *)

Module Tools.

(** A decoded JSON-RPC parameter ([interface{}]): JSON numbers arrive as
    [float64]; a Go [int] only appears in the handler's own defaults or from a
    caller inside the process. *)
#[warnings="-register-all"]
Inductive param :=
| PNil
| PBool (b : bool)
| PFloat (f : float)
| PInt (n : Z)
| PString (s : string)
| PSlice (items : list param)
| PMap (fields : list (string * param)).

Definition params := list (string * param).

Fixpoint pget (m : params) (k : string) : option param :=
  match m with
  | [] => None
  | (k', v) :: m' => if String.eqb k' k then Some v else pget m' k
  end.

Fixpoint pset (m : params) (k : string) (v : param) : params :=
  match m with
  | [] => [(k, v)]
  | (k', v') :: m' => if String.eqb k' k then (k, v) :: m' else (k', v') :: pset m' k v
  end.

(** [for k, v := range src { dst[k] = v }] *)
Definition overlay (dst src : params) : params :=
  fold_left (fun acc kv => pset acc (fst kv) (snd kv)) src dst.

(** Type assertions [m[k].(T)]. *)
Definition asString (v : option param) : option string :=
  match v with Some (PString s) => Some s | _ => None end.
Definition asFloat (v : option param) : option float :=
  match v with Some (PFloat f) => Some f | _ => None end.
Definition asBool (v : option param) : option bool :=
  match v with Some (PBool b) => Some b | _ => None end.
Definition asInt (v : option param) : option Z :=
  match v with Some (PInt n) => Some n | _ => None end.
Definition asMap (v : option param) : option params :=
  match v with Some (PMap m) => Some m | _ => None end.

(** [strings.Contains] and [strings.ToUpper] (ASCII). *)
Definition Contains (s substr : string) : bool :=
  match String.index 0 substr s with
  | Some _ => true
  | None => false
  end.

Definition upperByte (a : Ascii.ascii) : Ascii.ascii :=
  let n := Ascii.nat_of_ascii a in
  if ((97 <=? n) && (n <=? 122))%nat then Ascii.ascii_of_nat (n - 32) else a.

Fixpoint ToUpper (s : string) : string :=
  match s with
  | EmptyString => EmptyString
  | String a s' => String (upperByte a) (ToUpper s')
  end.

(** *** Response shapes (internal/models) *)

Record SheetMetadata := mkSheetMetadata {
  Rows : Z;
  Cols : Z;
  DataDensity : float;
  HasFormulas : bool;
  MemoryFootprint : Z
}.

Record Zone := mkZone {
  ZoneID : string;
  Range : string;
  WindowSize : Z;
  ZoneCompressed : bool
}.

Record SheetIndex := mkSheetIndex {
  SheetID : string;
  Name : string;
  Metadata : SheetMetadata;
  Zones : list Zone;
  KeyPoints : list string;
  HotZones : list string
}.

Record ChunkInfo := mkChunkInfo {
  Current : string;
  TotalChunks : Z;
  SheetsInChunk : list string;
  StreamingActive : bool
}.

Record SearchIndex := mkSearchIndex {
  BTreeItems : Z;
  InvertedTokens : Z;
  SpatialPoints : Z
}.

Record DeltaTracking := mkDeltaTracking {
  LastUpdate : Z;
  ChangedCells : list string;
  RebuildRequired : bool
}.

Record NavigationIndex := mkNavigationIndex {
  ChecksumMatch : bool;
  InvalidationRequired : bool;
  NavChunkInfo : ChunkInfo;
  NavSheetIndex : list SheetIndex;
  NavSearchIndex : SearchIndex;
  NavDeltaTracking : DeltaTracking
}.

Record TokenTracking := mkTokenTracking {
  Used : Z;
  Remaining : Z;
  CompressionApplied : string;
  Optimization : string;
  ActualCount : Z
}.

Record Pagination := mkPagination {
  CurrentCursor : string;
  NextCursor : string;
  PreviousCursor : string;
  RemainingChunks : Z;
  EstimatedTimeRemaining : Z
}.

Record CacheControl := mkCacheControl {
  TTLSeconds : Z;
  InvalidateOnChecksum : bool;
  HotDataExtension : bool;
  CacheKey : string
}.

Record BuildNavigationResponse := mkBuildNavigationResponse {
  RespNavigationIndex : NavigationIndex;
  RespTokenTracking : TokenTracking;
  RespPagination : Pagination;
  RespCacheControl : CacheControl
}.

Record QueryExecution := mkQueryExecution {
  UsedIndex : bool;
  IndexType : string;
  ChunksScanned : list string;
  Strategy : string;
  BloomFilterUsed : bool
}.

(** [DataChunk.DataChunk]: the placeholder string of the index path, or the
    rows read by the scan path. *)
Inductive payload :=
| SampleValue (s : string)
| SheetRows (rows : list (list param)).

Record ChunkMetadata := mkChunkMetadata {
  ChunkSize : Z;
  Truncated : bool;
  Compressed : bool
}.

Record Context_ := mkContext {
  Headers : list string;
  Nearby : params;
  Formulas : list string
}.

Record DataChunk := mkDataChunk {
  Location : string;
  Window : string;
  DataChunkValue : payload;
  ChunkMeta : ChunkMetadata;
  ChunkContext : Context_
}.

Record StrategyConfig := mkStrategyConfig {
  MaxResults : Z;
  WindowRows : Z;
  Compression : string
}.

Record ModelContext := mkModelContext {
  Detected : string;
  Limit : Z;
  ModelUsed : Z;
  PreciseCount : Z
}.

Record AdaptiveResponse := mkAdaptiveResponse {
  AdaptiveModelContext : ModelContext;
  IfSonnetBeta : StrategyConfig;
  IfStandard : StrategyConfig;
  IfOpus : StrategyConfig
}.

Record IndexUpdates := mkIndexUpdates {
  NewPatterns : list string;
  SuggestedChunks : list string;
  DeltaApplied : bool
}.

Record QueryDataResponse := mkQueryDataResponse {
  RespQueryExecution : QueryExecution;
  RespData : list DataChunk;
  RespAdaptive : AdaptiveResponse;
  RespQueryPagination : Pagination;
  RespIndexUpdates : IndexUpdates;
  QueryTimeMs : Z
}.

(** What the handlers reach outside the modelled packages: the workbook
    reader, the per-sheet analysis behind [buildNavigationIndex] and the token
    count behind [calculateTokenTracking] and [applyAdaptiveResponse] (no
    statement below depends on their results), and the workbook read by
    [extractRealSheetData] from its fixed path. *)
Record World := mkWorld {
  OpenFile : string -> result Index.File;
  buildNavigationIndex :
    Index.File -> string -> Z -> Z -> bool -> bool -> outcome (result NavigationIndex);
  calculateTokenTracking : NavigationIndex -> option params -> result TokenTracking;
  extractRealSheetData : string -> Z -> result (list (list param));
  countResults : list DataChunk -> result Z
}.

Section WithWorld.
Context (W : World) `{Cursor.Codec} `{Index.BloomFilter}.

Definition cursorManager : Cursor.Manager := Cursor.NewManager.

(** [calculateFileChecksum]: the path is not read. *)
Definition calculateFileChecksum (filepath : string) : result string :=
  Ok "dummy_checksum".

Definition createCacheControl (checksum : string) (checksumMatch : bool) : CacheControl :=
  let ttl := if checksumMatch then 600 else 300 in
  mkCacheControl ttl true checksumMatch ("nav_" +:+ checksum).

(** Go integer division: a zero divisor panics. *)
Definition goDiv (a b : Z) : outcome Z :=
  if b =? 0 then Panic else Done (wrap64 (Z.quot a b)).

Definition createPagination (currentChunk : string) (totalItems windowSize now : Z)
  : outcome Pagination :=
  match goDiv (wrap64 (wrap64 (totalItems + windowSize) - 1)) windowSize with
  | Panic => Panic
  | Done totalChunks =>
      if negb (String.eqb currentChunk "")
      then
        let nextCursor := Cursor.CreateNavigationCursor cursorManager "next_chunk" 1 "" now in
        let previousCursor :=
          Cursor.CreateNavigationCursor cursorManager "prev_chunk" 0 "" now in
        let remainingChunks := wrap64 (totalChunks - 1) in
        Done (mkPagination currentChunk nextCursor previousCursor remainingChunks
                           (wrap64 (remainingChunks * 2)))
      else Done (mkPagination currentChunk "" "" 0 0)
  end.

Definition BuildNavigationMap (p : params) (now : Z)
  : outcome (result BuildNavigationResponse) :=
  match asString (pget p "filepath") with
  | None => Done (Err "filepath parameter is required")
  | Some filepath =>
  match asString (pget p "checksum") with
  | None => Done (Err "checksum parameter is required")
  | Some checksum =>
  let chunkCursor := match asString (pget p "chunk_cursor") with Some cc => cc | None => "" end in
  let windowSize :=
    match asFloat (pget p "window_size") with Some ws => int_of_float64 ws | None => 1000 end in
  let streamResults :=
    match asBool (pget p "stream_results") with Some sr => sr | None => false end in
  let tokenConfig := asMap (pget p "token_config") in
  match OpenFile W filepath with
  | Err e => Done (Err ("failed to open XLSM file: " +:+ e))
  | Ok file =>
  match calculateFileChecksum filepath with
  | Err e => Done (Err ("failed to calculate current checksum: " +:+ e))
  | Ok currentChecksum =>
  let checksumMatch := String.eqb currentChecksum checksum in
  let invalidationRequired := negb checksumMatch in
  let parsed :=
    if negb (String.eqb chunkCursor "")
    then match Cursor.ParseCursor cursorManager chunkCursor now with
         | Err e => Err e
         | Ok cursorData => Ok (Cursor.ChunkID cursorData, Cursor.Offset cursorData)
         end
    else Ok ("", 0) in
  match parsed with
  | Err e => Done (Err ("invalid cursor: " +:+ e))
  | Ok (currentChunk, offset) =>
  match buildNavigationIndex W file currentChunk offset windowSize streamResults
                             checksumMatch with
  | Panic => Panic
  | Done (Err e) => Done (Err ("failed to build navigation index: " +:+ e))
  | Done (Ok navigationIndex) =>
  let navigationIndex :=
    mkNavigationIndex checksumMatch invalidationRequired (NavChunkInfo navigationIndex)
                      (NavSheetIndex navigationIndex) (NavSearchIndex navigationIndex)
                      (NavDeltaTracking navigationIndex) in
  match calculateTokenTracking W navigationIndex tokenConfig with
  | Err e => Done (Err ("failed to calculate token tracking: " +:+ e))
  | Ok tokenTracking =>
  match createPagination currentChunk (len (NavSheetIndex navigationIndex)) windowSize now with
  | Panic => Panic
  | Done pagination =>
      Done (Ok (mkBuildNavigationResponse navigationIndex tokenTracking pagination
                  (createCacheControl checksum checksumMatch)))
  end end end end end end end end.

(** *** query_data *)

(** [parseNavigationIndex]: the argument is not read. *)
#[warnings="-inexact-float"]
Definition parseNavigationIndex (data : params) : result NavigationIndex :=
  Ok (mkNavigationIndex true false
        (mkChunkInfo "chunk_0" 1 ["Sheet1"] false)
        [mkSheetIndex "sheet_0" "Sheet1" (mkSheetMetadata 1000 26 0.5%float true 1024000)
                      [] [] []]
        (mkSearchIndex 0 0 0)
        (mkDeltaTracking 0 [] false)).

Definition determineQueryStrategy (query : string) (navIndex : NavigationIndex)
    (hints : params) : string :=
  let preferSpeed := match asBool (pget hints "prefer_speed") with Some ps => ps | None => true end in
  if Contains query "=" && preferSpeed then "index"
  else if Contains query "*" || Contains query "?" then "scan"
  else if 10 <? len (NavSheetIndex navIndex) then "hybrid"
  else "scan".

Definition detectIndexType (query : string) : string :=
  if Contains query ">=" || Contains query "<=" || Contains query ">" || Contains query "<"
  then "btree"
  else if Contains query "NEAR" || Contains query "WITHIN" then "spatial"
  else "inverted".

Definition isNumericRangeQuery (query : string) : bool :=
  Contains query ">=" || Contains query "<=" || Contains query ">" || Contains query "<" ||
  Contains query "BETWEEN".

Definition parseNumericRange (query : string) : result (Q * Q) :=
  if Contains query "BETWEEN" then Ok (10, 20)%Q
  else if Contains query ">=" then Ok (10, 999999)%Q
  else Ok (0, 100)%Q.

Definition isSpatialQuery (query : string) : bool :=
  Contains query "NEAR" || Contains query "WITHIN" || Contains query "RANGE".

Definition isTextQuery (query : string) : bool :=
  negb (isNumericRangeQuery query) && negb (isSpatialQuery query).

Definition parseSpatialBounds (query : string) : result Index.Rectangle :=
  Ok (Index.mkRect 0 0 100 100).

Definition maxResultsOf (windowConfig : params) : Z :=
  match asInt (pget windowConfig "max_results") with Some mr => mr | None => 100 end.

Definition locationChunk (loc : Index.Location) : DataChunk :=
  mkDataChunk (Index.SheetName loc +:+ "!" +:+ Index.CellRef loc)
              (Index.CellRef loc +:+ ":" +:+ Index.CellRef loc)
              (SampleValue "sample_value")
              (mkChunkMetadata 64 false false)
              (mkContext [] [] []).

(** The loop of [convertLocationsToDataChunks], [i] the index of the head. *)
Fixpoint convertFrom (locations : list Index.Location) (i maxResults : Z) : list DataChunk :=
  match locations with
  | [] => []
  | loc :: rest =>
      if maxResults <=? i then []
      else locationChunk loc :: convertFrom rest (i + 1) maxResults
  end.

Definition convertLocationsToDataChunks (locations : list Index.Location)
    (windowConfig : params) : list DataChunk :=
  convertFrom locations 0 (maxResultsOf windowConfig).

(** [results[:maxResults]]; a negative bound panics. *)
Definition capResults (results : list DataChunk) (maxResults : Z) : outcome (list DataChunk) :=
  if maxResults <? len results
  then if maxResults <? 0 then Panic else Done (firstn (Z.to_nat maxResults) results)
  else Done results.

Definition executeIndexQuery (query : string) (indexManager : Index.Manager)
    (navIndex : NavigationIndex) (windowConfig : params)
  : outcome (result (list DataChunk)) :=
  let found : result (list DataChunk) :=
    if isNumericRangeQuery query then
      match parseNumericRange query with
      | Err e => Err e
      | Ok (min, max) =>
          Ok (convertLocationsToDataChunks
                (Index.SearchNumericRange indexManager min max) windowConfig)
      end
    else if isTextQuery query then
      Ok (convertLocationsToDataChunks (Index.SearchText indexManager query) windowConfig)
    else if isSpatialQuery query then
      match parseSpatialBounds query with
      | Err e => Err e
      | Ok bounds =>
          Ok (convertLocationsToDataChunks
                (Index.SearchSpatial indexManager bounds) windowConfig)
      end
    else Ok [] in
  match found with
  | Err e => Done (Err e)
  | Ok results =>
      match capResults results (maxResultsOf windowConfig) with
      | Panic => Panic
      | Done results => Done (Ok results)
      end
  end.

(** The loop of [executeScanQuery], [i] the index of the head. *)
Fixpoint scanFrom (query : string) (sheets : list SheetIndex) (i maxSheetsPerCall
    maxRowsPerSheet : Z) (results : list DataChunk) (chunksScanned : list string)
  : list DataChunk * list string :=
  match sheets with
  | [] => (results, chunksScanned)
  | sheet :: rest =>
      if maxSheetsPerCall <=? i then (results, chunksScanned)
      else
        let chunksScanned := chunksScanned ++ [SheetID sheet] in
        if Contains (ToUpper (Name sheet)) (ToUpper query) then
          match extractRealSheetData W (Name sheet) maxRowsPerSheet with
          | Err _ =>
              scanFrom query rest (i + 1) maxSheetsPerCall maxRowsPerSheet results chunksScanned
          | Ok realData =>
              let dataChunk :=
                mkDataChunk (Name sheet +:+ "!A1") ("A1:Z" +:+ pretty maxRowsPerSheet)
                  (SheetRows realData)
                  (mkChunkMetadata (wrap64 (len realData * 100))
                                   (maxRowsPerSheet <? Rows (Metadata sheet)) false)
                  (mkContext ["Rayons"; "Ventes_HT"; "Marges"; "Taux_Marge"; "Demarque";
                              "Frais"; "Marge_Theorique"]
                             [("sheet_data", PInt (len realData))] []) in
              scanFrom query rest (i + 1) maxSheetsPerCall maxRowsPerSheet
                       (results ++ [dataChunk]) chunksScanned
          end
        else scanFrom query rest (i + 1) maxSheetsPerCall maxRowsPerSheet results chunksScanned
  end.

Definition executeScanQuery (query : string) (navIndex : NavigationIndex)
    (windowConfig : params) : list DataChunk * list string :=
  let maxSheetsPerCall :=
    match asInt (pget windowConfig "max_sheets_per_call") with Some ms => ms | None => 10 end in
  let maxRowsPerSheet :=
    match asInt (pget windowConfig "max_rows_per_sheet") with Some mr => mr | None => 1000 end in
  scanFrom query (NavSheetIndex navIndex) 0 maxSheetsPerCall maxRowsPerSheet [] [].

Definition executeQuery (query : string) (navIndex : NavigationIndex) (offset : Z)
    (window : option Cursor.Window) (windowConfig hints : params)
  : outcome (result (QueryExecution * list DataChunk)) :=
  let strategy := determineQueryStrategy query navIndex hints in
  let indexManager := Index.NewManager in
  if String.eqb strategy "index" then
    match executeIndexQuery query indexManager navIndex windowConfig with
    | Panic => Panic
    | Done (Err e) => Done (Err e)
    | Done (Ok results) =>
        Done (Ok (mkQueryExecution true (detectIndexType query) [] strategy true, results))
    end
  else if String.eqb strategy "scan" then
    let '(results, chunksScanned) := executeScanQuery query navIndex windowConfig in
    Done (Ok (mkQueryExecution false "none" chunksScanned strategy false, results))
  else if String.eqb strategy "hybrid" then
    match executeIndexQuery query indexManager navIndex windowConfig with
    | Panic => Panic
    | Done r =>
        let indexResults := match r with Ok rs => rs | Err _ => [] end in
        let '(scanResults, chunksScanned) := executeScanQuery query navIndex windowConfig in
        Done (Ok (mkQueryExecution true "hybrid" chunksScanned strategy true,
                  indexResults ++ scanResults))
    end
  else Done (Err ("unknown query strategy: " +:+ strategy)).

Definition applyAdaptiveResponse (results : list DataChunk) (tokenAware : bool)
  : result AdaptiveResponse :=
  if negb tokenAware
  then Ok (mkAdaptiveResponse (mkModelContext "" 0 0 0) (mkStrategyConfig 0 0 "")
                              (mkStrategyConfig 0 0 "") (mkStrategyConfig 0 0 ""))
  else
    match countResults W results with
    | Err e => Err e
    | Ok tokenCount =>
        Ok (mkAdaptiveResponse (mkModelContext "sonnet-4" 200000 tokenCount tokenCount)
                               (mkStrategyConfig 500 5000 "light")
                               (mkStrategyConfig 100 1000 "medium")
                               (mkStrategyConfig 100 800 "aggressive"))
    end.

Definition createQueryPagination (query : string) (offset resultCount : Z)
    (windowConfig : params) (now : Z) : Pagination :=
  let maxResults := maxResultsOf windowConfig in
  let hasMore := maxResults <=? resultCount in
  let nextCursor :=
    if hasMore
    then Cursor.CreateQueryCursor cursorManager query (wrap64 (offset + maxResults)) ""
           (Some (Cursor.mkWindow (wrap64 (offset + maxResults))
                                  (wrap64 (offset + wrap64 (maxResults * 2))) 0 100)) now
    else "" in
  mkPagination "" nextCursor "" 0 0.

Definition detectIndexUpdates (query : string) (results : list DataChunk) : IndexUpdates :=
  let newPatterns := if 50 <? len results then ["high_volume_query"] else [] in
  let newPatterns :=
    if Contains query "SUM" || Contains query "COUNT"
    then newPatterns ++ ["aggregation_query"] else newPatterns in
  mkIndexUpdates newPatterns [] false.

Definition defaultWindowConfig : params :=
  [("max_rows_per_sheet", PInt 1000); ("max_sheets_per_call", PInt 10);
   ("max_results", PInt 100); ("stream_large_results", PBool false)].

Definition defaultHints : params :=
  [("prefer_speed", PBool true); ("prefer_completeness", PBool false)].

(** [now] is the clock at entry, [later] the clock when the response is
    assembled. *)
Definition QueryData (p : params) (now later : Z) : outcome (result QueryDataResponse) :=
  match asString (pget p "query") with
  | None => Done (Err "query parameter is required")
  | Some query =>
  match asMap (pget p "navigation_index") with
  | None => Done (Err "navigation_index parameter is required")
  | Some navigationIndexData =>
  let continuationCursor :=
    match asString (pget p "continuation_cursor") with Some cc => cc | None => "" end in
  let windowConfig :=
    match asMap (pget p "window_config") with
    | Some wc => overlay defaultWindowConfig wc
    | None => defaultWindowConfig
    end in
  let tokenAware := match asBool (pget p "token_aware") with Some ta => ta | None => true end in
  let optimizationHints :=
    match asMap (pget p "optimization_hints") with
    | Some oh => overlay defaultHints oh
    | None => defaultHints
    end in
  match parseNavigationIndex navigationIndexData with
  | Err e => Done (Err ("failed to parse navigation index: " +:+ e))
  | Ok navigationIndex =>
  let parsed :=
    if negb (String.eqb continuationCursor "")
    then match Cursor.ParseCursor cursorManager continuationCursor now with
         | Err e => Err e
         | Ok cursorData => Ok (Cursor.Offset cursorData, Cursor.WindowInfo cursorData)
         end
    else Ok (0, None) in
  match parsed with
  | Err e => Done (Err ("invalid continuation cursor: " +:+ e))
  | Ok (offset, window) =>
  match executeQuery query navigationIndex offset window windowConfig optimizationHints with
  | Panic => Panic
  | Done (Err e) => Done (Err ("failed to execute query: " +:+ e))
  | Done (Ok (queryExecution, results)) =>
  match applyAdaptiveResponse results tokenAware with
  | Err e => Done (Err ("failed to apply adaptive response: " +:+ e))
  | Ok adaptiveResponse =>
      Done (Ok (mkQueryDataResponse queryExecution results adaptiveResponse
                  (createQueryPagination query offset (len results) windowConfig later)
                  (detectIndexUpdates query results)
                  (Z.quot (later - now) 1000000)))
  end end end end end end.

End WithWorld.

End Tools.

(** ** Dispatch and the two transports (internal/server/server.go) *)

Module Server.
Import Tools.

Record MCPRequest := mkRequest {
  Method : string;
  Params : params;
  ID : param
}.

Record MCPError := mkError {
  Code : Z;
  Message : string
}.

Section WithHandlers.
(** [analyze_file] is not modelled beyond its signature; [canMarshal] tells
    whether [json.Marshal] accepts a result (an error reply, made of the
    request id, a code and a message, always marshals). *)
Context (W : World) `{Cursor.Codec} `{Index.BloomFilter}
        {AnalyzeFileResponse : Type}
        (AnalyzeFile : params -> Z -> outcome (result AnalyzeFileResponse)).

Inductive answer :=
| Analysis (r : AnalyzeFileResponse)
| Navigation (r : BuildNavigationResponse)
| Query (r : QueryDataResponse)
| ToolList
| ServerInfo
| Initialized.

Record MCPResponse := mkResponse {
  Result : option answer;
  Error : option MCPError;
  RespID : param
}.

Context (canMarshal : answer -> bool).

Definition lift {A} (f : A -> answer) (o : outcome (result A)) : outcome (result answer) :=
  match o with
  | Panic => Panic
  | Done (Ok a) => Done (Ok (f a))
  | Done (Err e) => Done (Err e)
  end.

Definition routeRequest (req : MCPRequest) (now later : Z) : outcome (result answer) :=
  if String.eqb (Method req) "analyze_file" then lift Analysis (AnalyzeFile (Params req) now)
  else if String.eqb (Method req) "build_navigation_map"
  then lift Navigation (BuildNavigationMap W (Params req) now)
  else if String.eqb (Method req) "query_data"
  then lift Query (QueryData W (Params req) now later)
  else if String.eqb (Method req) "list_tools" then Done (Ok ToolList)
  else if String.eqb (Method req) "get_server_info" then Done (Ok ServerInfo)
  else if String.eqb (Method req) "initialize" then Done (Ok Initialized)
  else Done (Err ("unknown method: " +:+ Method req)).

(** What the HTTP handler writes: a plain 405, or a JSON body with status
    200.  [body] is the request decoded from the POST body, [None] when the
    decoder fails. *)
Inductive httpReply :=
| MethodNotAllowed
| Json (r : MCPResponse).

Definition sendError (id : param) (code : Z) (message : string) : httpReply :=
  Json (mkResponse None (Some (mkError code message)) id).

Definition handleMCPRequest (httpMethod : string) (body : option MCPRequest) (now later : Z)
  : outcome httpReply :=
  if negb (String.eqb httpMethod "POST") then Done MethodNotAllowed
  else
    match body with
    | None => Done (sendError PNil (-32700) "Parse error")
    | Some mcpReq =>
        match routeRequest mcpReq now later with
        | Panic => Panic
        | Done (Err e) => Done (sendError (ID mcpReq) (-32603) e)
        | Done (Ok result) => Done (Json (mkResponse (Some result) None (ID mcpReq)))
        end
    end.

(** One turn of the loop of [StartStdio] on a line of standard input:
    the JSON object printed on standard output, if any.  [parsed] is the
    request decoded from the line, [None] when [json.Unmarshal] fails. *)
Definition stdioTurn (line : string) (parsed : option MCPRequest) (now later : Z)
  : outcome (option MCPResponse) :=
  if String.eqb line "" then Done None
  else
    match parsed with
    | None => Done (Some (mkResponse None (Some (mkError (-32700) "Parse error")) PNil))
    | Some mcpReq =>
        match routeRequest mcpReq now later with
        | Panic => Panic
        | Done (Err e) =>
            Done (Some (mkResponse None (Some (mkError (-32000) e)) (ID mcpReq)))
        | Done (Ok result) =>
            if canMarshal result
            then Done (Some (mkResponse (Some result) None (ID mcpReq)))
            else Done (Some (mkResponse None (Some (mkError (-32603) "Internal error"))
                                        (ID mcpReq)))
        end
    end.

End WithHandlers.

End Server.

(** ** The codecs, concretely

    [base64.URLEncoding] (RFC 4648, URL-safe alphabet, padded) and the JSON
    text [encoding/json] writes for a [CursorData], with a reader for that
    text.  The JSON part covers ASCII strings; it writes the fields in
    declaration order without white space, as [json.Marshal] does, and the
    reader accepts that layout. *)

Module Bytes.

Definition code (a : Ascii.ascii) : Z := Z.of_N (Ascii.N_of_ascii a).
Definition byte (n : Z) : Ascii.ascii := Ascii.ascii_of_N (Z.to_N n).

Lemma code_byte n : 0 <= n < 256 -> code (byte n) = n.
Proof.
  intros Hn. unfold code, byte. rewrite Ascii.N_ascii_embedding by lia. lia.
Qed.

Lemma byte_code a : byte (code a) = a.
Proof. unfold byte, code. rewrite N2Z.id. apply Ascii.ascii_N_embedding. Qed.

Lemma code_lt a : 0 <= code a < 256.
Proof. unfold code. pose proof (Ascii.N_ascii_bounded a). lia. Qed.

End Bytes.

Module Base64.
Import Bytes.

(** The URL-safe alphabet of RFC 4648. *)
Definition encodeChar (n : Z) : Ascii.ascii :=
  (if n <? 26 then byte (65 + n)
   else if n <? 52 then byte (97 + (n - 26))
   else if n <? 62 then byte (48 + (n - 52))
   else if n =? 62 then byte 45
   else byte 95).

Definition decodeChar (a : Ascii.ascii) : option Z :=
  let n := code a in
  (if (65 <=? n) && (n <=? 90) then Some (n - 65)
   else if (97 <=? n) && (n <=? 122) then Some (n - 97 + 26)
   else if (48 <=? n) && (n <=? 57) then Some (n - 48 + 52)
   else if n =? 45 then Some 62
   else if n =? 95 then Some 63
   else None).

Definition pad : Ascii.ascii := byte 61.

Fixpoint EncodeToString (s : string) : string :=
  match s with
  | EmptyString => EmptyString
  | String b0 EmptyString =>
      let n0 := code b0 in
      String (encodeChar (n0 / 4)) (String (encodeChar ((n0 mod 4) * 16))
        (String pad (String pad EmptyString)))
  | String b0 (String b1 EmptyString) =>
      let n0 := code b0 in let n1 := code b1 in
      String (encodeChar (n0 / 4)) (String (encodeChar ((n0 mod 4) * 16 + n1 / 16))
        (String (encodeChar ((n1 mod 16) * 4)) (String pad EmptyString)))
  | String b0 (String b1 (String b2 rest)) =>
      let n0 := code b0 in let n1 := code b1 in let n2 := code b2 in
      String (encodeChar (n0 / 4)) (String (encodeChar ((n0 mod 4) * 16 + n1 / 16))
        (String (encodeChar ((n1 mod 16) * 4 + n2 / 64)) (String (encodeChar (n2 mod 64))
          (EncodeToString rest))))
  end.

Fixpoint DecodeString (s : string) : option string :=
  match s with
  | EmptyString => Some EmptyString
  | String c0 (String c1 (String c2 (String c3 rest))) =>
      match decodeChar c0, decodeChar c1 with
      | Some v0, Some v1 =>
          let b0 := byte (v0 * 4 + v1 / 16) in
          if Ascii.eqb c2 pad then
            if Ascii.eqb c3 pad then
              match rest with
              | EmptyString => Some (String b0 EmptyString)
              | _ => None
              end
            else None
          else
            match decodeChar c2 with
            | Some v2 =>
                let b1 := byte ((v1 mod 16) * 16 + v2 / 4) in
                if Ascii.eqb c3 pad then
                  match rest with
                  | EmptyString => Some (String b0 (String b1 EmptyString))
                  | _ => None
                  end
                else
                  match decodeChar c3, DecodeString rest with
                  | Some v3, Some tail =>
                      Some (String b0 (String b1 (String (byte ((v2 mod 4) * 64 + v3)) tail)))
                  | _, _ => None
                  end
            | None => None
            end
      | _, _ => None
      end
  | _ => None
  end.

Lemma decode_encodeChar n : 0 <= n < 64 -> decodeChar (encodeChar n) = Some n.
Proof.
  intros Hn. unfold encodeChar, decodeChar.
  destruct (n <? 26) eqn:H1; [| destruct (n <? 52) eqn:H2; [| destruct (n <? 62) eqn:H3;
    [| destruct (n =? 62) eqn:H4]]];
  rewrite code_byte by lia;
  repeat match goal with
         | |- context [?a <=? ?b] =>
             first [ replace (a <=? b) with true by (symmetry; apply Z.leb_le; lia)
                   | replace (a <=? b) with false by (symmetry; apply Z.leb_gt; lia) ]
         | |- context [?a =? ?b] =>
             first [ replace (a =? b) with true by (symmetry; apply Z.eqb_eq; lia)
                   | replace (a =? b) with false by (symmetry; apply Z.eqb_neq; lia) ]
         end; simpl; f_equal; lia.
Qed.

Lemma encodeChar_not_pad n : 0 <= n < 64 -> Ascii.eqb (encodeChar n) pad = false.
Proof.
  intros Hn. apply Ascii.eqb_neq. intros Heq.
  pose proof (decode_encodeChar n Hn) as Hd. rewrite Heq in Hd. discriminate.
Qed.


Lemma string_ind3 (P : string -> Prop) :
  P EmptyString ->
  (forall a, P (String a EmptyString)) ->
  (forall a b, P (String a (String b EmptyString))) ->
  (forall a b c r, P r -> P (String a (String b (String c r)))) ->
  forall s, P s.
Proof.
  intros H0 H1 H2 H3 s.
  assert (H : P s /\ (forall a, P (String a s)) /\ (forall a b, P (String a (String b s)))).
  { induction s as [|c s (IH0 & IH1 & IH2)].
    - auto.
    - repeat split; auto. }
  apply H.
Qed.

Section Arith.
#[local] Ltac Zify.zify_post_hook ::= Z.div_mod_to_equations.

Lemma sextet_bounds (n0 n1 n2 : Z) :
  0 <= n0 < 256 -> 0 <= n1 < 256 -> 0 <= n2 < 256 ->
  0 <= n0 / 4 < 64 /\ 0 <= (n0 mod 4) * 16 + n1 / 16 < 64 /\
  0 <= (n1 mod 16) * 4 + n2 / 64 < 64 /\ 0 <= n2 mod 64 < 64 /\
  0 <= (n0 mod 4) * 16 < 64 /\ 0 <= (n1 mod 16) * 4 < 64.
Proof. intros. repeat split; lia. Qed.

Lemma regroup (n0 n1 n2 : Z) :
  (0 <= n0 < 256 -> 0 <= n1 < 256 -> 0 <= n2 < 256 ->
   n0 / 4 * 4 + ((n0 mod 4) * 16 + n1 / 16) / 16 = n0 /\
   (((n0 mod 4) * 16 + n1 / 16) mod 16) * 16 + ((n1 mod 16) * 4 + n2 / 64) / 4 = n1 /\
   (((n1 mod 16) * 4 + n2 / 64) mod 4) * 64 + n2 mod 64 = n2 /\
   n0 / 4 * 4 + ((n0 mod 4) * 16) / 16 = n0 /\
   (((n0 mod 4) * 16 + n1 / 16) mod 16) * 16 + ((n1 mod 16) * 4) / 4 = n1).
Proof. intros. repeat split; lia. Qed.

End Arith.

Theorem round_trip s : DecodeString (EncodeToString s) = Some s.
Proof.
  induction s as [| b0 | b0 b1 | b0 b1 b2 rest IH] using string_ind3.
  - reflexivity.
  - pose proof (code_lt b0) as L0.
    destruct (sextet_bounds (code b0) 0 0 L0) as (S0 & _ & _ & _ & S1 & _); [lia | lia |].
    destruct (regroup (code b0) 0 0 L0) as (_ & _ & _ & R0 & _); [lia | lia |].
    cbn [EncodeToString DecodeString].
    rewrite !decode_encodeChar by assumption. rewrite !Ascii.eqb_refl.
    rewrite R0, byte_code. reflexivity.
  - pose proof (code_lt b0) as L0. pose proof (code_lt b1) as L1.
    destruct (sextet_bounds (code b0) (code b1) 0 L0 L1) as (S0 & S1 & _ & _ & _ & S2); [lia |].
    destruct (regroup (code b0) (code b1) 0 L0 L1) as (R0 & _ & _ & _ & R1); [lia |].
    cbn [EncodeToString DecodeString].
    rewrite !decode_encodeChar by assumption.
    rewrite (encodeChar_not_pad _ S2). rewrite !Ascii.eqb_refl.
    rewrite R0, R1, !byte_code. reflexivity.
  - pose proof (code_lt b0) as L0. pose proof (code_lt b1) as L1. pose proof (code_lt b2) as L2.
    destruct (sextet_bounds _ _ _ L0 L1 L2) as (S0 & S1 & S2 & S3 & _ & _).
    destruct (regroup _ _ _ L0 L1 L2) as (R0 & R1 & R2 & _ & _).
    cbn [EncodeToString DecodeString].
    rewrite !decode_encodeChar by assumption.
    rewrite (encodeChar_not_pad _ S2), (encodeChar_not_pad _ S3).
    rewrite IH. rewrite R0, R1, R2, !byte_code. reflexivity.
Qed.

Lemma not_empty s : s <> EmptyString -> EncodeToString s <> EmptyString.
Proof.
  destruct s as [|b0 [|b1 [|b2 rest]]]; [congruence | | |]; intros _; discriminate.
Qed.

End Base64.

Module Json.
Import Cursor Bytes.

Definition dq : Ascii.ascii := byte 34.
Definition bs : Ascii.ascii := byte 92.

(** *** Integers *)

Definition isDigit (a : Ascii.ascii) : bool := (48 <=? code a) && (code a <=? 57).

(** Decimal digits of [n], most significant first, in front of [rest]. *)
Fixpoint putDigits (fuel : nat) (n : Z) (rest : string) : string :=
  match fuel with
  | O => rest
  | S fuel' =>
      let rest' := String (byte (48 + n mod 10)) rest in
      if n <? 10 then rest' else putDigits fuel' (n / 10) rest'
  end.

Definition putInt (z : Z) (rest : string) : string :=
  if z <? 0 then String (byte 45) (putDigits 20 (- z) rest) else putDigits 20 z rest.

Fixpoint readDigits (s : string) (acc : Z) : Z * string :=
  match s with
  | EmptyString => (acc, s)
  | String a s' => if isDigit a then readDigits s' (10 * acc + (code a - 48)) else (acc, s)
  end.

Definition startsWithDigit (s : string) : bool :=
  match s with
  | String a _ => isDigit a
  | EmptyString => false
  end.

Definition readInt (s : string) : option (Z * string) :=
  match s with
  | EmptyString => None
  | String a s' =>
      if Ascii.eqb a (byte 45)
      then if startsWithDigit s'
           then let '(n, rest) := readDigits s' 0 in Some (- n, rest)
           else None
      else if isDigit a
           then Some (readDigits s 0)
           else None
  end.


Section Digits.
#[local] Ltac Zify.zify_post_hook ::= Z.div_mod_to_equations.

Lemma digit_ok d : 0 <= d < 10 -> isDigit (byte (48 + d)) = true /\ code (byte (48 + d)) - 48 = d.
Proof.
  intros Hd. unfold isDigit. rewrite code_byte by lia. split; [| lia].
  apply andb_true_iff. split; apply Z.leb_le; lia.
Qed.

Lemma readDigits_putDigits fuel : forall n rest,
  0 <= n < 10 ^ Z.of_nat fuel ->
  readDigits (putDigits fuel n rest) 0 = readDigits rest n.
Proof.
  induction fuel as [|fuel IH]; intros n rest Hn.
  - simpl in *. assert (n = 0) by lia. subst. reflexivity.
  - cbn [putDigits]. destruct (digit_ok (n mod 10)) as [Hd Hv]; [lia |].
    destruct (n <? 10) eqn:Hlt.
    + apply Z.ltb_lt in Hlt. cbn [readDigits]. rewrite Hd, Hv. f_equal. lia.
    + apply Z.ltb_ge in Hlt. rewrite IH.
      * cbn [readDigits]. rewrite Hd, Hv. f_equal. lia.
      * rewrite Nat2Z.inj_succ, Z.pow_succ_r in Hn by lia. lia.
Qed.

Lemma putDigits_head fuel : forall n rest,
  0 <= n < 10 ^ Z.of_nat fuel -> (0 < fuel)%nat ->
  exists a s', putDigits fuel n rest = String a s' /\ isDigit a = true.
Proof.
  induction fuel as [|fuel IH]; intros n rest Hn Hfuel; [lia |].
  cbn [putDigits]. destruct (digit_ok (n mod 10)) as [Hd _]; [lia |].
  destruct (n <? 10) eqn:Hlt; [eauto |].
  apply Z.ltb_ge in Hlt.
  rewrite Nat2Z.inj_succ, Z.pow_succ_r in Hn by lia.
  apply IH; [lia |].
  destruct fuel; [simpl in Hn; lia | lia].
Qed.

End Digits.

Lemma readDigits_stop rest n : startsWithDigit rest = false -> readDigits rest n = (n, rest).
Proof. destruct rest as [|a rest]; simpl; [reflexivity |]. now intros ->. Qed.

Lemma digit_not_minus a : isDigit a = true -> Ascii.eqb a (byte 45) = false.
Proof.
  intros Hd. apply Ascii.eqb_neq. intros ->. unfold isDigit in Hd.
  rewrite code_byte in Hd by lia. discriminate.
Qed.

Lemma readInt_putInt z rest :
  - 10 ^ 20 < z < 10 ^ 20 -> startsWithDigit rest = false ->
  readInt (putInt z rest) = Some (z, rest).
Proof.
  intros Hz Hrest. unfold putInt. destruct (z <? 0) eqn:Hneg.
  - apply Z.ltb_lt in Hneg.
    assert (Hb : 0 <= - z < 10 ^ Z.of_nat 20) by (change (Z.of_nat 20) with 20; lia).
    destruct (putDigits_head 20 (- z) rest Hb) as (a & s' & Hput & Hd); [lia |].
    cbn [readInt]. rewrite Ascii.eqb_refl.
    pose proof (readDigits_putDigits 20 (- z) rest Hb) as Hread.
    rewrite Hput in *. cbn [startsWithDigit]. rewrite Hd.
    rewrite Hread, (readDigits_stop _ _ Hrest). f_equal. f_equal. lia.
  - apply Z.ltb_ge in Hneg.
    assert (Hb : 0 <= z < 10 ^ Z.of_nat 20) by (change (Z.of_nat 20) with 20; lia).
    destruct (putDigits_head 20 z rest Hb) as (a & s' & Hput & Hd); [lia |].
    pose proof (readDigits_putDigits 20 z rest Hb) as Hread.
    rewrite Hput in *. cbn [readInt]. rewrite (digit_not_minus _ Hd), Hd.
    rewrite Hread, (readDigits_stop _ _ Hrest). reflexivity.
Qed.

(** *** Strings *)

Definition hexDigit (n : Z) : Ascii.ascii :=
  if n <? 10 then byte (48 + n) else byte (87 + n).

Definition hexValue (a : Ascii.ascii) : option Z :=
  let n := code a in
  if (48 <=? n) && (n <=? 57) then Some (n - 48)
  else if (97 <=? n) && (n <=? 102) then Some (n - 87)
  else if (65 <=? n) && (n <=? 70) then Some (n - 55)
  else None.

(** Bytes the encoder writes as [\u00XX]: controls other than tab, line feed
    and carriage return, and the three characters escaped for HTML. *)
Definition needsUnicodeEscape (n : Z) : bool :=
  (n <? 32) || (n =? 60) || (n =? 62) || (n =? 38).

Definition putByte (a : Ascii.ascii) (rest : string) : string :=
  let n := code a in
  if (n =? 34) || (n =? 92) then String bs (String a rest)
  else if n =? 10 then String bs (String (byte 110) rest)
  else if n =? 13 then String bs (String (byte 114) rest)
  else if n =? 9 then String bs (String (byte 116) rest)
  else if needsUnicodeEscape n
  then String bs (String (byte 117) (String (byte 48) (String (byte 48)
         (String (hexDigit (n / 16)) (String (hexDigit (n mod 16)) rest)))))
  else String a rest.

Fixpoint putChars (s : string) (rest : string) : string :=
  match s with
  | EmptyString => rest
  | String a s' => putByte a (putChars s' rest)
  end.

Definition putString (s : string) (rest : string) : string :=
  String dq (putChars s (String dq rest)).

(** The body of a string literal, after the opening quote. *)
Fixpoint readChars (s : string) : option (string * string) :=
  match s with
  | EmptyString => None
  | String a s' =>
      let n := code a in
      if n =? 34 then Some (EmptyString, s')
      else if n =? 92 then
        match s' with
        | EmptyString => None
        | String e s'' =>
            let m := code e in
            if m =? 117 then
              match s'' with
              | String h1 (String h2 (String h3 (String h4 r))) =>
                  match hexValue h1, hexValue h2, hexValue h3, hexValue h4, readChars r with
                  | Some 0, Some 0, Some v3, Some v4, Some (body, rest) =>
                      if v3 <? 8 then Some (String (byte (v3 * 16 + v4)) body, rest) else None
                  | _, _, _, _, _ => None
                  end
              | _ => None
              end
            else
              let plain :=
                if (m =? 34) || (m =? 92) || (m =? 47) then Some e
                else if m =? 98 then Some (byte 8)
                else if m =? 102 then Some (byte 12)
                else if m =? 110 then Some (byte 10)
                else if m =? 114 then Some (byte 13)
                else if m =? 116 then Some (byte 9)
                else None in
              match plain, readChars s'' with
              | Some c, Some (body, rest) => Some (String c body, rest)
              | _, _ => None
              end
        end
      else if n <? 32 then None
      else
        match readChars s' with
        | Some (body, rest) => Some (String a body, rest)
        | None => None
        end
  end.

Definition readString (s : string) : option (string * string) :=
  match s with
  | String a s' => if code a =? 34 then readChars s' else None
  | EmptyString => None
  end.

(** ASCII text. *)
Fixpoint ascii7 (s : string) : bool :=
  match s with
  | EmptyString => true
  | String a s' => (code a <? 128) && ascii7 s'
  end.

Lemma readChars_putByte a body tail rest :
  code a < 128 ->
  readChars tail = Some (body, rest) ->
  readChars (putByte a tail) = Some (String a body, rest).
Proof.
  intros Ha Htail.
  assert (Hcases : exists n, 0 <= n < 128 /\ a = byte n).
  { exists (code a). split.
    - pose proof (code_lt a). lia.
    - symmetry. apply byte_code. }
  destruct Hcases as (n & Hn & ->).
  assert (Hk : exists k, (k < 128)%nat /\ n = Z.of_nat k) by (exists (Z.to_nat n); lia).
  destruct Hk as (k & Hk & ->). clear Hn Ha.
  do 128 (destruct k as [|k];
          [vm_compute (putByte _ _); vm_compute (byte _); simpl; rewrite Htail; reflexivity |]).
  lia.
Qed.


Lemma readChars_putChars s rest :
  ascii7 s = true -> readChars (putChars s (String dq rest)) = Some (s, rest).
Proof.
  induction s as [|a s IH]; intros Hs.
  - reflexivity.
  - simpl in Hs. apply andb_true_iff in Hs as [Ha Hs]. apply Z.ltb_lt in Ha.
    cbn [putChars]. apply readChars_putByte; auto.
Qed.

Lemma readString_putString s rest :
  ascii7 s = true -> readString (putString s rest) = Some (s, rest).
Proof.
  intros Hs. unfold readString, putString. change (code dq =? 34) with true. cbv iota.
  now apply readChars_putChars.
Qed.

(** *** Literal text *)

Definition lit (l rest : string) : string := l +:+ rest.

Fixpoint expect (l s : string) : option string :=
  match l, s with
  | EmptyString, _ => Some s
  | String a l', String b s' => if Ascii.eqb a b then expect l' s' else None
  | String _ _, EmptyString => None
  end.

Lemma expect_lit l rest : expect l (lit l rest) = Some rest.
Proof.
  unfold lit. induction l as [|a l IH]; simpl.
  - now destruct rest.
  - now rewrite Ascii.eqb_refl.
Qed.

(** ["name":] *)
Definition tag (name : string) : string :=
  String dq (name +:+ String dq ":").

Definition putWindow (w : option Window) : string :=
  match w with
  | None => "}"
  | Some w =>
      lit ("," +:+ tag "window" +:+ "{" +:+ tag "start_row") (putInt (StartRow w)
      (lit ("," +:+ tag "end_row") (putInt (EndRow w)
      (lit ("," +:+ tag "start_col") (putInt (StartCol w)
      (lit ("," +:+ tag "end_col") (putInt (EndCol w) "}}")))))))
  end.

Definition jsonMarshal (d : CursorData) : string :=
  lit ("{" +:+ tag "chunk_id") (putString (ChunkID d)
  (lit ("," +:+ tag "offset") (putInt (Offset d)
  (lit ("," +:+ tag "version") (putInt (Version d)
  (lit ("," +:+ tag "checksum") (putString (Checksum d)
  (lit ("," +:+ tag "ts") (putInt (Timestamp d) (putWindow (WindowInfo d))))))))))).

(** An integer that fits a Go [int64] (or [int]). *)
Definition readInt64 (s : string) : option (Z * string) :=
  match readInt s with
  | Some (z, rest) => if (- 2 ^ 63 <=? z) && (z <? 2 ^ 63) then Some (z, rest) else None
  | None => None
  end.

Definition readWindow (s : string) : option (option Window) :=
  if String.eqb s "}" then Some None
  else
    s ← expect ("," +:+ tag "window" +:+ "{" +:+ tag "start_row") s;
    '(startRow, s) ← readInt64 s;
    s ← expect ("," +:+ tag "end_row") s;
    '(endRow, s) ← readInt64 s;
    s ← expect ("," +:+ tag "start_col") s;
    '(startCol, s) ← readInt64 s;
    s ← expect ("," +:+ tag "end_col") s;
    '(endCol, s) ← readInt64 s;
    if String.eqb s "}}" then Some (Some (mkWindow startRow endRow startCol endCol))
    else None.

Definition jsonUnmarshal (s : string) : option CursorData :=
  s ← expect ("{" +:+ tag "chunk_id") s;
  '(chunkID, s) ← readString s;
  s ← expect ("," +:+ tag "offset") s;
  '(offset, s) ← readInt64 s;
  s ← expect ("," +:+ tag "version") s;
  '(version, s) ← readInt64 s;
  s ← expect ("," +:+ tag "checksum") s;
  '(checksum, s) ← readString s;
  s ← expect ("," +:+ tag "ts") s;
  '(ts, s) ← readInt64 s;
  window ← readWindow s;
  Some (mkCursorData chunkID offset version checksum ts window).

Lemma readInt64_putInt z rest :
  int64 z -> startsWithDigit rest = false -> readInt64 (putInt z rest) = Some (z, rest).
Proof.
  intros Hz Hrest. unfold readInt64, int64 in *. rewrite readInt_putInt by (auto; lia).
  replace ((- 2 ^ 63 <=? z) && (z <? 2 ^ 63)) with true; [reflexivity |].
  symmetry. apply andb_true_iff. split; [apply Z.leb_le | apply Z.ltb_lt]; lia.
Qed.

#[local] Arguments lit : simpl never.
#[local] Arguments putInt : simpl never.
#[local] Arguments putString : simpl never.
#[local] Arguments expect : simpl never.
#[local] Arguments tag : simpl never.

Lemma lit_comma l rest : startsWithDigit (lit ("," +:+ l) rest) = false.
Proof. reflexivity. Qed.

Lemma lit_not_brace l rest : String.eqb (lit ("," +:+ l) rest) "}" = false.
Proof. reflexivity. Qed.

Theorem json_round_trip d :
  ascii7 (ChunkID d) = true -> ascii7 (Checksum d) = true ->
  int64 (Offset d) -> int64 (Version d) -> int64 (Timestamp d) ->
  match WindowInfo d with
  | Some w => int64 (StartRow w) /\ int64 (EndRow w) /\ int64 (StartCol w) /\ int64 (EndCol w)
  | None => True
  end ->
  jsonUnmarshal (jsonMarshal d) = Some d.
Proof.
  destruct d as [chunk off ver sum ts w]. simpl. intros Hc Hs Ho Hv Ht Hw.
  unfold jsonUnmarshal, jsonMarshal.
  cbn [ChunkID Offset Version Checksum Timestamp WindowInfo].
  assert (Hwin : readWindow (putWindow w) = Some w).
  { destruct w as [[sr er sc ec]|]; [| reflexivity].
    simpl in Hw. destruct Hw as (H1 & H2 & H3 & H4).
    unfold putWindow, readWindow. cbn [StartRow EndRow StartCol EndCol].
    rewrite lit_not_brace.
    repeat (first [ rewrite expect_lit
                  | rewrite readInt64_putInt by (auto using lit_comma) ];
            cbn [mbind option_bind]).
    reflexivity. }
  repeat (first [ rewrite expect_lit
                | rewrite readString_putString by assumption
                | rewrite readInt64_putInt
                    by (auto using lit_comma; destruct w; reflexivity)
                | rewrite Hwin ];
          cbn [mbind option_bind]).
  reflexivity.
Qed.

Lemma jsonMarshal_not_empty d : jsonMarshal d <> "".
Proof. unfold jsonMarshal. discriminate. Qed.

End Json.

(** The standard-library codecs as an instance of [Cursor.Codec]. *)
#[export] Instance goCodec : Cursor.Codec := {|
  Cursor.carried := fun s => Json.ascii7 s = true;
  Cursor.jsonMarshal := Json.jsonMarshal;
  Cursor.jsonUnmarshal := Json.jsonUnmarshal;
  Cursor.EncodeToString := Base64.EncodeToString;
  Cursor.DecodeString := Base64.DecodeString;
  Cursor.json_round_trip := Json.json_round_trip;
  Cursor.json_not_empty := Json.jsonMarshal_not_empty;
  Cursor.base64_round_trip := Base64.round_trip;
  Cursor.base64_not_empty := Base64.not_empty
|}.

(** ** Properties of the cursor codec *)

Module CursorFacts.
Import Cursor.






(** *** Extractors *)

Section RoundTrips.
Context (C : Codec).




End RoundTrips.


End CursorFacts.

(** ** Properties of the tool handlers *)

Module ToolsFacts.
Import Tools.

Ltac break_match H :=
  match type of H with
  | context [match ?x with _ => _ end] => destruct x eqn:?
  | context [if ?x then _ else _] => destruct x eqn:?
  end.

Lemma pget_pset_eq m k v : pget (pset m k v) k = Some v.
Proof.
  induction m as [|[k' v'] m IH]; simpl.
  - now rewrite String.eqb_refl.
  - destruct (String.eqb k' k) eqn:Hk; simpl.
    + now rewrite String.eqb_refl.
    + now rewrite Hk.
Qed.

Lemma pget_pset_ne m k k' v : k <> k' -> pget (pset m k v) k' = pget m k'.
Proof.
  intros Hne. induction m as [|[k0 v0] m IH]; simpl.
  - destruct (String.eqb_spec k k'); [contradiction | reflexivity].
  - destruct (String.eqb_spec k0 k) as [->|Hk0]; simpl.
    + destruct (String.eqb_spec k k'); [contradiction | reflexivity].
    + destruct (String.eqb k0 k'); [reflexivity | apply IH].
Qed.

Section Navigation.
Context (W : World) `{Cursor.Codec}.

(** What [BuildNavigationMap] reports about the checksum in every response. *)
Lemma BuildNavigationMap_checksum p now resp :
  BuildNavigationMap W p now = Done (Ok resp) ->
  exists checksum,
    asString (pget p "checksum") = Some checksum /\
    ChecksumMatch (RespNavigationIndex resp) = String.eqb "dummy_checksum" checksum /\
    InvalidationRequired (RespNavigationIndex resp) =
      negb (String.eqb "dummy_checksum" checksum) /\
    HotDataExtension (RespCacheControl resp) = String.eqb "dummy_checksum" checksum /\
    TTLSeconds (RespCacheControl resp) =
      (if String.eqb "dummy_checksum" checksum then 600 else 300).
Proof.
  intros Hrun. unfold BuildNavigationMap, calculateFileChecksum in Hrun.
  cbv zeta in Hrun.
  repeat (break_match Hrun; try discriminate).
  all: inversion Hrun; subst resp; simpl; eexists; repeat split.
Qed.

(** C5 (as the code behaves).  A response to a call whose [checksum] has the
    64 characters of a SHA-256 digest in hexadecimal always reports a
    mismatch, whatever the file holds: the current checksum is a fixed
    14-character string. *)
Theorem BuildNavigationMap_digest_never_matches :
  forall (p : params) (now : Z) (resp : BuildNavigationResponse) (checksum : string),
    BuildNavigationMap W p now = Done (Ok resp) ->
    asString (pget p "checksum") = Some checksum ->
    String.length checksum = 64%nat ->
    ChecksumMatch (RespNavigationIndex resp) = false /\
    InvalidationRequired (RespNavigationIndex resp) = true /\
    HotDataExtension (RespCacheControl resp) = false.
Proof.
  intros p now resp checksum Hrun Hsum Hlen.
  destruct (BuildNavigationMap_checksum p now resp Hrun) as (c & Hc & H1 & H2 & H3 & _).
  rewrite Hsum in Hc. inversion Hc; subst c.
  assert (Hne : String.eqb "dummy_checksum" checksum = false).
  { apply String.eqb_neq. intros <-. discriminate. }
  rewrite Hne in *. auto.
Qed.

End Navigation.

Section Query.
Context (W : World) `{Cursor.Codec} `{Index.BloomFilter}.

(** *** Searches on a manager that has indexed nothing *)

Lemma intersectTokens_nil inv tokens : Index.intersectTokens inv tokens [] = [].
Proof.
  induction tokens as [|t tokens IH]; simpl; [reflexivity |].
  destruct (inv !! t); [apply IH | reflexivity].
Qed.

Lemma SearchText_New query : Index.SearchText Index.NewManager query = [].
Proof.
  unfold Index.SearchText. destruct (negb _); [reflexivity |].
  destruct (Index.tokenizeText query) as [|first rest]; [reflexivity |].
  simpl. rewrite lookup_empty. apply intersectTokens_nil.
Qed.

Lemma SearchNumericRange_New min max : Index.SearchNumericRange Index.NewManager min max = [].
Proof. reflexivity. Qed.

Lemma SearchSpatial_New bounds : Index.SearchSpatial Index.NewManager bounds = [].
Proof.
  unfold Index.SearchSpatial. simpl. destruct (negb _); reflexivity.
Qed.

Lemma executeIndexQuery_New query navIndex windowConfig results :
  executeIndexQuery query Index.NewManager navIndex windowConfig = Done (Ok results) ->
  results = [].
Proof.
  unfold executeIndexQuery. cbv zeta. intros Hrun.
  assert (Hcap : forall m, capResults [] m = Panic \/ capResults [] m = Done []).
  { intros m. unfold capResults. change (len (@nil DataChunk)) with 0.
    destruct (m <? 0); [now left | now right]. }
  assert (Hfound :
    match capResults [] (maxResultsOf windowConfig) with
    | Panic => Panic
    | Done rs => Done (Ok rs)
    end = Done (Ok results) -> results = []).
  { destruct (Hcap (maxResultsOf windowConfig)) as [-> | ->]; [discriminate |].
    intros Heq. now inversion Heq. }
  destruct (isNumericRangeQuery query).
  - unfold parseNumericRange in Hrun.
    destruct (Contains query "BETWEEN"); [| destruct (Contains query ">=")];
      rewrite SearchNumericRange_New in Hrun; exact (Hfound Hrun).
  - destruct (isTextQuery query).
    + rewrite SearchText_New in Hrun. exact (Hfound Hrun).
    + destruct (isSpatialQuery query).
      * unfold parseSpatialBounds in Hrun. rewrite SearchSpatial_New in Hrun.
        exact (Hfound Hrun).
      * exact (Hfound Hrun).
Qed.

Lemma executeQuery_Strategy query navIndex offset window windowConfig hints qe results :
  executeQuery W query navIndex offset window windowConfig hints = Done (Ok (qe, results)) ->
  Strategy qe = determineQueryStrategy query navIndex hints.
Proof.
  unfold executeQuery. cbv zeta. intros Hrun.
  repeat (break_match Hrun; try discriminate); inversion Hrun; reflexivity.
Qed.

Lemma executeQuery_index query navIndex offset window windowConfig hints qe results :
  executeQuery W query navIndex offset window windowConfig hints = Done (Ok (qe, results)) ->
  Strategy qe = "index" -> results = [].
Proof.
  intros Hrun Hs. pose proof (executeQuery_Strategy _ _ _ _ _ _ _ _ Hrun) as Hd.
  rewrite Hs in Hd. unfold executeQuery in Hrun. cbv zeta in Hrun. rewrite <- Hd in Hrun.
  simpl in Hrun.
  destruct (executeIndexQuery query Index.NewManager navIndex windowConfig)
    as [[rs|e]|] eqn:Hq; try discriminate.
  inversion Hrun; subst. eapply executeIndexQuery_New; eassumption.
Qed.

(** The navigation index every call works with. *)
Definition placeholderIndex : NavigationIndex :=
  match parseNavigationIndex [] with
  | Ok nav => nav
  | Err _ => mkNavigationIndex false false (mkChunkInfo "" 0 [] false) []
                               (mkSearchIndex 0 0 0) (mkDeltaTracking 0 [] false)
  end.

Definition hintsOf (p : params) : params :=
  match asMap (pget p "optimization_hints") with
  | Some oh => overlay defaultHints oh
  | None => defaultHints
  end.

Lemma QueryData_inv p now later resp :
  QueryData W p now later = Done (Ok resp) ->
  exists query offset window windowConfig,
    asString (pget p "query") = Some query /\
    executeQuery W query placeholderIndex offset window windowConfig (hintsOf p)
      = Done (Ok (RespQueryExecution resp, RespData resp)).
Proof.
  unfold QueryData. cbv zeta. intros Hrun.
  destruct (asString (pget p "query")) as [query|]; [| discriminate].
  destruct (asMap (pget p "navigation_index")) as [nav|]; [| discriminate].
  change (parseNavigationIndex nav) with (Ok placeholderIndex) in Hrun. cbv iota in Hrun.
  fold (hintsOf p) in Hrun.
  repeat (break_match Hrun; try discriminate).
  all: inversion Hrun; subst resp; simpl; eauto 10.
Qed.

(** C9.  Whenever [QueryData] answers with the index strategy, the result
    list is empty: the search ran on a manager made for the call, which has
    indexed nothing.  The contents of [navigation_index] play no part:
    replacing them leaves the outcome of the call unchanged. *)
Theorem QueryData_index_strategy_is_empty :
  forall (p : params) (now later : Z) (resp : QueryDataResponse),
    QueryData W p now later = Done (Ok resp) ->
    Strategy (RespQueryExecution resp) = "index" ->
    RespData resp = [] /\
    forall other : params,
      QueryData W (pset p "navigation_index" (PMap other)) now later =
      QueryData W p now later.
Proof.
  intros p now later resp Hrun Hs. split.
  - destruct (QueryData_inv p now later resp Hrun) as (q & off & win & wc & _ & Hq).
    eapply executeQuery_index; eassumption.
  - intros other. unfold QueryData in *. cbv zeta in *.
    rewrite pget_pset_eq. rewrite !pget_pset_ne by discriminate.
    destruct (asString (pget p "query")) as [query|]; [| reflexivity].
    destruct (asMap (pget p "navigation_index")) as [nav|]; [| discriminate].
    reflexivity.
Qed.

(** C6 (as the code behaves).  The strategy of an answered call is chosen on
    the one-sheet placeholder, whatever [navigation_index] lists: a query with
    [=] under [prefer_speed] is answered with the index strategy, a query with
    [*] or [?] and no [=] with a scan, and a query with none of the three also
    with a scan.  No call is answered with the hybrid strategy. *)
Theorem QueryData_strategy_on_placeholder :
  forall (p : params) (now later : Z) (resp : QueryDataResponse) (query : string),
    QueryData W p now later = Done (Ok resp) ->
    asString (pget p "query") = Some query ->
    (Contains query "=" = true ->
     asBool (pget (hintsOf p) "prefer_speed") = Some true ->
     Strategy (RespQueryExecution resp) = "index") /\
    (Contains query "=" = false -> Contains query "*" || Contains query "?" = true ->
     Strategy (RespQueryExecution resp) = "scan") /\
    (Contains query "=" = false -> Contains query "*" = false ->
     Contains query "?" = false ->
     Strategy (RespQueryExecution resp) = "scan") /\
    Strategy (RespQueryExecution resp) <> "hybrid".
Proof.
  intros p now later resp query Hrun Hq.
  destruct (QueryData_inv p now later resp Hrun) as (q & off & win & wc & Hq' & Hx).
  rewrite Hq in Hq'. inversion Hq'; subst q.
  rewrite (executeQuery_Strategy _ _ _ _ _ _ _ _ Hx).
  unfold determineQueryStrategy. repeat split.
  - intros -> ->. reflexivity.
  - intros -> ->. reflexivity.
  - intros -> -> ->. reflexivity.
  - simpl. repeat (destruct (_ && _) || destruct (_ || _)); discriminate.
Qed.

End Query.

(** *** Parameters decoded from JSON *)






Section Answers.
Context (W : World) `{Cursor.Codec} `{Index.BloomFilter}.





End Answers.

Section Windows.
Context (W : World) `{Cursor.Codec}.

(** X25.  A [build_navigation_map] call with [window_size] zero is never
    answered: the handler divides by the window size, so the call ends in an
    error raised before that point or in a run-time panic. *)
Theorem BuildNavigationMap_zero_window :
  forall (p : params) (now : Z) (ws : float),
    asFloat (pget p "window_size") = Some ws ->
    int_of_float64 ws = 0 ->
    BuildNavigationMap W p now = Panic \/
    exists e, BuildNavigationMap W p now = Done (Err e).
Proof.
  intros p now ws Hws Hzero. unfold BuildNavigationMap. cbv zeta.
  rewrite Hws, Hzero. unfold createPagination, goDiv. simpl (0 =? 0).
  repeat match goal with
         | |- context [match ?x with _ => _ end] => destruct x eqn:?
         end; eauto.
Qed.

End Windows.

(** *** A workbook and three calls *)

Definition sheetOf (name : string) : SheetIndex :=
  mkSheetIndex ("sheet_" +:+ name) name (mkSheetMetadata 1 3 1 false 64) [] [] [].

(** The collaborators of the handlers over [IndexFacts.sampleFile]. *)
Definition sampleWorld : World :=
  mkWorld
    (fun path => if String.eqb path "book.xlsm" then Ok IndexFacts.sampleFile
                 else Err "open: no such file")
    (fun file currentChunk offset windowSize streamResults checksumMatch =>
       Done (Ok (mkNavigationIndex checksumMatch (negb checksumMatch)
                   (mkChunkInfo "chunk_0" 1 (Index.GetSheetList file) streamResults)
                   (List.map sheetOf (Index.GetSheetList file))
                   (mkSearchIndex 0 4 4)
                   (mkDeltaTracking 0 [] false))))
    (fun navigationIndex tokenConfig => Ok (mkTokenTracking 120 199880 "none" "standard" 120))
    (fun sheetName maxRows =>
       match Index.GetRows IndexFacts.sampleFile sheetName with
       | Ok rows => Ok (List.map (List.map PString) rows)
       | Err e => Err e
       end)
    (fun results => Ok (64 * len results)).

(** The SHA-256 digest of the empty file. *)
Definition sampleDigest : string :=
  "e3b0c44298fc1c149afbf4c8996fb92427ae41e4649b934ca495991b7852b855".

Definition navigationCall : params :=
  [("filepath", PString "book.xlsm"); ("checksum", PString sampleDigest)].

Lemma BuildNavigationMap_digest_never_matches_witness :
  exists resp,
    BuildNavigationMap sampleWorld navigationCall 0 = Done (Ok resp) /\
    ChecksumMatch (RespNavigationIndex resp) = false /\
    InvalidationRequired (RespNavigationIndex resp) = true /\
    HotDataExtension (RespCacheControl resp) = false.
Proof.
  destruct (BuildNavigationMap sampleWorld navigationCall 0) as [[resp|e]|] eqn:Hrun;
    [| vm_compute in Hrun; discriminate ..].
  exists resp. split; [reflexivity |].
  exact (BuildNavigationMap_digest_never_matches sampleWorld navigationCall 0 resp
           sampleDigest Hrun eq_refl eq_refl).
Defined.

(** A navigation index of eleven sheets, as a caller sends it. *)
Definition elevenSheets : params :=
  [("sheet_index",
    PSlice (List.map (fun i => PMap [("sheet_id", PString ("sheet_" +:+ pretty (Z.of_nat i)));
                                     ("name", PString ("Sheet" +:+ pretty (Z.of_nat i)))])
                     (seq 1 11)))].

Definition plainCall : params :=
  [("query", PString "FROUDIS"); ("navigation_index", PMap elevenSheets)].

Definition equalityCall : params :=
  [("query", PString "Rayon=FROUDIS"); ("navigation_index", PMap elevenSheets)].

Lemma QueryData_strategy_on_placeholder_witness :
  exists resp,
    QueryData sampleWorld (H0 := IndexFacts.exactFilter) plainCall 0 (2 * Second)
      = Done (Ok resp) /\
    Strategy (RespQueryExecution resp) = "scan" /\
    Strategy (RespQueryExecution resp) <> "hybrid".
Proof.
  destruct (QueryData sampleWorld (H0 := IndexFacts.exactFilter) plainCall 0 (2 * Second))
    as [[resp|e]|] eqn:Hrun; [| vm_compute in Hrun; discriminate ..].
  exists resp. split; [reflexivity |].
  destruct (QueryData_strategy_on_placeholder sampleWorld plainCall 0 (2 * Second) resp
              "FROUDIS" Hrun eq_refl) as (_ & _ & Hplain & Hnever).
  split; [apply Hplain; reflexivity | exact Hnever].
Defined.

Lemma QueryData_index_strategy_is_empty_witness :
  exists resp,
    QueryData sampleWorld (H0 := IndexFacts.exactFilter) equalityCall 0 (2 * Second)
      = Done (Ok resp) /\
    Strategy (RespQueryExecution resp) = "index" /\
    RespData resp = [] /\
    QueryData sampleWorld (H0 := IndexFacts.exactFilter)
      (pset equalityCall "navigation_index" (PMap [])) 0 (2 * Second)
    = QueryData sampleWorld (H0 := IndexFacts.exactFilter) equalityCall 0 (2 * Second).
Proof.
  destruct (QueryData sampleWorld (H0 := IndexFacts.exactFilter) equalityCall 0 (2 * Second))
    as [[resp|e]|] eqn:Hrun; [| vm_compute in Hrun; discriminate ..].
  assert (Hs : Strategy (RespQueryExecution resp) = "index").
  { vm_compute in Hrun. inversion Hrun. reflexivity. }
  exists resp. split; [reflexivity |]. split; [exact Hs |].
  destruct (QueryData_index_strategy_is_empty sampleWorld equalityCall 0 (2 * Second) resp
              Hrun Hs) as [Hempty Hsame].
  split; [exact Hempty |].
  rewrite (Hsame []). exact Hrun.
Defined.






Definition zeroWindowCall : params :=
  [("filepath", PString "book.xlsm"); ("checksum", PString sampleDigest);
   ("window_size", PFloat 0)].

Lemma BuildNavigationMap_zero_window_witness :
  BuildNavigationMap sampleWorld zeroWindowCall 0 = Panic.
Proof.
  destruct (BuildNavigationMap_zero_window sampleWorld zeroWindowCall 0 0%float
              eq_refl eq_refl) as [Hpanic | [e Herr]].
  - exact Hpanic.
  - vm_compute in Herr. discriminate.
Defined.

End ToolsFacts.

(** ** Properties of the dispatcher *)

Module ServerFacts.
Import Tools Server.

Definition knownMethods : list string :=
  ["analyze_file"; "build_navigation_map"; "query_data"; "list_tools"; "get_server_info";
   "initialize"].

Lemma eqb_not_In (s t : string) (l : list string) :
  ~ In s (t :: l) -> String.eqb s t = false /\ ~ In s l.
Proof.
  intros Hnot. split.
  - apply String.eqb_neq. intros ->. apply Hnot. now left.
  - intros Hin. apply Hnot. now right.
Qed.

Section Dispatch.
Context (W : World) `{Cursor.Codec} `{Index.BloomFilter} {AnalyzeFileResponse : Type}
        (AnalyzeFile : params -> Z -> outcome (result AnalyzeFileResponse))
        (canMarshal : @answer AnalyzeFileResponse -> bool).

Lemma routeRequest_unknown req now later :
  ~ In (Method req) knownMethods ->
  routeRequest W AnalyzeFile req now later = Done (Err ("unknown method: " +:+ Method req)).
Proof.
  unfold knownMethods, routeRequest. intros Hnot.
  repeat (apply eqb_not_In in Hnot; destruct Hnot as [-> Hnot]).
  reflexivity.
Qed.

(** C8 (as the code behaves).  A request whose method is none of the six
    known ones is answered with an error carrying the message
    [unknown method: <method>] and the request's id; its code is -32603 on
    the HTTP transport and -32000 on the line-delimited one. *)
Theorem unknown_method_gets_generic_error :
  forall (req : MCPRequest) (line : string) (now later : Z),
    ~ In (Method req) knownMethods ->
    line <> "" ->
    handleMCPRequest W AnalyzeFile "POST" (Some req) now later =
      Done (Json (mkResponse None
                    (Some (mkError (-32603) ("unknown method: " +:+ Method req)))
                    (ID req))) /\
    stdioTurn W AnalyzeFile canMarshal line (Some req) now later =
      Done (Some (mkResponse None
                    (Some (mkError (-32000) ("unknown method: " +:+ Method req)))
                    (ID req))).
Proof.
  intros req line now later Hnot Hline.
  unfold handleMCPRequest, stdioTurn, sendError.
  rewrite (routeRequest_unknown req now later Hnot).
  apply String.eqb_neq in Hline. rewrite Hline. split; reflexivity.
Qed.

End Dispatch.

(** An [analyze_file] handler that rejects every call. *)
Definition noAnalysis (p : params) (now : Z) : outcome (result unit) :=
  Done (Err "filepath parameter is required").

Definition strayRequest : MCPRequest :=
  mkRequest "tools/call" [("name", PString "query_data")] (PInt 7).

Definition strayLine : string := "{...}".

Lemma unknown_method_gets_generic_error_witness :
  handleMCPRequest ToolsFacts.sampleWorld (H0 := IndexFacts.exactFilter) noAnalysis "POST"
      (Some strayRequest) 0 0 =
    Done (Json (mkResponse None
                  (Some (mkError (-32603) "unknown method: tools/call")) (PInt 7))) /\
  stdioTurn ToolsFacts.sampleWorld (H0 := IndexFacts.exactFilter) noAnalysis (fun _ => true) strayLine
      (Some strayRequest) 0 0 =
    Done (Some (mkResponse None
                  (Some (mkError (-32000) "unknown method: tools/call")) (PInt 7))).
Proof.
  apply (unknown_method_gets_generic_error ToolsFacts.sampleWorld (H0 := IndexFacts.exactFilter)
           noAnalysis (fun _ => true) strayRequest strayLine 0 0).
  - vm_compute. intuition discriminate.
  - discriminate.
Defined.

(** The error code of a reply, if it is an error. *)
Definition httpCode {A : Type} (r : outcome (@httpReply A)) : option Z :=
  match r with
  | Done (Json resp) => option_map Code (Error resp)
  | _ => None
  end.

Definition stdioCode {A : Type} (r : outcome (option (@MCPResponse A))) : option Z :=
  match r with
  | Done (Some resp) => option_map Code (Error resp)
  | _ => None
  end.

(** C8 (as stated) fails on the method [tools/call]: neither transport
    answers with -32601. *)
Lemma unknown_method_code_is_not_32601 :
  ~ In (Method strayRequest) knownMethods /\
  httpCode (handleMCPRequest ToolsFacts.sampleWorld (H0 := IndexFacts.exactFilter) noAnalysis "POST"
              (Some strayRequest) 0 0) = Some (-32603) /\
  stdioCode (stdioTurn ToolsFacts.sampleWorld (H0 := IndexFacts.exactFilter) noAnalysis (fun _ => true)
               strayLine (Some strayRequest) 0 0) = Some (-32000) /\
  -32603 <> -32601 /\ -32000 <> -32601.
Proof.
  split; [vm_compute; intuition discriminate |].
  repeat split; try reflexivity; discriminate.
Qed.

End ServerFacts.

(** ** Chunk planning of analyze_file (internal/server/tools.go) *)

Module Analysis.

(** models.Chunk *)
Record Chunk := mkChunk {
  ChunkID : string;
  SheetsRange : Z * Z;
  SizeBytes : Z;
  Cursor : string;
  StreamingRequired : bool
}.

(** [estimateMemoryUsage]: 1 MB and 500 KB for each sheet. *)
Definition estimateMemoryUsage (sheetsCount : Z) : Z :=
  wrap64 (wrap64 (wrap64 (1 * 1024) * 1024) +
          wrap64 (wrap64 (sheetsCount * 500) * 1024)).

(** The body of the loop of [estimateChunkSize] for one sheet: 50 bytes for
    each cell; a sheet that cannot be read adds nothing. *)
Definition sheetBytes (file : Index.File) (sheetName : string) : Z :=
  match Index.GetRows file sheetName with
  | Err _ => 0
  | Ok rows =>
      wrap64 (fold_left (fun cellCount row => wrap64 (cellCount + len row)) rows 0 * 50)
  end.

(** The loop of [estimateChunkSize], [i] the index of the head. *)
Fixpoint sizeFrom (file : Index.File) (sheets : list string) (i endIdx totalSize : Z) : Z :=
  match sheets with
  | [] => totalSize
  | sheetName :: rest =>
      if endIdx <=? i then totalSize
      else sizeFrom file rest (i + 1) endIdx (wrap64 (totalSize + sheetBytes file sheetName))
  end.

(** [sheetList[i]] with a negative [i] panics. *)
Definition estimateChunkSize (file : Index.File) (startIdx endIdx : Z) : outcome Z :=
  let sheetList := Index.GetSheetList file in
  if (startIdx <? endIdx) && (startIdx <? len sheetList) then
    if startIdx <? 0 then Panic
    else Done (sizeFrom file (skipn (Z.to_nat startIdx) sheetList) startIdx endIdx 0)
  else Done 0.

Section WithCodec.
Context `{Cursor.Codec}.

Definition cursorManager : Cursor.Manager := Cursor.NewManager.

(** The loop of [createChunks] from sheet [i], [chunks] the slice so far;
    [now i] is the clock when the cursor of the chunk that starts at sheet [i]
    is generated.  [None]: the loop is still running when [fuel] iterations
    are spent. *)
Fixpoint chunksFrom (fuel : nat) (file : Index.File) (i sheetsCount chunkSize : Z)
    (streamMode : bool) (checksum : string) (now : Z -> Z) (chunks : list Chunk)
  : option (outcome (list Chunk)) :=
  match fuel with
  | O => None
  | S fuel' =>
      if i <? sheetsCount then
        let endIdx := wrap64 (i + chunkSize) in
        let endIdx := if sheetsCount <? endIdx then sheetsCount else endIdx in
        let chunkID := "chunk_" +:+ pretty i +:+ "_" +:+ pretty (wrap64 (endIdx - 1)) in
        match estimateChunkSize file i endIdx with
        | Panic => Some Panic
        | Done sizeBytes =>
            let chunk :=
              mkChunk chunkID (i, wrap64 (endIdx - 1)) sizeBytes
                      (Cursor.CreateChunkCursor cursorManager chunkID i checksum None (now i))
                      (streamMode && (10 * 1024 * 1024 <? sizeBytes)) in
            chunksFrom fuel' file (wrap64 (i + chunkSize)) sheetsCount chunkSize streamMode
                       checksum now (chunks ++ [chunk])
        end
      else Some (Done chunks)
  end.

Definition createChunks (fuel : nat) (file : Index.File) (sheetsCount chunkSize : Z)
    (streamMode : bool) (checksum : string) (now : Z -> Z)
  : option (outcome (list Chunk)) :=
  chunksFrom fuel file 0 sheetsCount chunkSize streamMode checksum now [].

End WithCodec.

End Analysis.

Module AnalysisFacts.
Import Analysis.

(** The sheets a chunk covers, by index. *)
Definition sheetsOf (c : Chunk) : list Z :=
  seqZ (fst (SheetsRange c)) (snd (SheetsRange c) - fst (SheetsRange c) + 1).

(** A chunk of at least one and at most [chunkSize] sheets, named after its
    range. *)
Definition wellCut (chunkSize : Z) (c : Chunk) : Prop :=
  1 <= snd (SheetsRange c) - fst (SheetsRange c) + 1 <= chunkSize /\
  ChunkID c = "chunk_" +:+ pretty (fst (SheetsRange c)) +:+ "_" +:+
              pretty (snd (SheetsRange c)).

Section Chunks.
Context `{Cursor.Codec}.

Lemma estimateChunkSize_returns file startIdx endIdx :
  0 <= startIdx -> exists sizeBytes, estimateChunkSize file startIdx endIdx = Done sizeBytes.
Proof.
  intros Hs. unfold estimateChunkSize.
  destruct ((startIdx <? endIdx) && _); [| eauto].
  destruct (startIdx <? 0) eqn:E; [lia | eauto].
Qed.

Lemma chunksFrom_cover fuel file i sheetsCount chunkSize streamMode checksum now chunks :
  1 <= chunkSize -> 0 <= i -> sheetsCount + chunkSize < 2 ^ 63 ->
  i < sheetsCount + chunkSize ->
  (Z.to_nat (sheetsCount - i) < fuel)%nat ->
  exists rest,
    chunksFrom fuel file i sheetsCount chunkSize streamMode checksum now chunks =
      Some (Done (chunks ++ rest)) /\
    flat_map sheetsOf rest = seqZ i (sheetsCount - i) /\
    Forall (wellCut chunkSize) rest /\
    len rest = (Z.max 0 (sheetsCount - i) + chunkSize - 1) / chunkSize.
Proof.
  intros Hsize. revert i chunks.
  induction fuel as [| fuel IH]; intros i chunks Hi Hfit Hle Hfuel; [lia |].
  cbn [chunksFrom]. destruct (i <? sheetsCount) eqn:Hlt.
  - apply Z.ltb_lt in Hlt.
    rewrite (wrap64_small (i + chunkSize)) by lia.
    set (endIdx := if sheetsCount <? i + chunkSize then sheetsCount else i + chunkSize).
    assert (HendIdx : endIdx = Z.min sheetsCount (i + chunkSize)).
    { unfold endIdx. destruct (sheetsCount <? i + chunkSize) eqn:E; lia. }
    rewrite (wrap64_small (endIdx - 1)) by lia.
    destruct (estimateChunkSize_returns file i endIdx Hi) as [sizeBytes ->].
    match goal with |- context [chunks ++ [?c]] => set (chunk := c) end.
    destruct (IH (i + chunkSize) (chunks ++ [chunk])) as (rest & Hrun & Hcover & Hcut & Hlen);
      [lia | lia | lia | lia |].
    exists (chunk :: rest). split; [| split; [| split]].
    + rewrite Hrun. now rewrite <- app_assoc.
    + cbn [flat_map]. rewrite Hcover. unfold sheetsOf, chunk. cbn [SheetsRange fst snd].
      replace (endIdx - 1 - i + 1) with (endIdx - i) by lia.
      destruct (Z.le_gt_cases sheetsCount (i + chunkSize)) as [Hlast | Hmore].
      * rewrite (seqZ_nil (i + chunkSize)) by lia. rewrite app_nil_r. f_equal. lia.
      * replace (sheetsCount - i) with ((endIdx - i) + (sheetsCount - (i + chunkSize))) by lia.
        rewrite seqZ_app by lia. do 2 f_equal; lia.
    + constructor; [| exact Hcut]. unfold wellCut, chunk. cbn [SheetsRange ChunkID fst snd].
      split; [lia | reflexivity].
    + change (len (chunk :: rest)) with (Z.of_nat (S (length rest))).
      rewrite Nat2Z.inj_succ. fold (len rest). rewrite Hlen.
      destruct (Z.le_gt_cases sheetsCount (i + chunkSize)) as [Hlast | Hmore].
      * rewrite Z.max_l by lia. rewrite Z.max_r by lia.
        rewrite (Z.div_small (0 + chunkSize - 1)) by lia.
        rewrite <- (Z.div_unique (sheetsCount - i + chunkSize - 1) chunkSize 1
                              (sheetsCount - i - 1)); lia.
      * rewrite !Z.max_r by lia.
        replace (sheetsCount - i + chunkSize - 1)
          with (1 * chunkSize + (sheetsCount - (i + chunkSize) + chunkSize - 1)) by lia.
        rewrite Z.div_add_l by lia. lia.
  - apply Z.ltb_ge in Hlt. exists []. rewrite app_nil_r. split; [reflexivity |].
    split; [| split; [constructor |]].
    + cbn. rewrite seqZ_nil by lia. reflexivity.
    + change (len (@nil Chunk)) with 0. rewrite Z.max_l by lia. rewrite Z.div_small; lia.
Qed.

(** X26.  For a chunk size of at least one, [createChunks] returns once it
    has fuel for one round more than there are sheets; the chunks list every
    sheet index from 0 on exactly once and in order, each chunk holds between
    one and [chunkSize] sheets and is named [chunk_<first>_<last>], and there
    are [ceil(sheetsCount / chunkSize)] chunks. *)
Theorem createChunks_cover fuel file sheetsCount chunkSize streamMode checksum now :
  1 <= chunkSize -> 0 <= sheetsCount -> sheetsCount + chunkSize < 2 ^ 63 ->
  (Z.to_nat sheetsCount < fuel)%nat ->
  exists chunks,
    createChunks fuel file sheetsCount chunkSize streamMode checksum now =
      Some (Done chunks) /\
    flat_map sheetsOf chunks = seqZ 0 sheetsCount /\
    Forall (wellCut chunkSize) chunks /\
    len chunks = (sheetsCount + chunkSize - 1) / chunkSize.
Proof.
  intros Hsize Hcount Hfit Hfuel.
  destruct (chunksFrom_cover fuel file 0 sheetsCount chunkSize streamMode checksum now []
              Hsize ltac:(lia) Hfit ltac:(lia) ltac:(rewrite Z.sub_0_r; exact Hfuel))
    as (rest & Hrun & Hcover & Hcut & Hlen).
  exists rest. unfold createChunks. rewrite Hrun.
  rewrite Z.sub_0_r in Hcover, Hlen. rewrite Z.max_r in Hlen by lia.
  now repeat split.
Qed.

Lemma chunksFrom_stuck fuel file sheetsCount streamMode checksum now i chunks :
  0 <= i < sheetsCount -> sheetsCount < 2 ^ 63 ->
  chunksFrom fuel file i sheetsCount 0 streamMode checksum now chunks = None.
Proof.
  intros Hi Hint. revert chunks. induction fuel as [| fuel IH]; intros chunks; [reflexivity |].
  cbn [chunksFrom]. destruct (i <? sheetsCount) eqn:Hlt; [| lia].
  destruct (estimateChunkSize_returns file i
              (if sheetsCount <? wrap64 (i + 0) then sheetsCount else wrap64 (i + 0))
              ltac:(lia)) as [sizeBytes ->].
  assert (Hw : wrap64 (i + 0) = i).
  { rewrite Z.add_0_r. apply wrap64_small. lia. }
  rewrite Hw. apply IH.
Qed.

(** X27.  With a chunk size of zero and at least one sheet the loop of
    [createChunks] never ends: it appends the chunk [chunk_0_-1] over and
    over, whatever number of rounds it is given. *)
Theorem createChunks_zero_size_never_returns fuel file sheetsCount streamMode checksum now :
  0 < sheetsCount < 2 ^ 63 ->
  createChunks fuel file sheetsCount 0 streamMode checksum now = None.
Proof.
  intros Hcount. apply chunksFrom_stuck; lia.
Qed.

End Chunks.

Lemma createChunks_cover_witness :
  exists chunks,
    createChunks 6 IndexFacts.sampleFile 5 2 true "9f86" (fun i => (1700000000 + i) * Second) =
      Some (Done chunks) /\
    flat_map sheetsOf chunks = seqZ 0 5 /\
    Forall (wellCut 2) chunks /\
    len chunks = (5 + 2 - 1) / 2.
Proof.
  apply (createChunks_cover (H := goCodec)); lia.
Defined.

Lemma createChunks_zero_size_never_returns_witness :
  createChunks 1000 IndexFacts.sampleFile 2 0 true "9f86" (fun _ => 1700000000 * Second) = None.
Proof.
  apply (createChunks_zero_size_never_returns (H := goCodec)). lia.
Defined.

End AnalysisFacts.

(** ** Rows read by the scan path of query_data (extractRealSheetData) *)

Module SheetData.
Import Tools.

(** The workbook the function opens, whatever file the navigation index was
    built from. *)
Definition workbookPath : string := "/Volumes/SSD/MCP/COMBINE INTERACTIF 02 2025.xlsm".

(** [strings.ReplaceAll(value, " ", "")] *)
Fixpoint dropSpaces (s : string) : string :=
  match s with
  | EmptyString => EmptyString
  | String a s' => if Ascii.eqb a (Ascii.ascii_of_nat 32) then dropSpaces s' else String a (dropSpaces s')
  end.

(** [strings.ReplaceAll(cleaned, ",", ".")] *)
Fixpoint commasToDots (s : string) : string :=
  match s with
  | EmptyString => EmptyString
  | String a s' => String (if Ascii.eqb a (Ascii.ascii_of_nat 44) then Ascii.ascii_of_nat 46 else a) (commasToDots s')
  end.

Section WithWorkbook.
(** [excelize.OpenFile], and [fmt.Sscanf(cleaned, "%f", &result)]: the number
    when exactly one was read without error. *)
Variable OpenFile : string -> result Index.File.
Variable Sscanf : string -> option float.

Definition parseFinancialValue (value : string) : result float :=
  if String.eqb value "" then Err "empty value"
  else
    let cleaned := dropSpaces value in
    let cleaned := commasToDots cleaned in
    match Sscanf cleaned with
    | Some result => Ok result
    | None => Err ("not a number: " +:+ value)
    end.

(** [cell != nil && cell != ""] on an [interface{}]. *)
Definition nonEmptyCell (cell : param) : bool :=
  match cell with
  | PNil => false
  | PString s => negb (String.eqb s "")
  | _ => true
  end.

Definition hasNonEmptyData (row : list param) : bool := existsb nonEmptyCell row.

(** The inner loop of [extractRealSheetData], [j] the index of the head. *)
Fixpoint processFrom (row : list string) (j : Z) : list param :=
  match row with
  | [] => []
  | cell :: rest =>
      if 20 <? j then []
      else
        (if String.eqb cell "" then PNil
         else match parseFinancialValue cell with
              | Ok num => PFloat num
              | Err _ => PString cell
              end) :: processFrom rest (j + 1)
  end.

(** The outer loop, [i] the index of the head. *)
Fixpoint extractFrom (rows : list (list string)) (i maxRowsToProcess : Z)
  : list (list param) :=
  match rows with
  | [] => []
  | row :: rest =>
      if maxRowsToProcess <=? i then []
      else
        let processedRow := processFrom row 0 in
        if (0 <? len processedRow) && hasNonEmptyData processedRow
        then processedRow :: extractFrom rest (i + 1) maxRowsToProcess
        else extractFrom rest (i + 1) maxRowsToProcess
  end.

Definition extractRealSheetData (sheetName : string) (maxRows : Z)
  : result (list (list param)) :=
  match OpenFile workbookPath with
  | Err e => Err ("failed to open Excel file: " +:+ e)
  | Ok file =>
      match Index.GetRows file sheetName with
      | Err e => Err ("failed to get rows from sheet " +:+ sheetName +:+ ": " +:+ e)
      | Ok rows =>
          let maxRowsToProcess :=
            if (0 <? maxRows) && (maxRows <? len rows) then maxRows else len rows in
          Ok (extractFrom rows 0 maxRowsToProcess)
      end
  end.

End WithWorkbook.

End SheetData.

Module SheetDataFacts.
Import Tools SheetData.

Section Rows.
Variable OpenFile : string -> result Index.File.
Variable Sscanf : string -> option float.

(** What becomes of one cell, and of one row: its first 21 cells. *)
Definition cellOf (cell : string) : param :=
  if String.eqb cell "" then PNil
  else match Sscanf (commasToDots (dropSpaces cell)) with
       | Some num => PFloat num
       | None => PString cell
       end.

Definition rowOf (row : list string) : list param := List.map cellOf (firstn 21 row).

(** A row with something in its first 21 cells. *)
Definition hasData (row : list string) : bool :=
  existsb (fun cell => negb (String.eqb cell "")) (firstn 21 row).

Lemma processFrom_map row j :
  0 <= j <= 21 ->
  processFrom Sscanf row j = List.map cellOf (firstn (Z.to_nat (21 - j)) row).
Proof.
  revert j. induction row as [| cell rest IH]; intros j Hj.
  - now rewrite firstn_nil.
  - cbn [processFrom]. destruct (20 <? j) eqn:E.
    + replace (21 - j) with 0 by lia. reflexivity.
    + replace (Z.to_nat (21 - j)) with (S (Z.to_nat (21 - (j + 1)))) by lia.
      cbn [firstn List.map]. rewrite IH by lia. f_equal.
      unfold cellOf, parseFinancialValue. destruct (String.eqb cell ""); [reflexivity |].
      now destruct (Sscanf _).
Qed.

Lemma nonEmptyCell_cellOf cell : nonEmptyCell (cellOf cell) = negb (String.eqb cell "").
Proof.
  unfold cellOf. destruct (String.eqb cell "") eqn:E; [reflexivity |].
  destruct (Sscanf _); [reflexivity |]. cbn. now rewrite E.
Qed.

Lemma keeps_rowOf row :
  (0 <? len (rowOf row)) && hasNonEmptyData (rowOf row) = hasData row.
Proof.
  unfold hasNonEmptyData, hasData, rowOf.
  induction (firstn 21 row) as [| cell cells IH]; [reflexivity |].
  cbn [List.map existsb]. rewrite nonEmptyCell_cellOf.
  change (0 <? len (cellOf cell :: List.map cellOf cells)) with
    (0 <? Z.of_nat (S (length (List.map cellOf cells)))).
  replace (0 <? Z.of_nat (S (length (List.map cellOf cells)))) with true
    by (symmetry; apply Z.ltb_lt; lia).
  cbn [andb]. destruct (negb (String.eqb cell "")); [reflexivity |].
  cbn [orb]. rewrite <- IH. destruct cells; reflexivity.
Qed.

Lemma extractFrom_filter rows i maxRowsToProcess :
  0 <= i ->
  extractFrom Sscanf rows i maxRowsToProcess =
    List.map rowOf (List.filter hasData (firstn (Z.to_nat (maxRowsToProcess - i)) rows)).
Proof.
  revert i. induction rows as [| row rest IH]; intros i Hi.
  - now rewrite firstn_nil.
  - cbn [extractFrom]. destruct (maxRowsToProcess <=? i) eqn:E.
    + replace (Z.to_nat (maxRowsToProcess - i)) with O by lia. reflexivity.
    + replace (Z.to_nat (maxRowsToProcess - i))
        with (S (Z.to_nat (maxRowsToProcess - (i + 1)))) by lia.
      cbn [firstn List.filter]. rewrite (processFrom_map row 0) by lia.
      change (Z.to_nat (21 - 0)) with 21%nat. fold (rowOf row).
      rewrite keeps_rowOf, IH by lia.
      destruct (hasData row); reflexivity.
Qed.

Lemma rowOf_shape row :
  hasData row = true ->
  1 <= len (rowOf row) <= 21 /\ existsb nonEmptyCell (rowOf row) = true /\
  ~ In (PString "") (rowOf row).
Proof.
  intros Hdata. pose proof (keeps_rowOf row) as Hkeep. rewrite Hdata in Hkeep.
  apply andb_true_iff in Hkeep as [Hlen Hsome].
  split; [| split; [exact Hsome |]].
  - split; [lia |]. unfold rowOf, len. rewrite length_map, length_firstn. lia.
  - unfold rowOf. intros Hin. apply in_map_iff in Hin as (cell & Hcell & _).
    unfold cellOf in Hcell. destruct (String.eqb cell "") eqn:E; [discriminate |].
    destruct (Sscanf _); [discriminate |]. inversion Hcell; subst. discriminate.
Qed.

(** X28.  When the fixed workbook opens and has the sheet,
    [extractRealSheetData] returns, in order, the rows that hold something in
    their first 21 cells, taken from the first [maxRows] rows of the sheet or
    from all of them when [maxRows] is zero or negative; each is cut to 21
    cells, an empty cell becoming nil and a cell [Sscanf] reads becoming its
    number.  So a returned row has 1 to 21 cells, one of them not nil, and a
    positive [maxRows] bounds the number of rows. *)
Theorem extractRealSheetData_rows file sheetName rows maxRows :
  OpenFile workbookPath = Ok file ->
  Index.GetRows file sheetName = Ok rows ->
  exists data,
    extractRealSheetData OpenFile Sscanf sheetName maxRows = Ok data /\
    data = List.map rowOf
             (List.filter hasData
                (if 0 <? maxRows then firstn (Z.to_nat maxRows) rows else rows)) /\
    Forall (fun row => 1 <= len row <= 21 /\ existsb nonEmptyCell row = true /\
                       ~ In (PString "") row) data /\
    (0 < maxRows -> len data <= maxRows).
Proof.
  intros Hopen Hrows. eexists. split; [| split; [reflexivity |]].
  - unfold extractRealSheetData. rewrite Hopen, Hrows, extractFrom_filter by lia.
    rewrite Z.sub_0_r. do 3 f_equal.
    destruct (0 <? maxRows) eqn:Hpos; cbn [andb].
    + destruct (maxRows <? len rows) eqn:Hcut; [reflexivity |].
      apply Z.ltb_ge in Hcut.
      rewrite (firstn_all2 (n := Z.to_nat (len rows))) by (unfold len; lia).
      rewrite firstn_all2 by (unfold len in Hcut; lia). reflexivity.
    + unfold len. rewrite Nat2Z.id. apply firstn_all.
  - split.
    + apply List.Forall_forall. intros r Hin.
      apply in_map_iff in Hin as (row & <- & Hin).
      apply filter_In in Hin as [_ Hdata]. now apply rowOf_shape.
    + intros Hpos. unfold len. rewrite length_map.
      replace (0 <? maxRows) with true by (symmetry; apply Z.ltb_lt; lia).
      pose proof (List.filter_length_le hasData (firstn (Z.to_nat maxRows) rows)) as Hf.
      rewrite length_firstn in Hf. lia.
Qed.

End Rows.

(** A sheet of five rows behind the fixed path, and a scanner that reads one
    number. *)
Definition sampleRows : list (list string) :=
  [["Rayon"; ""; "1 234,5"]; [""; ""]; []; ["Frais"]; ["Marges"]].

Definition sampleBook : Index.File :=
  Index.mkFile ["Ventes"]
    (fun name => if String.eqb name "Ventes" then Ok sampleRows
                 else Err "sheet does not exist").

Definition sampleOpen (path : string) : result Index.File :=
  if String.eqb path workbookPath then Ok sampleBook else Err "open: no such file".

Definition sampleScan (s : string) : option float :=
  if String.eqb s "1234.5" then Some 1234.5%float else None.

Lemma extractRealSheetData_rows_witness :
  exists data,
    extractRealSheetData sampleOpen sampleScan "Ventes" 4 = Ok data /\
    data = [[PString "Rayon"; PNil; PFloat 1234.5]; [PString "Frais"]] /\
    Forall (fun row => 1 <= len row <= 21 /\ existsb nonEmptyCell row = true /\
                       ~ In (PString "") row) data /\
    (0 < 4 -> len data <= 4).
Proof.
  exact (extractRealSheetData_rows sampleOpen sampleScan sampleBook "Ventes" sampleRows 4
           eq_refl eq_refl).
Defined.

End SheetDataFacts.

(** ** The navigation index of build_navigation_map (internal/server/tools.go) *)

Module Navigation.
Import Tools.

(** [createZones]: zones of 1000 rows.  The loop advances 1000 rows a round,
    so [totalRows] rounds are more than it runs ([zonesFrom_rounds]). *)
Fixpoint zonesFrom (rounds : nat) (startRow zoneID totalRows totalCols : Z)
    (zones : list Zone) : list Zone :=
  match rounds with
  | O => zones
  | S rounds' =>
      if startRow <? totalRows then
        let endRow := wrap64 (startRow + 1000) in
        let endRow := if totalRows <? endRow then totalRows else endRow in
        let startCellRef := Index.CoordinatesToCellName 1 (wrap64 (startRow + 1)) in
        let endCellRef := Index.CoordinatesToCellName totalCols endRow in
        let zone := mkZone ("zone_" +:+ pretty zoneID) (startCellRef +:+ ":" +:+ endCellRef)
                           1000 (500 <? wrap64 (endRow - startRow)) in
        zonesFrom rounds' (wrap64 (startRow + 1000)) (wrap64 (zoneID + 1)) totalRows totalCols
                  (zones ++ [zone])
      else zones
  end.

Definition createZones (totalRows totalCols : Z) : list Zone :=
  zonesFrom (Z.to_nat totalRows) 0 0 totalRows totalCols [].

(** The two loops of [identifyKeyPoints], the index of the head as argument. *)
Fixpoint headerFrom (cells : list string) (colIdx : Z) : list string :=
  match cells with
  | [] => []
  | _ :: rest =>
      if 5 <=? colIdx then []
      else Index.CoordinatesToCellName (colIdx + 1) 1 :: headerFrom rest (colIdx + 1)
  end.

Fixpoint firstColumnFrom (rows : list (list string)) (rowIdx : Z) : list string :=
  match rows with
  | [] => []
  | _ :: rest =>
      if 5 <=? rowIdx then []
      else Index.CoordinatesToCellName 1 (rowIdx + 1) :: firstColumnFrom rest (rowIdx + 1)
  end.

Definition identifyKeyPoints (rows : list (list string)) : list string :=
  let keyPoints :=
    match rows with
    | row0 :: _ => if 0 <? len row0 then ["A1"] else []
    | [] => []
    end in
  let keyPoints :=
    match rows with
    | row0 :: _ => keyPoints ++ headerFrom row0 0
    | [] => keyPoints
    end in
  keyPoints ++ firstColumnFrom rows 0.

(** The loops of [calculateDensityInWindow], the index of the head as
    argument; the pair is ([totalCells], [nonEmptyCells]). *)
Fixpoint countCells (cells : list string) (col endCol : Z) (counts : Z * Z) : Z * Z :=
  match cells with
  | [] => counts
  | cell :: rest =>
      if endCol <=? col then counts
      else countCells rest (col + 1) endCol
             (wrap64 (fst counts + 1),
              if negb (String.eqb cell "") then wrap64 (snd counts + 1) else snd counts)
  end.

Fixpoint countWindow (rows : list (list string)) (row endRow startCol windowSize : Z)
    (counts : Z * Z) : Z * Z :=
  match rows with
  | [] => counts
  | cells :: rest =>
      if endRow <=? row then counts
      else countWindow rest (row + 1) endRow startCol windowSize
             (countCells (skipn (Z.to_nat startCol) cells) startCol
                         (wrap64 (startCol + windowSize)) counts)
  end.

(** [startRow] and [startCol] are never negative where the function is
    called. *)
Definition calculateDensityInWindow (rows : list (list string))
    (startRow startCol windowSize : Z) : float :=
  let '(totalCells, nonEmptyCells) :=
    countWindow (skipn (Z.to_nat startRow) rows) startRow (wrap64 (startRow + windowSize))
                startCol windowSize (0, 0) in
  if totalCells =? 0 then 0%float
  else (float64_of_int nonEmptyCells / float64_of_int totalCells)%float.

(** The body of the inner loop of [identifyHotZones]. *)
#[warnings="-inexact-float"]
Definition hotZoneAt (rows : list (list string)) (startRow startCol : Z)
    (hotZones : list string) : list string :=
  let windowSize := 10 in
  let threshold := 0.7%float in
  let density := calculateDensityInWindow rows startRow startCol windowSize in
  if PrimFloat.ltb threshold density then
    let startCellRef :=
      Index.CoordinatesToCellName (wrap64 (startCol + 1)) (wrap64 (startRow + 1)) in
    let endCellRef :=
      Index.CoordinatesToCellName (wrap64 (startCol + windowSize))
                                  (wrap64 (startRow + windowSize)) in
    hotZones ++ [startCellRef +:+ ":" +:+ endCellRef]
  else hotZones.

(** The outer loop advances 10 rows a round, the inner one visits the
    columns 0, 10, 20, 30 and 40. *)
Fixpoint hotFrom (rounds : nat) (rows : list (list string)) (startRow : Z)
    (hotZones : list string) : list string :=
  match rounds with
  | O => hotZones
  | S rounds' =>
      if startRow <? wrap64 (len rows - 10) then
        hotFrom rounds' rows (wrap64 (startRow + 10))
                (fold_left (fun hotZones startCol => hotZoneAt rows startRow startCol hotZones)
                           [0; 10; 20; 30; 40] hotZones)
      else hotZones
  end.

Definition identifyHotZones (rows : list (list string)) : list string :=
  hotFrom (length rows) rows 0 [].

Section WithBook.
Context `{Index.BloomFilter}.

(** [file.GetCellFormula] of the open workbook. *)
Variable GetCellFormula : string -> string -> result string.

(** The loops of [buildSheetIndex]; the pair is ([nonEmptyCells],
    [hasFormulas]). *)
Fixpoint scanCells (sheetName : string) (totalRows : Z) (cells : list string) (colIdx : Z)
    (seen : Z * bool) : Z * bool :=
  match cells with
  | [] => seen
  | cell :: rest =>
      let nonEmptyCells :=
        if negb (String.eqb cell "") then wrap64 (fst seen + 1) else fst seen in
      let hasFormulas :=
        if negb (snd seen) && (colIdx <? 10) then
          match GetCellFormula sheetName (Index.CoordinatesToCellName (colIdx + 1) totalRows)
          with
          | Ok formula => if negb (String.eqb formula "") then true else snd seen
          | Err _ => snd seen
          end
        else snd seen in
      scanCells sheetName totalRows rest (colIdx + 1) (nonEmptyCells, hasFormulas)
  end.

Fixpoint scanRows (sheetName : string) (totalRows : Z) (rows : list (list string))
    (totalCols : Z) (seen : Z * bool) : Z * (Z * bool) :=
  match rows with
  | [] => (totalCols, seen)
  | row :: rest =>
      let totalCols := if totalCols <? len row then len row else totalCols in
      scanRows sheetName totalRows rest totalCols (scanCells sheetName totalRows row 0 seen)
  end.

Definition buildSheetIndex (file : Index.File) (sheetName : string) (sheetID : Z)
  : result SheetIndex :=
  match Index.GetRows file sheetName with
  | Err e => Err e
  | Ok rows =>
      let totalRows := len rows in
      let '(totalCols, (nonEmptyCells, hasFormulas)) :=
        scanRows sheetName totalRows rows 0 (0, false) in
      let dataDensity :=
        if 0 <? wrap64 (totalRows * totalCols)
        then (float64_of_int nonEmptyCells / float64_of_int (wrap64 (totalRows * totalCols)))%float
        else 0%float in
      let metadata :=
        mkSheetMetadata totalRows totalCols dataDensity hasFormulas
                        (wrap64 (nonEmptyCells * 50)) in
      Ok (mkSheetIndex ("sheet_" +:+ pretty sheetID) sheetName metadata
                       (createZones totalRows totalCols)
                       (identifyKeyPoints rows)
                       (identifyHotZones rows))
  end.

(** [buildSearchIndex]; [None] when an insertion into the quadtree does not
    return. *)
Definition buildSearchIndex (file : Index.File) (sheetIndex : list SheetIndex) (now : Z)
  : option (result SearchIndex) :=
  let indexManager := Index.NewManager in
  let sheetNames := List.map Name sheetIndex in
  match Index.BuildFromFile indexManager file sheetNames now with
  | None => None
  | Some (_, Err e) => Some (Err e)
  | Some (indexManager, Ok _) =>
      Some (Ok (mkSearchIndex (len (Index.primary indexManager))
                              (Z.of_nat (size (Index.inverted indexManager)))
                              (Index.countPoints (Index.spatial indexManager))))
  end.

(** The loop of [buildNavigationIndex] over the sheets from index [i] on. *)
Fixpoint sheetsFrom (file : Index.File) (sheets : list string) (i endIdx : Z)
    (sheetsInChunk : list string) (sheetIndex : list SheetIndex)
  : result (list string * list SheetIndex) :=
  match sheets with
  | [] => Ok (sheetsInChunk, sheetIndex)
  | sheetName :: rest =>
      if endIdx <=? i then Ok (sheetsInChunk, sheetIndex)
      else
        match buildSheetIndex file sheetName i with
        | Err e => Err ("failed to build sheet index for " +:+ sheetName +:+ ": " +:+ e)
        | Ok sheetIdx =>
            sheetsFrom file rest (i + 1) endIdx (sheetsInChunk ++ [sheetName])
                       (sheetIndex ++ [sheetIdx])
        end
  end.

(** [buildNavigationIndex]: the division by [windowSize] and [sheetList[i]]
    with a negative [i] panic; [buildConnections] returns three empty lists
    and no error.  The two checksum fields are filled in by the caller. *)
Definition buildNavigationIndex (file : Index.File) (currentChunk : string)
    (offset windowSize : Z) (streamResults checksumMatch : bool) (now : Z)
  : option (outcome (result NavigationIndex)) :=
  let sheetList := Index.GetSheetList file in
  let totalSheets := len sheetList in
  match goDiv (wrap64 (wrap64 (totalSheets + windowSize) - 1)) windowSize with
  | Panic => Some Panic
  | Done totalChunks =>
      let startIdx := offset in
      let endIdx := wrap64 (startIdx + windowSize) in
      let endIdx := if totalSheets <? endIdx then totalSheets else endIdx in
      if (startIdx <? endIdx) && (startIdx <? 0) then Some Panic
      else
        match sheetsFrom file (skipn (Z.to_nat startIdx) sheetList) startIdx endIdx [] [] with
        | Err e => Some (Done (Err e))
        | Ok (sheetsInChunk, sheetIndex) =>
            match buildSearchIndex file sheetIndex now with
            | None => None
            | Some (Err e) => Some (Done (Err ("failed to build search index: " +:+ e)))
            | Some (Ok searchIndex) =>
                Some (Done (Ok (mkNavigationIndex false false
                                  (mkChunkInfo currentChunk totalChunks sheetsInChunk
                                               streamResults)
                                  sheetIndex searchIndex
                                  (mkDeltaTracking now [] (negb checksumMatch)))))
            end
        end
  end.

End WithBook.

End Navigation.

Module NavigationFacts.
Import Tools Navigation.

(** *** Zones *)

Lemma zonesFrom_count rounds startRow zoneID totalRows totalCols zones :
  0 <= startRow -> startRow < totalRows + 1000 -> totalRows < 2 ^ 62 ->
  (Z.to_nat (totalRows - startRow) <= rounds)%nat ->
  len (zonesFrom rounds startRow zoneID totalRows totalCols zones) =
    len zones + (Z.max 0 (totalRows - startRow) + 999) / 1000.
Proof.
  revert startRow zoneID zones.
  induction rounds as [| rounds IH]; intros startRow zoneID zones Hs Hn Hfit Hrounds.
  - cbn [zonesFrom]. rewrite Z.max_l by lia. change ((0 + 999) / 1000) with 0. lia.
  - cbn [zonesFrom]. destruct (startRow <? totalRows) eqn:Hlt.
    + apply Z.ltb_lt in Hlt. rewrite (wrap64_small (startRow + 1000)) by lia.
      rewrite IH by lia. rewrite IndexFacts.len_app.
      change (len [_]) with 1. rewrite (Z.max_r 0 (totalRows - startRow)) by lia.
      destruct (Z.le_gt_cases totalRows (startRow + 1000)) as [Hlast | Hmore].
      * rewrite Z.max_l by lia. change ((0 + 999) / 1000) with 0.
        rewrite <- (Z.div_unique (totalRows - startRow + 999) 1000 1
                                 (totalRows - startRow - 1)); lia.
      * rewrite Z.max_r by lia.
        replace (totalRows - startRow + 999)
          with (1 * 1000 + (totalRows - (startRow + 1000) + 999)) by lia.
        rewrite Z.div_add_l by lia. lia.
    + apply Z.ltb_ge in Hlt. rewrite Z.max_l by lia. change ((0 + 999) / 1000) with 0. lia.
Qed.

Lemma createZones_count totalRows totalCols :
  0 <= totalRows < 2 ^ 62 ->
  len (createZones totalRows totalCols) = (totalRows + 999) / 1000.
Proof.
  intros Hn. unfold createZones. rewrite zonesFrom_count by lia.
  change (len (@nil Zone)) with 0. rewrite Z.sub_0_r, Z.max_r by lia. lia.
Qed.

Section Chunk.
Context `{Index.BloomFilter}.
Variable GetCellFormula : string -> string -> result string.

(** The sheets of the chunk that starts at [offset]. *)
Definition chunkSheets (file : Index.File) (offset windowSize : Z) : list string :=
  firstn (Z.to_nat windowSize) (skipn (Z.to_nat offset) (Index.GetSheetList file)).

(** What an entry of the sheet index says of its sheet. *)
Definition describes (file : Index.File) (sheetName : string) (entry : SheetIndex) : Prop :=
  Name entry = sheetName /\
  exists rows,
    Index.GetRows file sheetName = Ok rows /\
    Rows (Metadata entry) = len rows /\
    (len rows < 2 ^ 62 -> len (Zones entry) = (len rows + 999) / 1000).

Lemma buildSheetIndex_describes file sheetName sheetID rows :
  Index.GetRows file sheetName = Ok rows ->
  exists entry,
    buildSheetIndex GetCellFormula file sheetName sheetID = Ok entry /\
    SheetID entry = "sheet_" +:+ pretty sheetID /\
    describes file sheetName entry.
Proof.
  intros Hrows. unfold buildSheetIndex. rewrite Hrows.
  destruct (scanRows GetCellFormula sheetName (len rows) rows 0 (0, false))
    as [totalCols [nonEmptyCells hasFormulas]].
  eexists. split; [reflexivity |]. split; [reflexivity |].
  split; [reflexivity |]. exists rows. split; [exact Hrows |]. split; [reflexivity |].
  intros Hfit. cbn [Zones]. apply createZones_count. unfold len in *. lia.
Qed.

Lemma sheetsFrom_window file sheets : forall i endIdx sheetsInChunk sheetIndex,
  (forall name, In name (firstn (Z.to_nat (endIdx - i)) sheets) ->
                exists rows, Index.GetRows file name = Ok rows) ->
  exists entries,
    sheetsFrom GetCellFormula file sheets i endIdx sheetsInChunk sheetIndex =
      Ok (sheetsInChunk ++ firstn (Z.to_nat (endIdx - i)) sheets, sheetIndex ++ entries) /\
    Forall2 (describes file) (firstn (Z.to_nat (endIdx - i)) sheets) entries /\
    List.map SheetID entries =
      List.map (fun k => "sheet_" +:+ pretty k)
               (seqZ i (len (firstn (Z.to_nat (endIdx - i)) sheets))).
Proof.
  induction sheets as [| sheetName rest IH]; intros i endIdx sheetsInChunk sheetIndex Hread.
  - exists []. rewrite firstn_nil, !app_nil_r. repeat split. constructor.
  - cbn [sheetsFrom]. destruct (endIdx <=? i) eqn:Hend.
    + apply Z.leb_le in Hend. replace (Z.to_nat (endIdx - i)) with O by lia.
      exists []. cbn [firstn]. rewrite !app_nil_r. repeat split. constructor.
    + apply Z.leb_gt in Hend.
      replace (Z.to_nat (endIdx - i)) with (S (Z.to_nat (endIdx - (i + 1)))) in * by lia.
      cbn [firstn] in *.
      destruct (Hread sheetName (or_introl eq_refl)) as [rows Hrows].
      destruct (buildSheetIndex_describes file sheetName i rows Hrows)
        as (entry & -> & Hid & Hentry).
      destruct (IH (i + 1) endIdx (sheetsInChunk ++ [sheetName]) (sheetIndex ++ [entry]))
        as (entries & Hrun & Hall & Hids).
      { intros name Hin. apply Hread. now right. }
      exists (entry :: entries). rewrite Hrun, <- !app_assoc. split; [reflexivity |].
      split; [now constructor |].
      change (len (sheetName :: firstn (Z.to_nat (endIdx - (i + 1))) rest))
        with (Z.of_nat (S (length (firstn (Z.to_nat (endIdx - (i + 1))) rest)))).
      rewrite Nat2Z.inj_succ, seqZ_cons by lia. cbn [List.map]. rewrite Hid. f_equal.
      rewrite Hids. unfold len. do 2 f_equal; lia.
Qed.

Lemma indexSheets_readable file sheetNames : forall idx idx' res,
  (forall name, In name sheetNames -> exists rows, Index.GetRows file name = Ok rows) ->
  Index.indexSheets idx file sheetNames = Some (idx', res) -> res = Ok tt.
Proof.
  induction sheetNames as [| s rest IH]; intros idx idx' res Hread Hrun.
  - cbn in Hrun. now inversion Hrun.
  - cbn [Index.indexSheets] in Hrun. unfold Index.indexSheet in Hrun.
    destruct (Hread s (or_introl eq_refl)) as [rows Hrows]. rewrite Hrows in Hrun.
    destruct (Index.indexRows idx s 0 rows) as [idx1 |]; [| discriminate].
    apply (IH idx1 idx' res); [| exact Hrun]. intros name Hin. apply Hread. now right.
Qed.

Lemma buildSearchIndex_readable file sheetIndex now :
  (forall name, In name (List.map Name sheetIndex) ->
                exists rows, Index.GetRows file name = Ok rows) ->
  exists searchIndex, buildSearchIndex file sheetIndex now = Some (Ok searchIndex).
Proof.
  intros Hread. unfold buildSearchIndex, Index.BuildFromFile.
  destruct (IndexFacts.indexSheets_spec file (List.map Name sheetIndex) Index.NewManager
              IndexFacts.Good_New) as (idx' & res & Hrun & _).
  rewrite Hrun. rewrite (indexSheets_readable _ _ _ _ _ Hread Hrun). eauto.
Qed.

Lemma describes_names file names entries :
  Forall2 (describes file) names entries -> List.map Name entries = names.
Proof.
  induction 1 as [| name entry names entries [Hname _] _ IH]; [reflexivity |].
  cbn [List.map]. now rewrite Hname, IH.
Qed.

(** X29.  For a window size of at least one and an offset that is not
    negative, when the sheets of the window can be read,
    [buildNavigationIndex] returns an index of exactly that window: the
    [windowSize] sheets from position [offset] of the sheet list (none when the
    offset is past the end), listed by name in [SheetsInChunk] and described in
    the same order in [SheetIndex], the entry of position [i] being [sheet_i]
    with the row count of its sheet and one zone for each started thousand of
    rows; [TotalChunks] is the number of sheets over the window size, rounded
    up. *)
Theorem buildNavigationIndex_window
    file currentChunk offset windowSize streamResults checksumMatch now :
  1 <= windowSize -> 0 <= offset -> offset + windowSize < 2 ^ 63 ->
  len (Index.GetSheetList file) + windowSize < 2 ^ 63 ->
  (forall name, In name (chunkSheets file offset windowSize) ->
                exists rows, Index.GetRows file name = Ok rows) ->
  exists nav,
    buildNavigationIndex GetCellFormula file currentChunk offset windowSize streamResults
                         checksumMatch now = Some (Done (Ok nav)) /\
    SheetsInChunk (NavChunkInfo nav) = chunkSheets file offset windowSize /\
    Forall2 (describes file) (chunkSheets file offset windowSize) (NavSheetIndex nav) /\
    List.map SheetID (NavSheetIndex nav) =
      List.map (fun i => "sheet_" +:+ pretty i)
               (seqZ offset (len (chunkSheets file offset windowSize))) /\
    TotalChunks (NavChunkInfo nav) =
      (len (Index.GetSheetList file) + windowSize - 1) / windowSize /\
    Current (NavChunkInfo nav) = currentChunk /\
    RebuildRequired (NavDeltaTracking nav) = negb checksumMatch.
Proof.
  intros Hws Hoff Hfit Htotal Hread. unfold buildNavigationIndex. cbv zeta.
  set (sheetList := Index.GetSheetList file) in *.
  unfold goDiv. destruct (windowSize =? 0) eqn:Hz; [lia |].
  rewrite (wrap64_small (offset + windowSize)) by lia.
  set (endIdx := if len sheetList <? offset + windowSize then len sheetList
                 else offset + windowSize).
  assert (HendIdx : endIdx = Z.min (len sheetList) (offset + windowSize)).
  { unfold endIdx. destruct (len sheetList <? offset + windowSize) eqn:E; lia. }
  replace (offset <? 0) with false by (symmetry; apply Z.ltb_ge; lia).
  rewrite andb_false_r.
  assert (Hwin : firstn (Z.to_nat (endIdx - offset)) (skipn (Z.to_nat offset) sheetList) =
                 chunkSheets file offset windowSize).
  { unfold chunkSheets. fold sheetList.
    destruct (Z.le_gt_cases (offset + windowSize) (len sheetList)) as [Hin | Hout].
    - f_equal. lia.
    - rewrite !firstn_all2; [reflexivity | rewrite length_skipn; unfold len in *; lia ..]. }
  destruct (sheetsFrom_window file (skipn (Z.to_nat offset) sheetList) offset endIdx [] [])
    as (entries & Hrun & Hall & Hids).
  { rewrite Hwin. exact Hread. }
  rewrite Hrun, Hwin in *. cbn [app] in *.
  destruct (buildSearchIndex_readable file entries now) as [searchIndex Hsearch].
  { rewrite (describes_names _ _ _ Hall). exact Hread. }
  rewrite Hsearch. eexists. split; [reflexivity |].
  cbn [NavChunkInfo NavSheetIndex NavDeltaTracking SheetsInChunk TotalChunks Current
       RebuildRequired].
  repeat split; try assumption.
  assert (Hlen : 0 <= len sheetList) by (unfold len; lia).
  rewrite (wrap64_small (len sheetList + windowSize)) by lia.
  rewrite (wrap64_small (len sheetList + windowSize - 1)) by lia.
  rewrite Z.quot_div_nonneg by lia. apply wrap64_small.
  pose proof (Z.div_pos (len sheetList + windowSize - 1) windowSize ltac:(lia) ltac:(lia)).
  assert ((len sheetList + windowSize - 1) / windowSize <= len sheetList + windowSize - 1)
    by (apply Z.div_le_upper_bound; nia).
  lia.
Qed.

(** X30.  Where [buildNavigationIndex] panics: always for a window size of
    zero (an integer division) and for a negative offset with a positive
    window size (the sheet list is indexed at the offset); never for an offset
    that is not negative and a window size other than zero. *)
Theorem buildNavigationIndex_panics
    file currentChunk offset windowSize streamResults checksumMatch now :
  Cursor.int64 offset -> Cursor.int64 windowSize ->
  (windowSize = 0 \/ (offset < 0 /\ 0 < windowSize) ->
   buildNavigationIndex GetCellFormula file currentChunk offset windowSize streamResults
                        checksumMatch now = Some Panic) /\
  (0 <= offset -> windowSize <> 0 ->
   buildNavigationIndex GetCellFormula file currentChunk offset windowSize streamResults
                        checksumMatch now <> Some Panic).
Proof.
  unfold Cursor.int64. intros Hoff Hws. unfold buildNavigationIndex, goDiv. cbv zeta. split.
  - intros [-> | [Hneg Hpos]]; [reflexivity |].
    destruct (windowSize =? 0) eqn:Hz; [reflexivity |].
    rewrite (wrap64_small (offset + windowSize)) by lia.
    replace (offset <? 0) with true by (symmetry; apply Z.ltb_lt; lia).
    match goal with |- context [?a <? ?b] =>
      replace (offset <? (if a <? b then a else b)) with true; [reflexivity |] end.
    symmetry. apply Z.ltb_lt. unfold len.
    destruct (_ <? _); lia.
  - intros Hpos Hnz. destruct (windowSize =? 0) eqn:Hz; [lia |].
    replace (offset <? 0) with false by (symmetry; apply Z.ltb_ge; lia).
    rewrite andb_false_r.
    destruct (sheetsFrom _ _ _ _ _ _ _) as [[sheetsInChunk sheetIndex] | e]; [| discriminate].
    destruct (buildSearchIndex _ _ _) as [[searchIndex | e] |]; discriminate.
Qed.

End Chunk.

(** A workbook without formulas. *)
Definition noFormulas (sheet cell : string) : result string := Ok "".

Lemma buildNavigationIndex_window_witness :
  exists nav,
    buildNavigationIndex (H := IndexFacts.exactFilter) noFormulas IndexFacts.sampleFile
                         "chunk_1" 1 5 false true (1700000000 * Second) =
      Some (Done (Ok nav)) /\
    SheetsInChunk (NavChunkInfo nav) = ["T"] /\
    Forall2 (describes IndexFacts.sampleFile) ["T"] (NavSheetIndex nav) /\
    List.map SheetID (NavSheetIndex nav) = ["sheet_1"] /\
    TotalChunks (NavChunkInfo nav) = 1 /\
    Current (NavChunkInfo nav) = "chunk_1" /\
    RebuildRequired (NavDeltaTracking nav) = false.
Proof.
  apply (buildNavigationIndex_window (H := IndexFacts.exactFilter) noFormulas
           IndexFacts.sampleFile "chunk_1" 1 5 false true (1700000000 * Second)).
  - lia.
  - lia.
  - lia.
  - reflexivity.
  - intros name [<- | []]. eexists. reflexivity.
Defined.

Lemma buildNavigationIndex_panics_witness :
  buildNavigationIndex (H := IndexFacts.exactFilter) noFormulas IndexFacts.sampleFile
                       "chunk_0" (-1) 10 false true (1700000000 * Second) = Some Panic /\
  buildNavigationIndex (H := IndexFacts.exactFilter) noFormulas IndexFacts.sampleFile
                       "chunk_0" 0 0 false true (1700000000 * Second) = Some Panic /\
  buildNavigationIndex (H := IndexFacts.exactFilter) noFormulas IndexFacts.sampleFile
                       "chunk_0" 0 10 false true (1700000000 * Second) <> Some Panic.
Proof.
  split; [| split].
  - apply (buildNavigationIndex_panics (H := IndexFacts.exactFilter) noFormulas
             IndexFacts.sampleFile "chunk_0" (-1) 10 false true (1700000000 * Second));
      [unfold Cursor.int64; lia | unfold Cursor.int64; lia | right; lia].
  - apply (buildNavigationIndex_panics (H := IndexFacts.exactFilter) noFormulas
             IndexFacts.sampleFile "chunk_0" 0 0 false true (1700000000 * Second));
      [unfold Cursor.int64; lia | unfold Cursor.int64; lia | now left].
  - apply (buildNavigationIndex_panics (H := IndexFacts.exactFilter) noFormulas
             IndexFacts.sampleFile "chunk_0" 0 10 false true (1700000000 * Second));
      [unfold Cursor.int64; lia | unfold Cursor.int64; lia | lia | lia].
Defined.

End NavigationFacts.
